(** * ScoreCalculator-SIUS: a shallow embedding of the CSV core and its checked properties

    The development follows [sius_csv.py], [sius_fields.py] and the request
    handlers and the store of the tabs of [app_web.py].  Python values are
    modelled as the code uses them:

    - a [str] is a [string], each character standing for one code point below
      256;
    - an [int] is a [Z], a [float] is an IEEE 754 binary64 number
      ([spec_float] with precision 53 and maximal exponent 1024);
    - [None] is [option]'s [None];
    - an exception is a value of [exn], and a call that may raise returns a
      [result];
    - a [dict] is an association list in insertion order, which is the order
      Python iterates it in;
    - [sorted] and [list.sort] are a stable insertion sort that only asks
      whether one key is smaller than another.  It returns the list the
      interpreter's sort returns whenever the comparison orders the keys
      (a stable sort is then unique), which is so for all keys of the
      program but a time that reads as NaN; the statements on the order of
      shots leave such lists out;
    - the module-level store [_tab_store] and the clock are passed to the
      functions that read them, and the changed store is returned. *)

From Stdlib Require Import ZArith NArith List String Ascii Bool Lia.
From Stdlib Require Import Permutation Sorted DecimalString OrderedTypeEx.
From Stdlib Require Import Floats.SpecFloat.
Import ListNotations.

Local Open Scope string_scope.
Local Open Scope Z_scope.

(** ** Exceptions and results *)

Inductive exn : Type :=
| ValueError (msg : string)
| OverflowError (msg : string)
| ZeroDivisionError (msg : string)
| KeyError (key : string).

Inductive result (A : Type) : Type :=
| Ok (a : A)
| Raise (e : exn).

Arguments Ok {A} a.
Arguments Raise {A} e.

Definition bind {A B : Type} (r : result A) (k : A -> result B) : result B :=
  match r with
  | Ok a => k a
  | Raise e => Raise e
  end.

Notation "x <- r ;; k" := (bind r (fun x => k))
  (at level 61, r at next level, right associativity).

(** [try: body except ValueError: handler]. *)
Definition except_ValueError {A : Type} (body : result A) (handler : result A) : result A :=
  match body with
  | Raise (ValueError _) => handler
  | other => other
  end.

(** ** Strings *)

Definition code (c : ascii) : N := N_of_ascii c.

Definition in_range (lo hi : N) (c : ascii) : bool :=
  ((lo <=? code c) && (code c <=? hi))%N.

(** Characters [str.strip()] removes: the ASCII blanks, the separators
    28..31, NEL (133) and the no-break space (160). *)
Definition is_space (c : ascii) : bool :=
  in_range 9 13 c || in_range 28 32 c || (code c =? 133)%N || (code c =? 160)%N.

Fixpoint lstrip (s : string) : string :=
  match s with
  | EmptyString => EmptyString
  | String c r => if is_space c then lstrip r else s
  end.

Fixpoint rstrip (s : string) : string :=
  match s with
  | EmptyString => EmptyString
  | String c r =>
      match rstrip r with
      | EmptyString => if is_space c then EmptyString else String c EmptyString
      | r' => String c r'
      end
  end.

(** [s.strip()] *)
Definition strip (s : string) : string := rstrip (lstrip s).

(** Truth value of a string: [if s] holds for a non-empty string. *)
Definition truthy (s : string) : bool :=
  match s with
  | EmptyString => false
  | String _ _ => true
  end.

Definition lower_char (c : ascii) : ascii :=
  if in_range 65 90 c || in_range 192 214 c || in_range 216 222 c
  then ascii_of_N (code c + 32)
  else c.

(** [s.lower()] *)
Fixpoint lower (s : string) : string :=
  match s with
  | EmptyString => EmptyString
  | String c r => String (lower_char c) (lower r)
  end.

(** [s.replace(c, "")] for a one-character [c]. *)
Fixpoint remove_char (c : ascii) (s : string) : string :=
  match s with
  | EmptyString => EmptyString
  | String d r => if Ascii.eqb d c then remove_char c r else String d (remove_char c r)
  end.

(** [sub in s] *)
Fixpoint contains (sub s : string) : bool :=
  prefix sub s ||
  match s with
  | EmptyString => false
  | String _ r => contains sub r
  end.

(** [x in xs] for a tuple, list or set of strings. *)
Definition mem (x : string) (xs : list string) : bool :=
  existsb (String.eqb x) xs.

Definition is_ascii_digit (c : ascii) : bool := in_range 48 57 c.

(** [c.isdigit()]: the ASCII digits and the superscripts 2, 3 and 1
    (code points 178, 179 and 185). *)
Definition is_digit_char (c : ascii) : bool :=
  is_ascii_digit c || (code c =? 178)%N || (code c =? 179)%N || (code c =? 185)%N.

Fixpoint all_chars (p : ascii -> bool) (s : string) : bool :=
  match s with
  | EmptyString => true
  | String c r => p c && all_chars p r
  end.

(** [s.isdigit()] *)
Definition isdigit (s : string) : bool := truthy s && all_chars is_digit_char s.

Fixpoint repeat_char (c : ascii) (n : nat) : string :=
  match n with
  | O => EmptyString
  | S k => String c (repeat_char c k)
  end.

(** [s.zfill(width)]: zeros go after a leading sign. *)
Definition zfill (width : nat) (s : string) : string :=
  let pad := repeat_char "0" (width - String.length s) in
  match s with
  | String c r =>
      if Ascii.eqb c "+" || Ascii.eqb c "-" then String c (pad ++ r) else pad ++ s
  | EmptyString => pad
  end.

(** [a < b] on strings: by code points, a proper prefix first. *)
Definition str_ltb (a b : string) : bool := String.ltb a b.

(** ** Numbers *)

Definition prec : Z := 53.
Definition emax : Z := 1024.

Definition float := spec_float.

Definition fzero : float := S754_zero false.

(** The binary64 number nearest to [n / d] (ties to even), with sign [neg]. *)
Definition float_of_ratio (neg : bool) (n d : positive) : float :=
  let '(q, e, l) := SFdiv_core_binary prec emax (Zpos n) 0 (Zpos d) 0 in
  binary_round_aux prec emax neg q e l.

(** The binary64 number nearest to [m * 10 ^ e10]. *)
Definition float_of_decimal (neg : bool) (m : Z) (e10 : Z) : float :=
  match m with
  | Zpos p =>
      if 0 <=? e10
      then float_of_ratio neg (p * Z.to_pos (10 ^ e10)) 1
      else float_of_ratio neg p (Z.to_pos (10 ^ (- e10)))
  | _ => S754_zero neg
  end.

Definition is_nan (f : float) : bool :=
  match f with
  | S754_nan => true
  | _ => false
  end.

Definition is_finite (f : float) : bool :=
  match f with
  | S754_zero _ | S754_finite _ _ _ => true
  | _ => false
  end.

(** A parsed cell: [int] or [float]. *)
Inductive pyval : Type :=
| VInt (z : Z)
| VFloat (f : float).

Definition digit_val (c : ascii) : Z := Z.of_N (code c) - 48.

Fixpoint digits_value (acc : Z) (s : string) : Z :=
  match s with
  | EmptyString => acc
  | String c r => digits_value (10 * acc + digit_val c) r
  end.

(** The longest prefix of digits, and what follows it. *)
Fixpoint take_digits (s : string) : string * string :=
  match s with
  | String c r =>
      if is_ascii_digit c
      then let '(d, t) := take_digits r in (String c d, t)
      else (EmptyString, s)
  | EmptyString => (EmptyString, EmptyString)
  end.

(** Underscores of a numeric literal: each must stand between two digits.
    Returns the text without them. *)
Fixpoint drop_underscores (prev : ascii) (s : string) : option string :=
  match s with
  | EmptyString => if Ascii.eqb prev "_" then None else Some EmptyString
  | String c r =>
      if Ascii.eqb c "_"
      then if is_ascii_digit prev then drop_underscores c r else None
      else if Ascii.eqb prev "_" && negb (is_ascii_digit c) then None
      else option_map (String c) (drop_underscores c r)
  end.

Definition take_sign (s : string) : bool * string :=
  match s with
  | String c r =>
      if Ascii.eqb c "-" then (true, r)
      else if Ascii.eqb c "+" then (false, r)
      else (false, s)
  | EmptyString => (false, s)
  end.

(** The exponent part: [e] or [E], an optional sign and at least one digit.
    Anything else leaves the text unread. *)
Definition take_exponent (s : string) : Z * string :=
  match s with
  | String c r =>
      if Ascii.eqb c "e" || Ascii.eqb c "E"
      then
        let '(neg, r1) := take_sign r in
        let '(ds, r2) := take_digits r1 in
        if truthy ds
        then ((if neg then - digits_value 0 ds else digits_value 0 ds), r2)
        else (0, s)
      else (0, s)
  | EmptyString => (0, s)
  end.

(** An unsigned decimal number: digits, an optional point and digits, an
    optional exponent, with at least one digit before the exponent. *)
Definition parse_decimal (neg : bool) (s : string) : option float :=
  let '(ip, r1) := take_digits s in
  let '(fp, r2) :=
    match r1 with
    | String c r => if Ascii.eqb c "." then take_digits r else (EmptyString, r1)
    | EmptyString => (EmptyString, r1)
    end in
  if truthy ip || truthy fp
  then
    let '(ex, r3) := take_exponent r2 in
    if truthy r3 then None
    else Some (float_of_decimal neg (digits_value 0 (ip ++ fp))
                 (ex - Z.of_nat (String.length fp)))
  else None.

Definition float_error : exn := ValueError "could not convert string to float".
Definition int_error : exn := ValueError "invalid literal for int() with base 10".

(** [float(s)] for a string [s]. *)
Definition py_float (s : string) : result float :=
  match drop_underscores zero (strip s) with
  | None => Raise float_error
  | Some t =>
      let '(neg, body) := take_sign t in
      let low := lower body in
      if String.eqb low "inf" || String.eqb low "infinity" then Ok (S754_infinity neg)
      else if String.eqb low "nan" then Ok S754_nan
      else
        match parse_decimal neg body with
        | Some f => Ok f
        | None => Raise float_error
        end
  end.

(** Digits of an [int] literal after the first one; [us] tells whether the
    last character read was an underscore. *)
Fixpoint int_digits (us : bool) (acc : Z) (s : string) : option Z :=
  match s with
  | EmptyString => if us then None else Some acc
  | String c r =>
      if is_ascii_digit c then int_digits false (10 * acc + digit_val c) r
      else if Ascii.eqb c "_" && negb us then int_digits true acc r
      else None
  end.

(** [int(s)] for a string [s] (base 10).  The interpreter's limit on the
    number of digits of a literal (4300 by default) is left out. *)
Definition py_int (s : string) : result Z :=
  let '(neg, body) := take_sign (strip s) in
  match body with
  | String c r =>
      if is_ascii_digit c
      then
        match int_digits false (digit_val c) r with
        | Some z => Ok (if neg then - z else z)
        | None => Raise int_error
        end
      else Raise int_error
  | EmptyString => Raise int_error
  end.

(** ** Arithmetic of [int] and [float] *)

Definition nan_to_int : exn := ValueError "cannot convert float NaN to integer".
Definition inf_to_int : exn := OverflowError "cannot convert float infinity to integer".
Definition int_too_large : exn := OverflowError "int too large to convert to float".
Definition quotient_too_large : exn :=
  OverflowError "integer division result too large for a float".

(** A finite float as an exact fraction with a positive denominator. *)
Definition float_fraction (f : float) : option (Z * Z) :=
  match f with
  | S754_zero _ => Some (0, 1)
  | S754_finite s m e =>
      let n := if s then Zneg m else Zpos m in
      Some (if 0 <=? e then (n * 2 ^ e, 1) else (n, 2 ^ (- e)))
  | _ => None
  end.

(** [int(f)]: the integer part toward zero. *)
Definition int_of_float (f : float) : result Z :=
  match f with
  | S754_nan => Raise nan_to_int
  | S754_infinity _ => Raise inf_to_int
  | _ =>
      match float_fraction f with
      | Some (n, d) => Ok (Z.quot n d)
      | None => Ok 0
      end
  end.

(** [math.floor(f)] *)
Definition floor_of_float (f : float) : result Z :=
  match f with
  | S754_nan => Raise nan_to_int
  | S754_infinity _ => Raise inf_to_int
  | _ =>
      match float_fraction f with
      | Some (n, d) => Ok (n / d)
      | None => Ok 0
      end
  end.

(** [int(v)] *)
Definition py_int_of (v : pyval) : result Z :=
  match v with
  | VInt z => Ok z
  | VFloat f => int_of_float f
  end.

(** [math.floor(v)] *)
Definition math_floor (v : pyval) : result Z :=
  match v with
  | VInt z => Ok z
  | VFloat f => floor_of_float f
  end.

(** [f == z] for a float and an int: an exact comparison. *)
Definition float_eq_int (f : float) (z : Z) : bool :=
  match float_fraction f with
  | Some (n, d) => n =? z * d
  | None => false
  end.

(** [v != 0] *)
Definition ne_zero (v : pyval) : bool :=
  match v with
  | VInt z => negb (z =? 0)
  | VFloat f => negb (float_eq_int f 0)
  end.

(** [float(z)]: the nearest float, or OverflowError. *)
Definition float_of_int (z : Z) : result float :=
  let f := binary_normalize prec emax z 0 false in
  if is_finite f then Ok f else Raise int_too_large.

(** [a + v] for a float [a]. *)
Definition float_add (a : float) (v : pyval) : result float :=
  match v with
  | VFloat b => Ok (SFadd prec emax a b)
  | VInt z => b <- float_of_int z ;; Ok (SFadd prec emax a b)
  end.

(** [a / n] for a float [a] and a count [n]. *)
Definition float_div_count (a : float) (n : nat) : result float :=
  match n with
  | O => Raise (ZeroDivisionError "float division by zero")
  | S _ => b <- float_of_int (Z.of_nat n) ;; Ok (SFdiv prec emax a b)
  end.

(** [a / n] for an int [a] and a count [n]: true division, the nearest
    float to the exact quotient. *)
Definition int_div_count (a : Z) (n : nat) : result float :=
  match n, a with
  | O, _ => Raise (ZeroDivisionError "division by zero")
  | S _, Z0 => Ok fzero
  | S _, Zpos p | S _, Zneg p =>
      let f := float_of_ratio (a <? 0) p (Pos.of_nat n) in
      if is_finite f then Ok f else Raise quotient_too_large
  end.

(** The integer nearest to [n / d] for [0 <= n] and [0 < d], ties to even. *)
Definition round_half_even (n d : Z) : Z :=
  let q := n / d in
  match (2 * (n mod d) ?= d) with
  | Lt => q
  | Gt => q + 1
  | Eq => if Z.even q then q else q + 1
  end.

(** [round(f, 4)]: the value is rounded to four decimals in exact
    arithmetic and the decimal is read back as a float. *)
Definition round4_float (f : float) : float :=
  match f with
  | S754_finite s m e =>
      let '(n, d) := if 0 <=? e then (Zpos m * 2 ^ e, 1) else (Zpos m, 2 ^ (- e)) in
      float_of_decimal s (round_half_even (n * 10000) d) (-4)
  | _ => f
  end.

(** [round(v, 4)]: an int is returned as it is. *)
Definition round4 (v : pyval) : pyval :=
  match v with
  | VInt z => VInt z
  | VFloat f => VFloat (round4_float f)
  end.

(** ** [str] of a number *)

Definition str_of_int (z : Z) : string := NilZero.string_of_int (Z.to_int z).

(** [10 ^ k <= n / d] *)
Definition pow10_le (n d k : Z) : bool :=
  if 0 <=? k then 10 ^ k * d <=? n else d <=? n * 10 ^ (- k).

Fixpoint climb (fuel : nat) (n d k : Z) : Z :=
  match fuel with
  | O => k
  | S fuel' => if pow10_le n d (k + 1) then climb fuel' n d (k + 1) else k
  end.

(** The largest [k] with [10 ^ k <= n / d], for a binary64 magnitude. *)
Definition decimal_exponent (n d : Z) : Z :=
  climb 6 n d ((Z.log2 n - Z.log2 d - 1) * 30103 / 100000 - 1).

Definition same_float (a b : float) : bool :=
  match a, b with
  | S754_finite s1 m1 e1, S754_finite s2 m2 e2 =>
      Bool.eqb s1 s2 && (m1 =? m2)%positive && (e1 =? e2)
  | S754_zero s1, S754_zero s2 => Bool.eqb s1 s2
  | S754_infinity s1, S754_infinity s2 => Bool.eqb s1 s2
  | S754_nan, S754_nan => true
  | _, _ => false
  end.

(** The decimal with [nd] significant digits that reads back as [x = n / d]:
    the one below or the one above [x], the nearer when both do. *)
Definition candidate (x : float) (n d k : Z) (nd : Z) : option (Z * Z) :=
  let q := k - nd + 1 in
  let '(sn, sd) := if 0 <=? q then (n, d * 10 ^ q) else (n * 10 ^ (- q), d) in
  let lo := sn / sd in
  let hi := lo + 1 in
  let ok_lo := same_float (float_of_decimal false lo q) x in
  let ok_hi := same_float (float_of_decimal false hi q) x in
  match ok_lo, ok_hi with
  | true, true => Some (round_half_even sn sd, q)
  | true, false => Some (lo, q)
  | false, true => Some (hi, q)
  | false, false => None
  end.

Fixpoint shortest (fuel : nat) (x : float) (n d k : Z) (nd : Z) : Z * Z :=
  match fuel with
  | O => (0, 0)
  | S fuel' =>
      match candidate x n d k nd with
      | Some r => r
      | None => shortest fuel' x n d k (nd + 1)
      end
  end.

Fixpoint strip_zeros_rev (s : list ascii) : list ascii :=
  match s with
  | c :: r => if Ascii.eqb c "0" then strip_zeros_rev r else s
  | [] => []
  end.

Definition strip_trailing_zeros (s : string) : string :=
  string_of_list_ascii (rev (strip_zeros_rev (rev (list_ascii_of_string s)))).

Definition two_digits (z : Z) : string :=
  if z <? 10 then "0" ++ str_of_int z else str_of_int z.

(** The text of a positive float from its shortest digits [ds] and the
    position [decpt] of the decimal point. *)
Definition format_repr (ds : string) (decpt : Z) : string :=
  let len := Z.of_nat (String.length ds) in
  if (decpt <=? -4) || (16 <? decpt)
  then
    let ex := decpt - 1 in
    let mant :=
      match ds with
      | String c EmptyString => ds
      | String c r => String c ("." ++ r)
      | EmptyString => ds
      end in
    mant ++ "e" ++ (if ex <? 0 then "-" else "+") ++ two_digits (Z.abs ex)
  else if decpt <=? 0
  then "0." ++ repeat_char "0" (Z.to_nat (- decpt)) ++ ds
  else if len <=? decpt
  then ds ++ repeat_char "0" (Z.to_nat (decpt - len)) ++ ".0"
  else substring 0 (Z.to_nat decpt) ds ++ "." ++
       substring (Z.to_nat decpt) (Z.to_nat (len - decpt)) ds.

(** [str(f)] for a float: its shortest text that reads back as [f]. *)
Definition str_of_float (f : float) : string :=
  match f with
  | S754_nan => "nan"
  | S754_infinity s => if s then "-inf" else "inf"
  | S754_zero s => if s then "-0.0" else "0.0"
  | S754_finite s m e =>
      let '(n, d) := if 0 <=? e then (Zpos m * 2 ^ e, 1) else (Zpos m, 2 ^ (- e)) in
      let k := decimal_exponent n d in
      let '(digits, q) := shortest 17 (S754_finite false m e) n d k 1 in
      let all := str_of_int digits in
      let decpt := Z.of_nat (String.length all) + q in
      (if s then "-" else "") ++ format_repr (strip_trailing_zeros all) decpt
  end.

(** [str(v)] *)
Definition py_str (v : pyval) : string :=
  match v with
  | VInt z => str_of_int z
  | VFloat f => str_of_float f
  end.

(** ** Lists, dictionaries and sorting *)

Fixpoint foldM {S A : Type} (step : S -> A -> result S) (s : S) (l : list A) : result S :=
  match l with
  | [] => Ok s
  | a :: t => s' <- step s a ;; foldM step s' t
  end.

Fixpoint mapM {A B : Type} (f : A -> result B) (l : list A) : result (list B) :=
  match l with
  | [] => Ok []
  | a :: t => b <- f a ;; bs <- mapM f t ;; Ok (b :: bs)
  end.

(** [next((i for i, h in enumerate(headers) if h == name), None)] *)
Fixpoint index_of (name : string) (headers : list string) : option nat :=
  match headers with
  | [] => None
  | h :: t => if String.eqb h name then Some O else option_map S (index_of name t)
  end.

(** [list(enumerate(l))], counting from [i]. *)
Fixpoint enumerate_from {A : Type} (i : nat) (l : list A) : list (nat * A) :=
  match l with
  | [] => []
  | a :: t => (i, a) :: enumerate_from (S i) t
  end.

Definition enumerate {A : Type} (l : list A) : list (nat * A) := enumerate_from O l.

Section Dict.
Context {V : Type}.

Definition dict : Type := list (string * V).

(** [d.get(k)] *)
Fixpoint dict_get (k : string) (d : dict) : option V :=
  match d with
  | [] => None
  | (k', v) :: t => if String.eqb k' k then Some v else dict_get k t
  end.

(** [d[k] = v]: a known key keeps its place, a new one goes last. *)
Fixpoint dict_set (k : string) (v : V) (d : dict) : dict :=
  match d with
  | [] => [(k, v)]
  | (k', v') :: t =>
      if String.eqb k' k then (k', v) :: t else (k', v') :: dict_set k v t
  end.

(** [list(d.keys())] *)
Definition dict_keys (d : dict) : list string := map fst d.
End Dict.

Arguments dict V : clear implicits.

Section Sorting.
Context {A K : Type}.
Variable ltb : K -> K -> bool.
Variable key : A -> K.

(** [x] goes behind the elements whose key is smaller than its own. *)
Fixpoint insert_sorted (x : A) (l : list A) : list A :=
  match l with
  | [] => [x]
  | y :: t => if ltb (key y) (key x) then y :: insert_sorted x t else x :: l
  end.

(** [sorted(l, key=key)]: elements with equal keys keep their order.  When
    [ltb] orders the keys of [l] (no key is NaN), this is the one stable
    sorted arrangement of [l], the list [sorted] returns.  With a NaN among
    the keys no arrangement is sorted, the interpreter's sort may return
    another permutation of [l] than this one, and only what holds of every
    permutation can be concluded. *)
Definition py_sorted (l : list A) : list A := fold_right insert_sorted [] l.

(** [l.sort(key=key, reverse=True)]: the list is reversed, sorted, and
    reversed again, so elements with equal keys keep their order.  As for
    [py_sorted], this is the list the interpreter returns when no key is
    NaN. *)
Definition py_sort_reverse (l : list A) : list A := rev (py_sorted (rev l)).
End Sorting.

(** ** sius_csv.py: cells *)

Definition SIUS_ID_ALIASES : list string :=
  ["start number"; "startnumber"; "start_no"; "id"; "competitor"; "shooter"].

Definition SIUS_SCORE_ALIASES : list string :=
  ["decimal score"; "decimalscore"; "score"; "decimal"; "points"; "inner ten"; "innerten"].

Definition _normalize_header (name : string) : string :=
  remove_char "-" (remove_char "_" (remove_char " " (lower (strip name)))).

Definition _is_numeric (value : string) : result bool :=
  let value := strip value in
  if negb (truthy value) then Ok false
  else except_ValueError (_ <- py_float value ;; Ok true) (Ok false).

Definition _parse_value (value : string) : result (option pyval) :=
  let value := strip value in
  if negb (truthy value) then Ok None
  else
    except_ValueError
      (if contains "." value || contains "e" (lower value)
       then f <- py_float value ;; Ok (Some (VFloat f))
       else z <- py_int value ;; Ok (Some (VInt z)))
      (Ok None).

(** The key [(0, float(v))] or [(1, v)]. *)
Inductive time_key : Type :=
| NumKey (f : float)
| StrKey (s : string).

Definition _time_sort_key (time_val : string) : result time_key :=
  let v := strip time_val in
  except_ValueError (f <- py_float v ;; Ok (NumKey f)) (Ok (StrKey v)).

(** [row[i] if i < len(row)] *)
Definition cell (row : list string) (i : nat) : option string := nth_error row i.

(** The body of the [try] of [_column_has_decimals]: [f != int(f)]. *)
Definition has_fraction (v : string) : result bool :=
  f <- py_float v ;;
  i <- int_of_float f ;;
  Ok (negb (float_eq_int f i)).

Fixpoint _column_has_decimals (rows : list (list string)) (col_idx : nat) : result bool :=
  match rows with
  | [] => Ok false
  | row :: rest =>
      match cell row col_idx with
      | None => _column_has_decimals rest col_idx
      | Some c =>
          let v := strip c in
          if negb (truthy v) then _column_has_decimals rest col_idx
          else
            found <- except_ValueError (has_fraction v) (Ok false) ;;
            if found then Ok true else _column_has_decimals rest col_idx
      end
  end.

Definition int_or_none (conv : pyval -> result Z) (v : option pyval) : result (option Z) :=
  match v with
  | Some x => i <- conv x ;; Ok (Some i)
  | None => Ok None
  end.

Definition _decimal_and_integer_scores
    (primary_val secondary_val : option pyval) (primary_is_decimal : bool)
  : result (option pyval * option Z) :=
  if primary_is_decimal
  then
    let decimal_val := primary_val in
    integer_val <-
      match secondary_val with
      | Some s =>
          if ne_zero s then int_or_none py_int_of secondary_val
          else int_or_none math_floor primary_val
      | None => int_or_none math_floor primary_val
      end ;;
    Ok (decimal_val, integer_val)
  else
    integer_val <- int_or_none py_int_of primary_val ;;
    let decimal_val := secondary_val in
    Ok (decimal_val, integer_val).

(** [_parse_value(row[i]) if i is not None and i < len(row) else None] *)
Definition parse_cell (row : list string) (i : option nat) : result (option pyval) :=
  match i with
  | Some j =>
      match cell row j with
      | Some c => _parse_value c
      | None => Ok None
      end
  | None => Ok None
  end.

(** The index of an optional column: [None] for no name or an empty one. *)
Definition optional_index (name : option string) (headers : list string) : option nat :=
  match name with
  | Some n => if truthy n then index_of n headers else None
  | None => None
  end.

(** The key of [sorted(by_id.keys(), key=...)] in both summaries. *)
Definition id_sort_key (x : string) : bool * string :=
  (isdigit x, if isdigit x then zfill 10 x else x).

(** [a < b] on pairs of a [bool] and a [str]. *)
Definition id_key_ltb (a b : bool * string) : bool :=
  if Bool.eqb (fst a) (fst b) then str_ltb (snd a) (snd b)
  else negb (fst a) && fst b.

(** ** sius_csv.py: [summarize_decimal_integer] *)

(** One entry of [by_id]. *)
Record tally : Type := {
  count : nat;
  decimal_sum : float;
  decimal_n : nat;
  integer_sum : Z;
  integer_n : nat
}.

(** The default of [by_id]: all counters at zero. *)
Definition new_tally : tally :=
  {| count := 0; decimal_sum := fzero; decimal_n := 0; integer_sum := 0; integer_n := 0 |}.

(** [by_id[id_val]], created from the default when missing. *)
Definition tally_of (by_id : dict tally) (id_val : string) : tally :=
  match dict_get id_val by_id with
  | Some t => t
  | None => new_tally
  end.

Definition add_decimal (t : tally) (score : option pyval) : result tally :=
  match score with
  | Some v =>
      s <- float_add (decimal_sum t) v ;;
      Ok {| count := count t; decimal_sum := s; decimal_n := S (decimal_n t);
            integer_sum := integer_sum t; integer_n := integer_n t |}
  | None => Ok t
  end.

Definition add_integer (t : tally) (score : option Z) : tally :=
  match score with
  | Some i =>
      {| count := count t; decimal_sum := decimal_sum t; decimal_n := decimal_n t;
         integer_sum := integer_sum t + i; integer_n := S (integer_n t) |}
  | None => t
  end.

Definition add_count (t : tally) : tally :=
  {| count := S (count t); decimal_sum := decimal_sum t; decimal_n := decimal_n t;
     integer_sum := integer_sum t; integer_n := integer_n t |}.

(** The identifier of a row: [None] when the row is skipped. *)
Definition row_id (id_idx : nat) (row : list string) : option string :=
  match cell row id_idx with
  | None => None
  | Some c => let id_val := strip c in if truthy id_val then Some id_val else None
  end.

(** One turn of the loop over the rows. *)
Definition tally_row (id_idx primary_idx : nat) (secondary_idx : option nat)
    (primary_is_decimal : bool) (by_id : dict tally) (row : list string)
  : result (dict tally) :=
  match row_id id_idx row with
  | None => Ok by_id
  | Some id_val =>
      primary_val <- parse_cell row (Some primary_idx) ;;
      secondary_val <- parse_cell row secondary_idx ;;
      scores <- _decimal_and_integer_scores primary_val secondary_val primary_is_decimal ;;
      let t := add_count (tally_of by_id id_val) in
      t <- add_decimal t (fst scores) ;;
      Ok (dict_set id_val (add_integer t (snd scores)) by_id)
  end.

(** One record of the result of [summarize_decimal_integer]. *)
Record summary_row : Type := {
  sr_id : string;
  sr_count : nat;
  Decimal_score_sum : option float;
  Decimal_score_mean : option float;
  Integer_score_sum : option Z;
  Integer_score_mean : option float
}.

Definition summary_of (id_val : string) (t : tally) : result summary_row :=
  dmean <-
    match decimal_n t with
    | O => Ok None
    | S _ => q <- float_div_count (decimal_sum t) (decimal_n t) ;; Ok (Some (round4_float q))
    end ;;
  imean <-
    match integer_n t with
    | O => Ok None
    | S _ => q <- int_div_count (integer_sum t) (integer_n t) ;; Ok (Some (round4_float q))
    end ;;
  Ok {| sr_id := id_val;
        sr_count := count t;
        Decimal_score_sum :=
          match decimal_n t with
          | O => None
          | S _ => Some (round4_float (decimal_sum t))
          end;
        Decimal_score_mean := dmean;
        Integer_score_sum :=
          match integer_n t with
          | O => None
          | S _ => Some (integer_sum t)
          end;
        Integer_score_mean := imean |}.

Definition summarize_decimal_integer
    (headers : list string) (rows : list (list string))
    (id_column primary_column : string) (secondary_column : option string)
  : result (list summary_row) :=
  let id_idx := index_of id_column headers in
  let primary_idx := index_of primary_column headers in
  let secondary_idx := optional_index secondary_column headers in
  match id_idx, primary_idx with
  | Some id_idx, Some primary_idx =>
      primary_is_decimal <- _column_has_decimals rows primary_idx ;;
      by_id <- foldM (tally_row id_idx primary_idx secondary_idx primary_is_decimal) [] rows ;;
      mapM (fun id_val => summary_of id_val (tally_of by_id id_val))
           (py_sorted id_key_ltb id_sort_key (dict_keys by_id))
  | _, _ => Ok []
  end.

(** ** sius_csv.py: [get_shots_for_start_nr] *)

Record shot : Type := {
  Index : nat;
  Time : string;
  Primary_score : string;
  Secondary_score : string;
  Decimal_score : option pyval;
  Integer_score : option Z
}.

(** [str(v) if v is not None else ""] *)
Definition str_or_empty (v : option pyval) : string :=
  match v with
  | Some x => py_str x
  | None => ""
  end.

(** The shot of one matching row. *)
Definition shot_of_row (primary_idx : nat) (secondary_idx time_idx : option nat)
    (primary_is_decimal : bool) (idx : nat) (row : list string) : result shot :=
  primary_val <- parse_cell row (Some primary_idx) ;;
  secondary_val <- parse_cell row secondary_idx ;;
  scores <- _decimal_and_integer_scores primary_val secondary_val primary_is_decimal ;;
  let time_val :=
    match time_idx with
    | Some t =>
        match cell row t with
        | Some c => strip c
        | None => ""
        end
    | None => ""
    end in
  Ok {| Index := idx;
        Time := time_val;
        Primary_score := str_or_empty primary_val;
        Secondary_score := str_or_empty secondary_val;
        Decimal_score := option_map round4 (fst scores);
        Integer_score := snd scores |}.

(** The test of the loop: the row has the identifier cell and it is, once
    trimmed, the wanted Start NR. *)
Definition row_matches (id_idx : nat) (start_nr_val : string) (row : list string) : bool :=
  match cell row id_idx with
  | None => false
  | Some c => String.eqb (strip c) start_nr_val
  end.

(** The loop over [enumerate(rows)]. *)
Fixpoint collect_shots (id_idx primary_idx : nat) (secondary_idx time_idx : option nat)
    (primary_is_decimal : bool) (start_nr_val : string)
    (rows : list (nat * list string)) : result (list shot) :=
  match rows with
  | [] => Ok []
  | (idx, row) :: rest =>
      if row_matches id_idx start_nr_val row
      then
        s <- shot_of_row primary_idx secondary_idx time_idx primary_is_decimal idx row ;;
        ss <- collect_shots id_idx primary_idx secondary_idx time_idx
                primary_is_decimal start_nr_val rest ;;
        Ok (s :: ss)
      else collect_shots id_idx primary_idx secondary_idx time_idx
             primary_is_decimal start_nr_val rest
  end.

(** [a < b] on floats: false when either is NaN. *)
Definition float_ltb (a b : float) : bool := SFltb a b.

(** [a == b] on floats. *)
Definition float_eqb (a b : float) : bool := SFeqb a b.

(** [a < b] on the keys of [_time_sort_key]: the tags decide unless they
    are equal. *)
Definition time_key_ltb (a b : time_key) : bool :=
  match a, b with
  | NumKey x, NumKey y => if float_eqb x y then false else float_ltb x y
  | NumKey _, StrKey _ => true
  | StrKey _, NumKey _ => false
  | StrKey x, StrKey y => str_ltb x y
  end.

(** [shots.sort(key=lambda s: _time_sort_key(s["Time"]), reverse=True)]:
    the keys are computed first, then the list is sorted on them.  The
    result is a permutation of the shots in every case, and the order the
    interpreter gives when no time reads as NaN (the text "nan"). *)
Definition sort_shots (shots : list shot) : result (list shot) :=
  keyed <- mapM (fun s => k <- _time_sort_key (Time s) ;; Ok (k, s)) shots ;;
  Ok (map snd (py_sort_reverse time_key_ltb fst keyed)).

Definition get_shots_for_start_nr
    (headers : list string) (rows : list (list string))
    (id_column primary_column : string) (secondary_column : option string)
    (time_column : string) (start_nr_val : string) : result (list shot) :=
  let id_idx := index_of id_column headers in
  let primary_idx := index_of primary_column headers in
  let secondary_idx := optional_index secondary_column headers in
  let time_idx := index_of time_column headers in
  match id_idx, primary_idx with
  | Some id_idx, Some primary_idx =>
      primary_is_decimal <- _column_has_decimals rows primary_idx ;;
      let start_nr_val := strip start_nr_val in
      shots <- collect_shots id_idx primary_idx secondary_idx time_idx
                 primary_is_decimal start_nr_val (enumerate rows) ;;
      sort_shots shots
  | _, _ => Ok []
  end.

(** ** sius_csv.py: [summarize_by_id] *)

(** One entry of [by_id]: the row count, and for each score column its sum
    and the list of its parsed values. *)
Record group : Type := {
  g_count : nat;
  sums : dict float;
  values : dict (list pyval)
}.

(** [{h: v for _, h in score_idxs}] *)
Definition dict_from_keys {V : Type} (v : V) (score_idxs : list (nat * string)) : dict V :=
  fold_left (fun d ih => dict_set (snd ih) v d) score_idxs [].

Definition new_group (score_idxs : list (nat * string)) : group :=
  {| g_count := 0; sums := dict_from_keys fzero score_idxs; values := dict_from_keys [] score_idxs |}.

Definition group_of (score_idxs : list (nat * string)) (by_id : dict group) (id_val : string) : group :=
  match dict_get id_val by_id with
  | Some g => g
  | None => new_group score_idxs
  end.

(** [d[k]] *)
Definition dict_item {V : Type} (k : string) (d : dict V) : result V :=
  match dict_get k d with
  | Some v => Ok v
  | None => Raise (KeyError k)
  end.

(** One turn of the inner loop over [score_idxs]. *)
Definition add_score (row : list string) (g : group) (ih : nat * string) : result group :=
  v <- parse_cell row (Some (fst ih)) ;;
  match v with
  | Some x =>
      s <- dict_item (snd ih) (sums g) ;;
      s' <- float_add s x ;;
      vs <- dict_item (snd ih) (values g) ;;
      Ok {| g_count := g_count g;
            sums := dict_set (snd ih) s' (sums g);
            values := dict_set (snd ih) (vs ++ [x])%list (values g) |}
  | None => Ok g
  end.

(** One turn of the loop over the rows. *)
Definition group_row (id_idx : nat) (score_idxs : list (nat * string))
    (by_id : dict group) (row : list string) : result (dict group) :=
  match row_id id_idx row with
  | None => Ok by_id
  | Some id_val =>
      let g := group_of score_idxs by_id id_val in
      let g := {| g_count := S (g_count g); sums := sums g; values := values g |} in
      g <- foldM (add_score row) g score_idxs ;;
      Ok (dict_set id_val g by_id)
  end.

(** One record of the result: [fields] holds the keys [<col>_sum] and
    [<col>_mean] in the order they were set. *)
Record group_summary : Type := {
  gs_id : string;
  gs_count : nat;
  fields : dict (option float)
}.

(** One turn of the loop over [score_columns] that fills a record. *)
Definition add_fields (g : group) (out : dict (option float)) (col_name : string)
  : result (dict (option float)) :=
  s <- dict_item col_name (sums g) ;;
  vs <- dict_item col_name (values g) ;;
  let n := List.length vs in
  let out := dict_set (col_name ++ "_sum") (Some (round4_float s)) out in
  mean <-
    match n with
    | O => Ok None
    | S _ => q <- float_div_count s n ;; Ok (Some (round4_float q))
    end ;;
  Ok (dict_set (col_name ++ "_mean") mean out).

Definition group_summary_of (score_columns : list string) (id_val : string) (g : group)
  : result group_summary :=
  out <- foldM (add_fields g) [] score_columns ;;
  Ok {| gs_id := id_val; gs_count := g_count g; fields := out |}.

Definition summarize_by_id
    (headers : list string) (rows : list (list string))
    (id_column : string) (score_columns : list string)
  : result (list group_summary) :=
  match index_of id_column headers with
  | None => Ok []
  | Some id_idx =>
      let score_idxs := filter (fun ih => mem (snd ih) score_columns) (enumerate headers) in
      match score_idxs with
      | [] => Ok []
      | _ :: _ =>
          by_id <- foldM (group_row id_idx score_idxs) [] rows ;;
          mapM (fun id_val =>
                  group_summary_of score_columns id_val (group_of score_idxs by_id id_val))
               (py_sorted id_key_ltb id_sort_key (dict_keys by_id))
      end
  end.

(** ** sius_csv.py: [infer_column_types] *)

(** [if x] for an optional string or list. *)
Definition given_string (x : option string) : option string :=
  match x with
  | Some s => if truthy s then Some s else None
  | None => None
  end.

(** The first header that passes a test on its position and name, as a
    list of at most one name. *)
Definition first_header (p : nat -> string -> bool) (headers : list string) : list string :=
  match find (fun ih => p (fst ih) (snd ih)) (enumerate headers) with
  | Some ih => [snd ih]
  | None => []
  end.

Definition str_of_nat (i : nat) : string := str_of_int (Z.of_nat i).

Definition id_columns (headers : list string) (id_hint : option string) : list string :=
  let by_hint :=
    match given_string id_hint with
    | Some hint =>
        first_header
          (fun i h =>
             String.eqb (_normalize_header h) (_normalize_header hint)
             || mem hint [h; str_of_nat i])
          headers
    | None => []
    end in
  let by_alias :=
    match by_hint with
    | [] =>
        first_header
          (fun _ h =>
             mem (_normalize_header h) SIUS_ID_ALIASES
             || contains "start" (_normalize_header h))
          headers
    | _ => by_hint
    end in
  match by_alias with
  | [] => firstn 1 headers
  | _ => by_alias
  end.

(** [all(_is_numeric(cell) for cell in sample if cell)] *)
Fixpoint all_numeric (sample : list string) : result bool :=
  match sample with
  | [] => Ok true
  | c :: rest =>
      if truthy c
      then b <- _is_numeric c ;; if b then all_numeric rest else Ok false
      else all_numeric rest
  end.

(** The name test on a score column. *)
Definition score_name (h : string) : bool :=
  mem (_normalize_header h) SIUS_SCORE_ALIASES
  || contains "score" (_normalize_header h)
  || contains "decimal" (_normalize_header h).

(** The cells of column [i] in the first 50 rows. *)
Definition column_sample (rows : list (list string)) (i : nat) : list string :=
  map (fun row => match cell row i with Some c => c | None => "" end)
      (firstn (Nat.min 50 (List.length rows)) rows).

(** One turn of the loop that collects the score columns. *)
Definition score_step (rows : list (list string)) (id_cols score_hint_set : list string)
    (score_cols : list string) (ih : nat * string) : result (list string) :=
  let h := snd ih in
  if mem h id_cols then Ok score_cols
  else if negb (Nat.eqb (List.length score_hint_set) 0) && mem (_normalize_header h) score_hint_set
  then Ok (score_cols ++ [h])%list
  else if score_name h then Ok (score_cols ++ [h])%list
  else
    b <- all_numeric (column_sample rows (fst ih)) ;;
    Ok (if b then (score_cols ++ [h])%list else score_cols).

Definition infer_column_types
    (headers : list string) (rows : list (list string))
    (id_hint : option string) (score_hints : option (list string))
  : result (list string * list string) :=
  match headers, rows with
  | [], _ | _, [] => Ok ([], [])
  | _ :: _, _ :: _ =>
      let id_cols := id_columns headers id_hint in
      let score_hint_set :=
        match score_hints with
        | Some hints => map _normalize_header hints
        | None => []
        end in
      score_cols <- foldM (score_step rows id_cols score_hint_set) [] (enumerate headers) ;;
      Ok (id_cols, score_cols)
  end.

(** ** sius_fields.py *)

Definition START_NR : string := "Start NR".
Definition PRIMARY_SCORE : string := "Primary score".
Definition SECONDARY_SCORE : string := "Secondary score".

Definition _normalize (name : string) : string :=
  remove_char "-" (remove_char "_" (remove_char " " (lower (strip name)))).

Definition START_NR_ALIASES : list string :=
  ["startnr"; "startnumber"; "start_no"; "startno"].

Definition PRIMARY_SCORE_ALIASES : list string :=
  ["primaryscore"; "decimalscore"; "decimal score"; "primary score"].

Definition SECONDARY_SCORE_ALIASES : list string :=
  ["secondaryscore"; "secondary score"].

(** [for h in csv_headers: if test(h): return h], then the next search. *)
Definition first_or {A : Type} (p : A -> bool) (l : list A) (otherwise : option A) : option A :=
  match find p l with
  | Some a => Some a
  | None => otherwise
  end.

Definition match_csv_header_to_field (csv_headers : list string) (target_field : string)
  : option string :=
  let target_norm := _normalize target_field in
  first_or (fun h => String.eqb (_normalize h) target_norm) csv_headers
    (first_or
       (fun h => String.eqb target_norm (_normalize START_NR)
                 && mem (_normalize h) START_NR_ALIASES)
       csv_headers
       (first_or
          (fun h => String.eqb target_norm (_normalize PRIMARY_SCORE)
                    && (mem (_normalize h) PRIMARY_SCORE_ALIASES
                        || (contains "decimal" (_normalize h)
                            && contains "score" (_normalize h))))
          csv_headers
          (first_or
             (fun h => String.eqb target_norm (_normalize SECONDARY_SCORE)
                       && mem (_normalize h) SECONDARY_SCORE_ALIASES)
             csv_headers
             None))).

(** The three entries of the dictionary [suggest_columns] returns. *)
Record suggestion : Type := {
  start_nr : option string;
  primary_score : option string;
  secondary_score : option string
}.

Definition suggest_columns (csv_headers : list string) : suggestion :=
  let found := match_csv_header_to_field csv_headers START_NR in
  {| start_nr :=
       match given_string found, csv_headers with
       | None, h :: _ => Some h
       | _, _ => found
       end;
     primary_score := match_csv_header_to_field csv_headers PRIMARY_SCORE;
     secondary_score := match_csv_header_to_field csv_headers SECONDARY_SCORE |}.

(** ** app_web.py: the requests [summary] and [target_data] *)

(** What a handler returns: an error text with status 400, or the payload. *)
Inductive response (A : Type) : Type :=
| Error400 (error : string)
| Json (payload : A).

Arguments Error400 {A} error.
Arguments Json {A} payload.

(** [str(e)] of an exception; for a [KeyError] the key between quotes. *)
Definition exn_str (e : exn) : string :=
  match e with
  | ValueError m | OverflowError m | ZeroDivisionError m => m
  | KeyError k => "'" ++ k ++ "'"
  end.

(** The fields of the request body the two handlers read: [relay],
    [start_nrs] (its elements after [str]), [excluded_indices] and
    [start_nr]. *)
Record request : Type := {
  relay : option string;
  start_nrs : option (list string);
  excluded_indices : list nat;
  req_start_nr : option string
}.

(** [_column_index(headers, name)] *)
Definition _column_index (headers : list string) (name : string) : option nat :=
  index_of name headers.

(** The relay filter: applied for a non-empty [relay] when the table has a
    column "Relay". *)
Definition filter_relay (headers : list string) (relay_filter : option string)
    (rows : list (list string)) : list (list string) :=
  match given_string relay_filter, _column_index headers "Relay" with
  | Some wanted, Some relay_idx =>
      filter (fun r =>
                match cell r relay_idx with
                | Some c => String.eqb (strip c) wanted
                | None => false
                end) rows
  | _, _ => rows
  end.

(** The allow-list filter: applied for a list that is not [None] when the
    table has a column "Start NR". *)
Definition filter_start_nrs (headers : list string) (start_nrs_filter : option (list string))
    (rows : list (list string)) : list (list string) :=
  match start_nrs_filter, _column_index headers "Start NR" with
  | Some allowed, Some start_nr_idx =>
      match allowed with
      | [] => []
      | _ :: _ =>
          filter (fun r =>
                    match cell r start_nr_idx with
                    | Some c => mem (strip c) allowed
                    | None => false
                    end) rows
      end
  | _, _ => rows
  end.

(** [[r for i, r in enumerate(rows) if i not in excluded_indices]] *)
Definition filter_excluded (excluded : list nat) (rows : list (list string))
  : list (list string) :=
  match excluded with
  | [] => rows
  | _ :: _ =>
      map snd (filter (fun ir => negb (existsb (Nat.eqb (fst ir)) excluded)) (enumerate rows))
  end.

(** The rows both handlers work on. *)
Definition selected_rows (headers : list string) (rows : list (list string)) (data : request)
  : list (list string) :=
  filter_excluded (excluded_indices data)
    (filter_start_nrs headers (start_nrs data)
       (filter_relay headers (relay data) rows)).

(** [suggested["start_nr"] or headers[0]] *)
Definition start_nr_column_of (headers : list string) : string :=
  match given_string (start_nr (suggest_columns headers)) with
  | Some h => h
  | None => hd "" headers
  end.

(** The payload of [summary]: the records, and the column names when there
    is a record. *)
Definition summary_columns : list string :=
  ["Start NR"; "count"; "Decimal score_sum"; "Decimal score_mean";
   "Integer score_sum"; "Integer score_mean"].

Definition summary (headers : list string) (rows : list (list string)) (data : request)
  : response (list summary_row * option (list string)) :=
  match headers, rows with
  | [], _ | _, [] => Error400 "Upload a file first"
  | _ :: _, _ :: _ =>
      let suggested := suggest_columns headers in
      let start_nr_column := start_nr_column_of headers in
      match given_string (primary_score suggested) with
      | None => Error400 "No Primary score column in SIUSFields"
      | Some primary_column =>
          let rows := selected_rows headers rows data in
          match summarize_decimal_integer headers rows start_nr_column primary_column
                  (secondary_score suggested) with
          | Raise e => Error400 (exn_str e)
          | Ok result =>
              Json (result,
                    match result with
                    | [] => None
                    | _ :: _ => Some summary_columns
                    end)
          end
      end
  end.

(** [_parse_float]: a float or [None]. *)
Definition _parse_float (val : string) : option float :=
  match py_float (strip val) with
  | Ok f => Some f
  | Raise _ => None
  end.

(** One shot of the target view. *)
Record target_shot : Type := {
  shot_num : nat;
  x : option float;
  y : option float;
  decimal_score : option pyval
}.

Definition coordinate (rows : list (list string)) (row_idx col_idx : nat) : option float :=
  match nth_error rows row_idx with
  | Some row =>
      match cell row col_idx with
      | Some c => _parse_float c
      | None => None
      end
  | None => None
  end.

Definition target_data (headers : list string) (rows : list (list string)) (data : request)
  : response (string * list target_shot) :=
  match headers, rows with
  | [], _ | _, [] => Error400 "Upload a file first"
  | _ :: _, _ :: _ =>
      let suggested := suggest_columns headers in
      let start_nr_column := start_nr_column_of headers in
      match given_string (primary_score suggested) with
      | None => Error400 "No Primary score column in SIUSFields"
      | Some primary_column =>
          match given_string (req_start_nr data) with
          | None => Error400 "start_nr required"
          | Some start_nr_val =>
              match _column_index headers "X", _column_index headers "Y" with
              | Some x_idx, Some y_idx =>
                  let rows := selected_rows headers rows data in
                  match get_shots_for_start_nr headers rows start_nr_column primary_column
                          (secondary_score suggested) "Time" start_nr_val with
                  | Raise e => Error400 (exn_str e)
                  | Ok shot_list =>
                      Json (start_nr_val,
                            map (fun ns =>
                                   {| shot_num := S (fst ns);
                                      x := coordinate rows (Index (snd ns)) x_idx;
                                      y := coordinate rows (Index (snd ns)) y_idx;
                                      decimal_score := Decimal_score (snd ns) |})
                                (enumerate shot_list))
                  end
              | _, _ => Error400 "X and Y columns required for target view"
              end
          end
      end
  end.

(** [_unique_values]: the distinct non-blank values of a column.  The set is
    kept in the order of first appearance (Python's iteration order of a
    set is not specified; it only matters between values whose sort keys
    are equal). *)
Fixpoint distinct (seen : list string) (l : list string) : list string :=
  match l with
  | [] => []
  | a :: t => if mem a seen then distinct seen t else a :: distinct (a :: seen) t
  end.

Definition unique_sort_key (x : string) : bool * string :=
  (negb (isdigit x), if isdigit x then zfill 10 x else x).

Definition _unique_values (rows : list (list string)) (col_idx : nat) : list string :=
  let vals :=
    flat_map (fun row =>
                match cell row col_idx with
                | Some c => if truthy (strip c) then [strip c] else []
                | None => []
                end) rows in
  py_sorted id_key_ltb unique_sort_key (distinct [] vals).

(** ** The statements the properties are checked against *)

(** A parsed value that is a number: not an infinity, not NaN. *)
Definition finite_value (v : option pyval) : Prop :=
  match v with
  | Some (VFloat f) => is_finite f = true
  | _ => True
  end.

(** The exact value of a number as a fraction. *)
Definition value_fraction (v : pyval) : Z * Z :=
  match v with
  | VInt z => (z, 1)
  | VFloat f =>
      match float_fraction f with
      | Some nd => nd
      | None => (0, 1)
      end
  end.

(** The value truncated toward zero. *)
Definition truncated (v : pyval) : Z :=
  Z.quot (fst (value_fraction v)) (snd (value_fraction v)).

(** The largest integer not above the value. *)
Definition floored (v : pyval) : Z :=
  fst (value_fraction v) / snd (value_fraction v).

Definition nonzero (v : pyval) : bool := negb (fst (value_fraction v) =? 0).

(** The pair (decimal score, integer score) as the specification words it. *)
Definition derived_scores (primary secondary : option pyval) (primary_is_decimal : bool)
  : option pyval * option Z :=
  if primary_is_decimal
  then
    (primary,
     match secondary with
     | Some s => if nonzero s then Some (truncated s) else option_map floored primary
     | None => option_map floored primary
     end)
  else (secondary, option_map truncated primary).

(** 5.5 and 2.25 as binary64 numbers. *)
Definition float_5_5 : float := S754_finite false 6192449487634432 (-50).
Definition float_2_25 : float := S754_finite false 5066549580791808 (-51).

(** 9.0 and 1.0 as binary64 numbers. *)
Definition float_9 : float := S754_finite false 5066549580791808 (-49).
Definition float_1 : float := S754_finite false 4503599627370496 (-52).

(** The rows left by the relay filter and the allow-list, before the
    excluded positions are taken out. *)
Definition filtered_rows (headers : list string) (rows : list (list string)) (data : request)
  : list (list string) :=
  filter_start_nrs headers (start_nrs data) (filter_relay headers (relay data) rows).

(** A request that filters nothing. *)
Definition no_filter : request :=
  {| relay := None; start_nrs := None; excluded_indices := []; req_start_nr := None |}.

(** The row has an identifier cell that is not blank. *)
Definition has_identifier (id_idx : nat) (row : list string) : bool :=
  match cell row id_idx with
  | Some c => truthy (strip c)
  | None => false
  end.

(** The rows whose trimmed identifier cell is [k]. *)
Definition rows_of (id_idx : nat) (k : string) (rows : list (list string))
  : list (list string) :=
  filter (row_matches id_idx k) rows.

(** [d[k]] of a dictionary with a default value. *)
Definition entry {V : Type} (dflt : V) (d : dict V) (k : string) : V :=
  match dict_get k d with
  | Some v => v
  | None => dflt
  end.

(** The sum of a counter over the entries of a dictionary. *)
Definition total {V : Type} (cnt : V -> nat) (d : dict V) : nat :=
  list_sum (map (fun kv => cnt (snd kv)) d).

(** The trimmed text of an optional cell, empty when the column or the
    cell is missing. *)
Definition trimmed_cell (row : list string) (i : option nat) : string :=
  match i with
  | Some t =>
      match cell row t with
      | Some c => strip c
      | None => ""
      end
  | None => ""
  end.

(** [a] is not below [b] in the order of the sort keys: a text is not below
    any number, two texts compare by code points, two numbers by value. *)
Definition time_key_geb (a b : time_key) : bool :=
  match a, b with
  | StrKey x, StrKey y => negb (str_ltb x y)
  | StrKey _, NumKey _ => true
  | NumKey _, StrKey _ => false
  | NumKey x, NumKey y => SFleb y x
  end.

(** A key that is not the number NaN. *)
Definition ordered_key (k : time_key) : Prop :=
  match k with
  | NumKey f => is_nan f = false
  | StrKey _ => True
  end.

(** A float that is not NaN as a triple of integers whose lexicographic
    order is the order of the floats. *)
Definition float_rank (f : float) : Z * Z * Z :=
  match f with
  | S754_infinity true => (-2, 0, 0)
  | S754_finite true m e => (-1, - e, Zneg m)
  | S754_zero _ => (0, 0, 0)
  | S754_nan => (0, 0, 0)
  | S754_finite false m e => (1, e, Zpos m)
  | S754_infinity false => (2, 0, 0)
  end.

Definition lex_lt (a b : Z * Z * Z) : Prop :=
  let '(a1, a2, a3) := a in
  let '(b1, b2, b3) := b in
  a1 < b1 \/ (a1 = b1 /\ (a2 < b2 \/ (a2 = b2 /\ a3 < b3))).

(** [a < b] on sort keys as a proposition. *)
Definition key_lt (a b : time_key) : Prop :=
  match a, b with
  | NumKey x, NumKey y => lex_lt (float_rank x) (float_rank y)
  | NumKey _, StrKey _ => True
  | StrKey _, NumKey _ => False
  | StrKey x, StrKey y => String_as_OT.lt x y
  end.

(** ** sius_csv.py: delimiter and header names *)

Definition DEFAULT_DELIMITER : string := ";".

Definition _guess_delimiter_from_first_line (first_line : string) : string :=
  if contains ";" first_line && negb (contains "," first_line) then ";"
  else if contains "," first_line then ","
  else DEFAULT_DELIMITER.

(** [[field_names[i] if i < len(field_names) else f"Column {i + 1}"
     for i in range(num_columns)]] *)
Definition headers_from_field_names (num_columns : nat) (field_names : list string)
  : list string :=
  map (fun i =>
         match nth_error field_names i with
         | Some name => name
         | None => "Column " ++ str_of_nat (S i)
         end)
      (seq 0 num_columns).

(** The character [c] occurs in [s]. *)
Fixpoint has_char (c : ascii) (s : string) : bool :=
  match s with
  | EmptyString => false
  | String d r => Ascii.eqb d c || has_char c r
  end.

(** The exact value of the float has a fractional part. *)
Definition has_fractional_part (f : float) : bool :=
  match float_fraction f with
  | Some (n, d) => negb (n mod d =? 0)
  | None => false
  end.

(** What one row adds to the entry of its identifier in
    [summarize_decimal_integer]. *)
Definition tally_update (primary_idx : nat) (secondary_idx : option nat)
    (primary_is_decimal : bool) (t : tally) (row : list string) : result tally :=
  primary_val <- parse_cell row (Some primary_idx) ;;
  secondary_val <- parse_cell row secondary_idx ;;
  scores <- _decimal_and_integer_scores primary_val secondary_val primary_is_decimal ;;
  t <- add_decimal (add_count t) (fst scores) ;;
  Ok (add_integer t (snd scores)).

(** What one row adds to the entry of its identifier in [summarize_by_id]. *)
Definition group_update (score_idxs : list (nat * string)) (g : group) (row : list string)
  : result group :=
  foldM (add_score row)
    {| g_count := S (g_count g); sums := sums g; values := values g |} score_idxs.

(** One turn of a loop that groups rows by identifier: a row without
    identifier is skipped, another one updates the entry of its identifier. *)
Definition group_step {V : Type} (dflt : V) (id_idx : nat)
    (upd : V -> list string -> result V) (d : dict V) (row : list string)
  : result (dict V) :=
  match row_id id_idx row with
  | None => Ok d
  | Some k => v <- upd (entry dflt d k) row ;; Ok (dict_set k v d)
  end.

(** The derived scores of one row. *)
Definition row_scores (primary_idx : nat) (secondary_idx : option nat)
    (primary_is_decimal : bool) (row : list string) : result (option pyval * option Z) :=
  primary_val <- parse_cell row (Some primary_idx) ;;
  secondary_val <- parse_cell row secondary_idx ;;
  _decimal_and_integer_scores primary_val secondary_val primary_is_decimal.

(** The values of a list that are not [None]. *)
Fixpoint defined {A : Type} (l : list (option A)) : list A :=
  match l with
  | [] => []
  | Some a :: t => a :: defined t
  | None :: t => defined t
  end.

(** The sum of a list of integers. *)
Definition int_sum (l : list Z) : Z := fold_right Z.add 0 l.

(** ** The order of sorted identifiers *)

(** [a] may stand before [b] in a list sorted on the key of the summaries
    ([digits_first = false]: the values that are not all digits first) or
    on the key of [_unique_values] ([digits_first = true]): across the two
    kinds the kind decides; two values that are all digits are compared
    after [zfill(10)], two others as they are, both by code points. *)
Definition in_key_order (digits_first : bool) (a b : string) : Prop :=
  match isdigit a, isdigit b with
  | true, false => digits_first = true
  | false, true => digits_first = false
  | true, true => ~ String_as_OT.lt (zfill 10 b) (zfill 10 a)
  | false, false => ~ String_as_OT.lt b a
  end.

(** ** app_web.py: the handler [shots] *)

(** The time column of [shots]: "Time" when it is a header, else the first
    header with "time" in its lower-case form, else "Time". *)
Definition time_column_of (headers : list string) : string :=
  if mem "Time" headers then "Time"
  else match find (fun h => contains "time" (lower h)) headers with
       | Some h => h
       | None => "Time"
       end.

(** The handler works on the rows left by the relay filter and the
    allow-list; it does not read [excluded_indices]. *)
Definition shots (headers : list string) (rows : list (list string)) (data : request)
  : response (list shot) :=
  match headers, rows with
  | [], _ | _, [] => Error400 "Upload a file first"
  | _ :: _, _ :: _ =>
      let suggested := suggest_columns headers in
      let start_nr_column := start_nr_column_of headers in
      match given_string (primary_score suggested) with
      | None => Error400 "No Primary score column in SIUSFields"
      | Some primary_column =>
          match given_string (req_start_nr data) with
          | None => Error400 "start_nr required"
          | Some start_nr_val =>
              let rows :=
                filter_start_nrs headers (start_nrs data)
                  (filter_relay headers (relay data) rows) in
              match get_shots_for_start_nr headers rows start_nr_column primary_column
                      (secondary_score suggested) (time_column_of headers) start_nr_val with
              | Raise e => Error400 (exn_str e)
              | Ok shot_list => Json shot_list
              end
          end
      end
  end.

(** ** app_web.py: the store of the tabs *)

(** [del d[k]] for a key of [d]. *)
Fixpoint dict_del {V : Type} (k : string) (d : dict V) : dict V :=
  match d with
  | [] => []
  | (k', v) :: t => if String.eqb k' k then t else (k', v) :: dict_del k t
  end.

(** One entry of [_tab_store]. *)
Record tab : Type := {
  tab_headers : list string;
  tab_rows : list (list string);
  last_used : float
}.

Definition _TAB_TTL_SECONDS : Z := 24 * 60 * 60.

(** [_get_tab_id]: the request header "X-Tab-ID", or "default" when it is
    missing or empty. *)
Definition _get_tab_id (x_tab_id : option string) : string :=
  match given_string x_tab_id with
  | Some t => t
  | None => "default"
  end.

(** [a - b] on floats. *)
Definition float_sub (a b : float) : float := SFsub prec emax a b.

(** [f > z] for a float and an int: an exact comparison. *)
Definition float_gt_int (f : float) (z : Z) : bool :=
  match f with
  | S754_infinity false => true
  | _ => match float_fraction f with
         | Some (n, d) => z * d <? n
         | None => false
         end
  end.

(** [now - s.get("last_used", 0) > _TAB_TTL_SECONDS]; every entry has the
    key "last_used". *)
Definition stale (now : float) (s : tab) : bool :=
  float_gt_int (float_sub now (last_used s)) _TAB_TTL_SECONDS.

(** [_get_tab_store] at the time [now], on the store it reads and leaves
    changed. *)
Definition _get_tab_store (x_tab_id : option string) (now : float) (_tab_store : dict tab)
  : result ((list string * list (list string)) * dict tab) :=
  let tab_id := _get_tab_id x_tab_id in
  let expired := map fst (filter (fun ts => stale now (snd ts)) _tab_store) in
  let _tab_store := fold_left (fun d tid => dict_del tid d) expired _tab_store in
  let _tab_store :=
    match dict_get tab_id _tab_store with
    | Some _ => _tab_store
    | None =>
        dict_set tab_id {| tab_headers := []; tab_rows := []; last_used := now |} _tab_store
    end in
  s <- dict_item tab_id _tab_store ;;
  let _tab_store :=
    dict_set tab_id
      {| tab_headers := tab_headers s; tab_rows := tab_rows s; last_used := now |}
      _tab_store in
  store <- dict_item tab_id _tab_store ;;
  Ok ((tab_headers store, tab_rows store), _tab_store).

(** [_set_tab_store] at the time [now]. *)
Definition _set_tab_store (x_tab_id : option string) (now : float)
    (headers : list string) (rows : list (list string)) (_tab_store : dict tab) : dict tab :=
  dict_set (_get_tab_id x_tab_id)
    {| tab_headers := headers; tab_rows := rows; last_used := now |} _tab_store.

(** A handler on the table of the current tab: it starts with
    [_current_headers, _current_rows = _get_tab_store()]. *)
Definition on_tab_store {A : Type}
    (handler : list string -> list (list string) -> A)
    (x_tab_id : option string) (now : float) (_tab_store : dict tab)
  : result (A * dict tab) :=
  got <- _get_tab_store x_tab_id now _tab_store ;;
  Ok (handler (fst (fst got)) (snd (fst got)), snd got).

(** What a lookup finds in a store once the stale entries are gone. *)
Definition fresh_entry (now : float) (_tab_store : dict tab) (tab_id : string) : option tab :=
  match dict_get tab_id _tab_store with
  | Some s => if stale now s then None else Some s
  | None => None
  end.

(** A number written with at most ten ASCII digits, and its value. *)
Definition short_number (s : string) : Prop :=
  truthy s = true /\ all_chars is_ascii_digit s = true /\ (String.length s <= 10)%nat.

Definition number_of (s : string) : Z := digits_value 0 s.

(** Two values that are short numbers stand in the order of their values. *)
Definition in_numeric_order (a b : string) : Prop :=
  short_number a -> short_number b -> number_of a <= number_of b.

(** The exception is an [OverflowError]. *)
Definition is_overflow (e : exn) : Prop :=
  match e with
  | OverflowError _ => True
  | _ => False
  end.

(** A result that is a value or an [OverflowError]. *)
Definition overflow_only {A : Type} (r : result A) : Prop :=
  match r with
  | Ok _ => True
  | Raise e => is_overflow e
  end.

(** Every score column has its sum and its list of values. *)
Definition group_ok (score_idxs : list (nat * string)) (g : group) : Prop :=
  forall h, In h (map snd score_idxs) ->
            dict_get h (sums g) <> None /\ dict_get h (values g) <> None.

(** ** The values a summary adds up *)

(** The parsed cell of a row at a position ([_parse_value] never raises). *)
Definition parsed (row : list string) (i : nat) : option pyval :=
  match parse_cell row (Some i) with
  | Ok v => v
  | Raise _ => None
  end.

(** The positions and names of the score columns of [summarize_by_id]. *)
Definition score_positions (headers score_columns : list string) : list (nat * string) :=
  filter (fun ih => mem (snd ih) score_columns) (enumerate headers).

(** The values of the score column named [h] in the rows, in the order the
    loop reads them: row by row, and within a row through the positions
    named [h].  The cells that do not parse are left out. *)
Definition column_values (score_idxs : list (nat * string)) (h : string)
    (rows : list (list string)) : list pyval :=
  flat_map (fun row =>
              defined (map (fun ih => parsed row (fst ih))
                         (filter (fun ih => String.eqb (snd ih) h) score_idxs)))
    rows.

(** What the record of a group holds under the keys [<col>_sum] and
    [<col>_mean]. *)
Definition sum_field (g : group) (c : string) : option float :=
  match dict_get c (sums g) with
  | Some s => Some (round4_float s)
  | None => None
  end.

Definition mean_field (g : group) (c : string) : option float :=
  match dict_get c (sums g), dict_get c (values g) with
  | Some s, Some vs =>
      match List.length vs with
      | O => None
      | S _ =>
          match float_div_count s (List.length vs) with
          | Ok q => Some (round4_float q)
          | Raise _ => None
          end
      end
  | _, _ => None
  end.

(** * Properties *)

(** ** Results *)

Lemma bind_ok {A B : Type} (r : result A) (k : A -> result B) (b : B) :
  bind r k = Ok b -> exists a, r = Ok a /\ k a = Ok b.
Proof.
  destruct r as [a | e]; simpl; [| discriminate].
  intros H. now exists a.
Qed.

(** ** Numbers *)

Lemma float_fraction_den_pos (f : float) (n d : Z) :
  float_fraction f = Some (n, d) -> 0 < d.
Proof.
  destruct f as [s | s | | s m e]; simpl; try discriminate.
  - intros H; injection H as <- <-. lia.
  - destruct (0 <=? e) eqn:He; intros H; injection H as <- <-.
    + lia.
    + apply Z.leb_gt in He. apply Z.pow_pos_nonneg; lia.
Qed.

Lemma value_fraction_den_pos (v : pyval) : 0 < snd (value_fraction v).
Proof.
  destruct v as [z | f]; simpl; [lia |].
  destruct (float_fraction f) as [[n d] |] eqn:E; simpl; [| lia].
  eapply float_fraction_den_pos; eassumption.
Qed.

(** [floored v] is the integer [k] with [k <= v < k + 1]. *)
Lemma floored_bounds (v : pyval) :
  let n := fst (value_fraction v) in
  let d := snd (value_fraction v) in
  floored v * d <= n < (floored v + 1) * d.
Proof.
  intros n d. unfold floored. fold n d.
  pose proof (value_fraction_den_pos v) as Hd. fold d in Hd.
  pose proof (Z.div_mod n d ltac:(lia)) as Hdm.
  pose proof (Z.mod_pos_bound n d Hd) as Hm.
  nia.
Qed.

(** [truncated v] is the integer of largest magnitude between zero and [v]. *)
Lemma truncated_bounds (v : pyval) :
  let n := fst (value_fraction v) in
  let d := snd (value_fraction v) in
  Z.abs (truncated v) * d <= Z.abs n < (Z.abs (truncated v) + 1) * d
  /\ 0 <= truncated v * n.
Proof.
  intros n d. unfold truncated. fold n d.
  pose proof (value_fraction_den_pos v) as Hd. fold d in Hd.
  pose proof (Z.quot_rem n d ltac:(lia)) as Hqr.
  destruct (Z_le_gt_dec 0 n) as [Hn | Hn].
  - pose proof (Z.rem_bound_pos n d Hn Hd) as Hr.
    pose proof (Z.quot_pos n d Hn Hd) as Hq.
    rewrite (Z.abs_eq (n ÷ d)), (Z.abs_eq n) by lia.
    split; [split |].
    + lia.
    + lia.
    + apply Z.mul_nonneg_nonneg; lia.
  - pose proof (Z.rem_bound_pos_neg n d Hd ltac:(lia)) as Hr.
    assert (Hq : n ÷ d <= 0).
    { rewrite <- (Z.opp_involutive n), Z.quot_opp_l by lia.
      pose proof (Z.quot_pos (- n) d ltac:(lia) Hd). lia. }
    rewrite (Z.abs_neq (n ÷ d)), (Z.abs_neq n) by lia.
    split; [split |].
    + lia.
    + lia.
    + apply Z.mul_nonpos_nonpos; lia.
Qed.

Lemma py_int_of_finite (v : pyval) :
  finite_value (Some v) -> py_int_of v = Ok (truncated v).
Proof.
  destruct v as [z | f]; simpl.
  - intros _. unfold truncated. simpl. now rewrite Z.quot_1_r.
  - destruct f as [s | s | | s m e]; simpl; try discriminate; intros _.
    + reflexivity.
    + unfold truncated. simpl. now destruct (0 <=? e).
Qed.

Lemma math_floor_finite (v : pyval) :
  finite_value (Some v) -> math_floor v = Ok (floored v).
Proof.
  destruct v as [z | f]; simpl.
  - intros _. unfold floored. simpl. now rewrite Z.div_1_r.
  - destruct f as [s | s | | s m e]; simpl; try discriminate; intros _.
    + reflexivity.
    + unfold floored. simpl. now destruct (0 <=? e).
Qed.

Lemma ne_zero_nonzero (v : pyval) :
  finite_value (Some v) -> ne_zero v = nonzero v.
Proof.
  destruct v as [z | f]; simpl; [reflexivity |].
  destruct f as [s | s | | s m e]; simpl; try discriminate; intros _.
  - reflexivity.
  - unfold nonzero, float_eq_int. simpl. now destruct (0 <=? e).
Qed.

(** ** C1: the score deriver *)

Lemma py_int_of_returns (v : pyval) (z : Z) :
  py_int_of v = Ok z -> finite_value (Some v).
Proof.
  destruct v as [i | f]; simpl; [trivial |].
  destruct f as [s | s | | s m e]; simpl; try discriminate; reflexivity.
Qed.

Lemma math_floor_returns (v : pyval) (z : Z) :
  math_floor v = Ok z -> finite_value (Some v).
Proof.
  destruct v as [i | f]; simpl; [trivial |].
  destruct f as [s | s | | s m e]; simpl; try discriminate; reflexivity.
Qed.

Lemma ne_zero_false_finite (v : pyval) :
  ne_zero v = false -> finite_value (Some v).
Proof.
  destruct v as [i | f]; simpl; [trivial |].
  destruct f as [s | s | | s m e]; simpl; try discriminate; reflexivity.
Qed.

(** C1. Whenever [_decimal_and_integer_scores] returns, for any parsed
    values, it returns the pair the specification describes: with a decimal
    primary column the decimal score is the primary value and the integer
    score is the secondary value truncated toward zero when it is defined
    and not zero, else the floor of the primary value, else undefined;
    otherwise the integer score is the primary value as an integer and the
    decimal score is the secondary value as it is.  It returns whenever the
    values are ints or finite floats. *)
Theorem decimal_and_integer_scores_derive
    (primary secondary : option pyval) (primary_is_decimal : bool) :
  (forall out,
     _decimal_and_integer_scores primary secondary primary_is_decimal = Ok out ->
     out = derived_scores primary secondary primary_is_decimal)
  /\ (finite_value primary ->
      finite_value secondary ->
      _decimal_and_integer_scores primary secondary primary_is_decimal
      = Ok (derived_scores primary secondary primary_is_decimal)).
Proof.
  assert (Hint : forall v r,
             int_or_none py_int_of (Some v) = Ok r ->
             finite_value (Some v) /\ r = Some (truncated v)).
  { intros v r H. unfold int_or_none in H.
    destruct (py_int_of v) as [z |] eqn:E; simpl in H; [| discriminate].
    injection H as <-. pose proof (py_int_of_returns v z E) as Hf.
    rewrite (py_int_of_finite v Hf) in E. injection E as <-. now split. }
  assert (Hfloor : forall p r,
             int_or_none math_floor p = Ok r -> r = option_map floored p).
  { intros [v |] r H; unfold int_or_none in H; [| now injection H as <-].
    destruct (math_floor v) as [z |] eqn:E; simpl in H; [| discriminate].
    injection H as <-. pose proof (math_floor_returns v z E) as Hf.
    rewrite (math_floor_finite v Hf) in E. now injection E as <-. }
  split.
  - intros out H. unfold _decimal_and_integer_scores in H. unfold derived_scores.
    destruct primary_is_decimal.
    + apply bind_ok in H as [r [Hr H]]. injection H as <-. f_equal.
      destruct secondary as [s |]; [| now apply Hfloor].
      destruct (ne_zero s) eqn:Hz.
      * destruct (Hint s r Hr) as [Hf ->].
        now rewrite <- (ne_zero_nonzero s Hf), Hz.
      * rewrite <- (ne_zero_nonzero s (ne_zero_false_finite s Hz)), Hz.
        now apply Hfloor.
    + apply bind_ok in H as [r [Hr H]]. injection H as <-. f_equal.
      destruct primary as [p |]; [| now injection Hr as <-].
      now destruct (Hint p r Hr) as [_ ->].
  - intros Hp Hs.
    unfold _decimal_and_integer_scores, derived_scores, int_or_none.
    destruct primary_is_decimal.
    + destruct secondary as [s |].
      * rewrite (ne_zero_nonzero s Hs).
        destruct (nonzero s).
        -- now rewrite (py_int_of_finite s Hs).
        -- destruct primary as [p |]; [| reflexivity].
           now rewrite (math_floor_finite p Hp).
      * destruct primary as [p |]; [| reflexivity].
        now rewrite (math_floor_finite p Hp).
    + destruct primary as [p |]; [| reflexivity].
      now rewrite (py_int_of_finite p Hp).
Qed.

(** The three examples of the specification: (true, 5.5, 0) gives (5.5, 5),
    (true, 5.5, 3) gives the integer 3, (false, 8, 2.25) gives (2.25, 8).
    A row with an infinite secondary value and an integer primary column,
    for which the function returns, gives the infinity and 8. *)
Lemma decimal_and_integer_scores_examples :
  _parse_value "5.5" = Ok (Some (VFloat float_5_5))
  /\ _parse_value "2.25" = Ok (Some (VFloat float_2_25))
  /\ _parse_value "1e999" = Ok (Some (VFloat (S754_infinity false)))
  /\ _decimal_and_integer_scores (Some (VFloat float_5_5)) (Some (VInt 0)) true
     = Ok (Some (VFloat float_5_5), Some 5)
  /\ _decimal_and_integer_scores (Some (VFloat float_5_5)) (Some (VInt 3)) true
     = Ok (Some (VFloat float_5_5), Some 3)
  /\ _decimal_and_integer_scores (Some (VInt 8)) (Some (VFloat float_2_25)) false
     = Ok (Some (VFloat float_2_25), Some 8)
  /\ (Some (VFloat (S754_infinity false)), Some 8)
     = derived_scores (Some (VInt 8)) (Some (VFloat (S754_infinity false))) false.
Proof.
  split; [vm_compute; reflexivity |].
  split; [vm_compute; reflexivity |].
  split; [vm_compute; reflexivity |].
  split; [| split; [| split]].
  - exact (proj2 (decimal_and_integer_scores_derive
                    (Some (VFloat float_5_5)) (Some (VInt 0)) true) eq_refl I).
  - exact (proj2 (decimal_and_integer_scores_derive
                    (Some (VFloat float_5_5)) (Some (VInt 3)) true) eq_refl I).
  - exact (proj2 (decimal_and_integer_scores_derive
                    (Some (VInt 8)) (Some (VFloat float_2_25)) false) I eq_refl).
  - exact (proj1 (decimal_and_integer_scores_derive
                    (Some (VInt 8)) (Some (VFloat (S754_infinity false))) false)
                 (Some (VFloat (S754_infinity false)), Some 8) eq_refl).
Defined.

(** ** Parsing never raises *)

Lemma py_float_raises (s : string) (e : exn) :
  py_float s = Raise e -> e = float_error.
Proof.
  unfold py_float.
  destruct (drop_underscores zero (strip s)) as [t |]; [| now intros [= <-]].
  destruct (take_sign t) as [neg body].
  destruct (String.eqb (lower body) "inf" || String.eqb (lower body) "infinity");
    [discriminate |].
  destruct (String.eqb (lower body) "nan"); [discriminate |].
  destruct (parse_decimal neg body); [discriminate | now intros [= <-]].
Qed.

Lemma py_int_raises (s : string) (e : exn) :
  py_int s = Raise e -> e = int_error.
Proof.
  unfold py_int.
  destruct (take_sign (strip s)) as [neg body].
  destruct body as [| c r]; [now intros [= <-] |].
  destruct (is_ascii_digit c); [| now intros [= <-]].
  destruct (int_digits false (digit_val c) r); [discriminate | now intros [= <-]].
Qed.

(** [_parse_value] returns for every cell: a number or [None]. *)
Lemma parse_value_total (value : string) :
  exists v, _parse_value value = Ok v.
Proof.
  unfold _parse_value.
  destruct (negb (truthy (strip value))); [now exists None |].
  destruct (contains "." (strip value) || contains "e" (lower (strip value))).
  - destruct (py_float (strip value)) as [f | e] eqn:E; simpl.
    + now exists (Some (VFloat f)).
    + rewrite (py_float_raises _ _ E). now exists None.
  - destruct (py_int (strip value)) as [z | e] eqn:E; simpl.
    + now exists (Some (VInt z)).
    + rewrite (py_int_raises _ _ E). now exists None.
Qed.

Lemma parse_cell_total (row : list string) (i : option nat) :
  exists v, parse_cell row i = Ok v.
Proof.
  unfold parse_cell.
  destruct i as [j |]; [| now exists None].
  destruct (cell row j) as [c |]; [apply parse_value_total | now exists None].
Qed.

Lemma is_numeric_total (value : string) :
  exists b, _is_numeric value = Ok b.
Proof.
  unfold _is_numeric.
  destruct (negb (truthy (strip value))); [now exists false |].
  destruct (py_float (strip value)) as [f | e] eqn:E; simpl.
  - now exists true.
  - rewrite (py_float_raises _ _ E). now exists false.
Qed.

Lemma time_sort_key_total (time_val : string) :
  exists k, _time_sort_key time_val = Ok k.
Proof.
  unfold _time_sort_key.
  destruct (py_float (strip time_val)) as [f | e] eqn:E; simpl.
  - now exists (NumKey f).
  - rewrite (py_float_raises _ _ E). now exists (StrKey (strip time_val)).
Qed.

(** ** C6: the dominance test and the deriver raise on an infinite value *)

(** C6. The cell "inf" makes [_column_has_decimals] raise OverflowError:
    [float("inf")] succeeds and [int] of it is not a ValueError, the only
    exception the function catches.  The cell "1e999" parses to the same
    infinity, on which [_decimal_and_integer_scores] raises as well; the
    cell "nan" is caught. *)
Theorem column_has_decimals_raises_on_inf :
  _column_has_decimals [["inf"]] 0 = Raise inf_to_int
  /\ _column_has_decimals [["nan"]] 0 = Ok false
  /\ _parse_value "1e999" = Ok (Some (VFloat (S754_infinity false)))
  /\ _decimal_and_integer_scores (Some (VFloat (S754_infinity false))) None true
     = Raise inf_to_int
  /\ _decimal_and_integer_scores (Some (VFloat (S754_infinity false))) None false
     = Raise inf_to_int.
Proof.
  split; [vm_compute; reflexivity |].
  split; [vm_compute; reflexivity |].
  split; [vm_compute; reflexivity |].
  split; reflexivity.
Qed.

(** ** C2: the order of the identifiers in both summaries *)

(** C2. For the identifiers "10", "2", "abc", "1" both summaries give the
    records in the order "abc", "1", "2", "10": the key starts with
    [isdigit], so the names that are not numbers come first.  The list of
    values [_unique_values] of the web handlers, whose key starts with
    [not isdigit], is "1", "2", "10", "abc". *)
Theorem summaries_put_names_before_numbers :
  let headers := ["Start NR"; "Primary score"] in
  let rows := [["10"; "9"]; ["2"; "8"]; ["abc"; "7"]; ["1"; "6"]] in
  (out <- summarize_decimal_integer headers rows "Start NR" "Primary score" None ;;
   Ok (map sr_id out)) = Ok ["abc"; "1"; "2"; "10"]
  /\ (out <- summarize_by_id headers rows "Start NR" ["Primary score"] ;;
      Ok (map gs_id out)) = Ok ["abc"; "1"; "2"; "10"]
  /\ _unique_values rows 0 = ["1"; "2"; "10"; "abc"].
Proof.
  split; [vm_compute; reflexivity |].
  split; vm_compute; reflexivity.
Qed.

(** ** C5: sums and means over no value *)

(** C5. For an identifier whose only score cell does not parse,
    [summarize_by_id] gives the sum 0.0 and the mean [None], while
    [summarize_decimal_integer] gives [None] for both sums and both
    means. *)
Theorem summarize_by_id_sum_of_nothing_is_zero :
  summarize_by_id ["id"; "score"] [["7"; "x"]] "id" ["score"]
  = Ok [ {| gs_id := "7"; gs_count := 1;
            fields := [("score_sum", Some (S754_zero false)); ("score_mean", None)] |} ]
  /\ summarize_decimal_integer ["id"; "score"] [["7"; "x"]] "id" "score" None
     = Ok [ {| sr_id := "7"; sr_count := 1;
               Decimal_score_sum := None; Decimal_score_mean := None;
               Integer_score_sum := None; Integer_score_mean := None |} ].
Proof.
  split; vm_compute; reflexivity.
Qed.

(** ** C7: columns that are not found *)

Lemma given_string_none_or_empty (x : option string) :
  given_string x = None -> x = None \/ x = Some "".
Proof.
  destruct x as [[| c r] |]; simpl; auto; discriminate.
Qed.

(** C7, as the code has it. When the identifier or the primary column is
    not among the headers, [summarize_decimal_integer] returns the empty
    list and raises nothing.  The handler [summary] answers with the error
    "No Primary score column in SIUSFields" when no primary score column is
    found, and takes the first header as the identifier column when no
    Start NR column is found. *)
Theorem unresolved_columns_give_no_records
    (headers : list string) (rows : list (list string))
    (id_column primary_column : string) (secondary_column : option string)
    (data : request) :
  (index_of id_column headers = None \/ index_of primary_column headers = None ->
   summarize_decimal_integer headers rows id_column primary_column secondary_column = Ok [])
  /\ (headers <> [] -> rows <> [] ->
      given_string (primary_score (suggest_columns headers)) = None ->
      summary headers rows data = Error400 "No Primary score column in SIUSFields")
  /\ (match_csv_header_to_field headers START_NR = None ->
      start_nr_column_of headers = hd "" headers).
Proof.
  split; [| split].
  - unfold summarize_decimal_integer.
    intros [H | H]; rewrite H; [reflexivity |].
    now destruct (index_of id_column headers).
  - intros Hh Hr Hp. unfold summary.
    destruct headers as [| h hs]; [contradiction |].
    destruct rows as [| r rs]; [contradiction |].
    now rewrite Hp.
  - intros Hm. unfold start_nr_column_of, suggest_columns. simpl.
    rewrite Hm. simpl.
    destruct headers as [| h hs]; [reflexivity |]. simpl.
    now destruct h.
Qed.

(** An identifier column that is not found is no error: the function
    returns the empty list, and the handler aggregates on the first
    column. *)
Lemma unresolved_identifier_is_no_error :
  let headers := ["Lane"; "Primary score"] in
  let rows := [["3"; "9"]] in
  let data := no_filter in
  index_of "Start NR" headers = None
  /\ summarize_decimal_integer headers rows "Start NR" "Primary score" None = Ok []
  /\ match_csv_header_to_field headers START_NR = None
  /\ summary headers rows data
     = Json ([ {| sr_id := "3"; sr_count := 1;
                  Decimal_score_sum := None; Decimal_score_mean := None;
                  Integer_score_sum := Some 9;
                  Integer_score_mean := Some (S754_finite false 5066549580791808 (-49)) |} ],
             Some summary_columns).
Proof.
  split; [reflexivity |].
  split; [reflexivity |].
  split; vm_compute; reflexivity.
Qed.

Lemma unresolved_columns_example :
  summarize_decimal_integer ["Lane"; "Primary score"] [["3"; "9"]]
    "Start NR" "Primary score" None = Ok []
  /\ summary ["Lane"; "Score"] [["3"; "9"]] no_filter
     = Error400 "No Primary score column in SIUSFields"
  /\ start_nr_column_of ["Lane"; "Primary score"] = "Lane".
Proof.
  pose proof (unresolved_columns_give_no_records
                ["Lane"; "Primary score"] [["3"; "9"]] "Start NR" "Primary score" None
                no_filter) as [H1 [_ H3]].
  pose proof (unresolved_columns_give_no_records
                ["Lane"; "Score"] [["3"; "9"]] "Start NR" "Primary score" None
                no_filter) as [_ [H2 _]].
  split; [| split].
  - apply H1. left. reflexivity.
  - apply H2; [discriminate | discriminate | vm_compute; reflexivity].
  - apply H3. vm_compute. reflexivity.
Defined.

(** ** Lists *)

Lemma enumerate_from_In {A : Type} (l : list A) (k i : nat) (a : A) :
  In (i, a) (enumerate_from k l) <-> (k <= i)%nat /\ nth_error l (i - k) = Some a.
Proof.
  revert k. induction l as [| b t IH]; intros k; simpl.
  - split; [contradiction |]. intros [_ H]. now destruct (i - k)%nat.
  - rewrite IH. split.
    + intros [H | [Hle Hn]].
      * injection H as <- <-. split; [lia |]. now rewrite Nat.sub_diag.
      * split; [lia |]. replace (i - k)%nat with (S (i - S k)) by lia. exact Hn.
    + intros [Hle Hn]. destruct (Nat.eq_dec i k) as [-> | Hne].
      * left. rewrite Nat.sub_diag in Hn. simpl in Hn. now injection Hn as ->.
      * right. split; [lia |].
        replace (i - k)%nat with (S (i - S k)) in Hn by lia. exact Hn.
Qed.

Lemma enumerate_In {A : Type} (l : list A) (i : nat) (a : A) :
  In (i, a) (enumerate l) <-> nth_error l i = Some a.
Proof.
  unfold enumerate. rewrite enumerate_from_In, Nat.sub_0_r.
  split; [now intros [_ H] | intros H; split; [lia | exact H]].
Qed.

Lemma existsb_eqb_In (i : nat) (l : list nat) :
  existsb (Nat.eqb i) l = true <-> In i l.
Proof.
  rewrite existsb_exists. split.
  - intros [j [Hj He]]. apply Nat.eqb_eq in He. now subst.
  - intros H. exists i. split; [exact H | apply Nat.eqb_refl].
Qed.

Lemma firstn_min_length {A : Type} (n : nat) (l : list A) :
  firstn (Nat.min n (List.length l)) l = firstn n l.
Proof.
  destruct (Nat.le_ge_cases n (List.length l)) as [H | H].
  - now rewrite Nat.min_l.
  - rewrite Nat.min_r by exact H. now rewrite firstn_all, firstn_all2.
Qed.

(** ** C9: the filters of the handlers *)

Lemma filter_excluded_In (excluded : list nat) (rows : list (list string)) (r : list string) :
  In r (filter_excluded excluded rows)
  <-> exists i, nth_error rows i = Some r /\ ~ In i excluded.
Proof.
  unfold filter_excluded. destruct excluded as [| e es].
  - split.
    + intros H. apply In_nth_error in H as [i Hi]. exists i. split; [exact Hi | intros []].
    + intros [i [Hi _]]. eapply nth_error_In; eassumption.
  - rewrite in_map_iff. split.
    + intros [[i r'] [Heq Hin]]. simpl in Heq. subst r'.
      apply filter_In in Hin as [Hin Hex]. cbn [fst] in Hex.
      exists i. split; [now apply enumerate_In |].
      intros Hi. apply existsb_eqb_In in Hi. rewrite Hi in Hex. discriminate.
    + intros [i [Hi Hex]]. exists (i, r). split; [reflexivity |].
      apply filter_In. split; [now apply enumerate_In |]. cbn [fst].
      destruct (existsb (Nat.eqb i) (e :: es)) eqn:E; [| reflexivity].
      apply existsb_eqb_In in E. contradiction.
Qed.

Lemma column_has_decimals_nil (col_idx : nat) : _column_has_decimals [] col_idx = Ok false.
Proof. reflexivity. Qed.

Lemma summarize_decimal_integer_nil
    (headers : list string) (id_column primary_column : string)
    (secondary_column : option string) :
  summarize_decimal_integer headers [] id_column primary_column secondary_column = Ok [].
Proof.
  unfold summarize_decimal_integer.
  destruct (index_of id_column headers); [| reflexivity].
  destruct (index_of primary_column headers); reflexivity.
Qed.

Lemma get_shots_for_start_nr_nil
    (headers : list string) (id_column primary_column : string)
    (secondary_column : option string) (time_column start_nr_val : string) :
  get_shots_for_start_nr headers [] id_column primary_column secondary_column
    time_column start_nr_val = Ok [].
Proof.
  unfold get_shots_for_start_nr.
  destruct (index_of id_column headers); [| reflexivity].
  destruct (index_of primary_column headers); reflexivity.
Qed.

(** C9, as the code has it. The excluded positions are taken out last, and
    they count within the rows the relay filter and the allow-list left.
    An allow-list that is [None] filters nothing, and so does any
    allow-list when no header is "Start NR".  When a header is "Start NR",
    an empty allow-list leaves no row, [summary] answers with no record and
    [target_data] with no shot. *)
Theorem selected_rows_filters
    (headers : list string) (rows : list (list string)) (data : request) :
  (forall r, In r (selected_rows headers rows data)
             <-> exists i, nth_error (filtered_rows headers rows data) i = Some r
                           /\ ~ In i (excluded_indices data))
  /\ (start_nrs data = None ->
      filtered_rows headers rows data = filter_relay headers (relay data) rows)
  /\ (index_of "Start NR" headers = None ->
      filtered_rows headers rows data = filter_relay headers (relay data) rows)
  /\ (index_of "Start NR" headers <> None -> start_nrs data = Some [] ->
      selected_rows headers rows data = []
      /\ (forall p, summary headers rows data = Json p -> p = ([], None))
      /\ (forall p, target_data headers rows data = Json p -> snd p = [])).
Proof.
  split; [| split; [| split]].
  - intros r. unfold selected_rows. apply filter_excluded_In.
  - intros H. unfold filtered_rows, filter_start_nrs. now rewrite H.
  - intros H. unfold filtered_rows, filter_start_nrs, _column_index. rewrite H.
    now destruct (start_nrs data).
  - intros Hidx Hempty.
    assert (Hsel : selected_rows headers rows data = []).
    { unfold selected_rows, filter_start_nrs, _column_index. rewrite Hempty.
      destruct (index_of "Start NR" headers); [| contradiction].
      unfold filter_excluded. now destruct (excluded_indices data). }
    split; [exact Hsel | split].
    + intros p. unfold summary.
      destruct headers as [| h hs]; [discriminate |].
      destruct rows as [| r rs]; [discriminate |].
      destruct (given_string (primary_score (suggest_columns (h :: hs)))); [| discriminate].
      rewrite Hsel, summarize_decimal_integer_nil. now intros [= <-].
    + intros p. unfold target_data.
      destruct headers as [| h hs]; [discriminate |].
      destruct rows as [| r rs]; [discriminate |].
      destruct (given_string (primary_score (suggest_columns (h :: hs)))); [| discriminate].
      destruct (given_string (req_start_nr data)); [| discriminate].
      destruct (_column_index (h :: hs) "X"); [| discriminate].
      destruct (_column_index (h :: hs) "Y"); [| discriminate].
      rewrite Hsel, get_shots_for_start_nr_nil. now intros [= <-].
Qed.

(** Without a header "Start NR", an empty allow-list leaves the rows in and
    [summary] answers with a record. *)
Lemma empty_allow_list_without_start_nr_column :
  let headers := ["Lane"; "Primary score"] in
  let rows := [["3"; "9"]] in
  let data := {| relay := None; start_nrs := Some []; excluded_indices := [];
                 req_start_nr := None |} in
  selected_rows headers rows data = rows
  /\ summary headers rows data
     = Json ([ {| sr_id := "3"; sr_count := 1;
                  Decimal_score_sum := None; Decimal_score_mean := None;
                  Integer_score_sum := Some 9;
                  Integer_score_mean := Some (S754_finite false 5066549580791808 (-49)) |} ],
             Some summary_columns).
Proof.
  split; vm_compute; reflexivity.
Qed.

Lemma selected_rows_example :
  let headers := ["Start NR"; "Primary score"] in
  let rows := [["3"; "9"]; ["4"; "8"]; ["3"; "7"]] in
  selected_rows headers rows
    {| relay := None; start_nrs := Some []; excluded_indices := [1%nat];
       req_start_nr := None |} = []
  /\ In ["3"; "7"]
       (selected_rows headers rows
          {| relay := None; start_nrs := Some ["3"]; excluded_indices := [0%nat];
             req_start_nr := None |}).
Proof.
  split.
  - apply (selected_rows_filters ["Start NR"; "Primary score"]
             [["3"; "9"]; ["4"; "8"]; ["3"; "7"]]
             {| relay := None; start_nrs := Some []; excluded_indices := [1%nat];
                req_start_nr := None |}); [discriminate | reflexivity].
  - apply (selected_rows_filters ["Start NR"; "Primary score"]
             [["3"; "9"]; ["4"; "8"]; ["3"; "7"]]
             {| relay := None; start_nrs := Some ["3"]; excluded_indices := [0%nat];
                req_start_nr := None |}).
    exists 1%nat. split; [reflexivity |]. simpl. intros [H | []]. discriminate.
Defined.

(** ** C10: a blank column in [infer_column_types] *)

Lemma all_numeric_blank (sample : list string) :
  (forall c, In c sample -> c = "") -> all_numeric sample = Ok true.
Proof.
  induction sample as [| c rest IH]; intros H; simpl; [reflexivity |].
  rewrite (H c (or_introl eq_refl)). simpl.
  apply IH. intros c' Hc'. apply H. now right.
Qed.

Lemma all_numeric_total (sample : list string) :
  exists b, all_numeric sample = Ok b.
Proof.
  induction sample as [| c rest [b IH]]; simpl; [now exists true |].
  destruct (truthy c); [| now exists b].
  destruct (is_numeric_total c) as [n Hn]. rewrite Hn. simpl.
  destruct n; [now exists b | now exists false].
Qed.

Lemma column_sample_blank (rows : list (list string)) (i : nat) :
  (forall row, In row (firstn 50 rows) -> cell row i = None \/ cell row i = Some "") ->
  forall c, In c (column_sample rows i) -> c = "".
Proof.
  intros H c Hc. unfold column_sample in Hc.
  rewrite firstn_min_length in Hc.
  apply in_map_iff in Hc as [row [Hrow Hin]].
  destruct (H row Hin) as [E | E]; rewrite E in Hrow; now subst.
Qed.

(** The loop over the headers returns, keeps what it has collected, and
    adds every column that passes none of the name tests and whose sample
    is numeric. *)
Lemma score_columns_collected
    (rows : list (list string)) (id_cols : list string)
    (l : list (nat * string)) (acc : list string) :
  exists out,
    foldM (score_step rows id_cols []) acc l = Ok out
    /\ (forall h, In h acc -> In h out)
    /\ (forall i h, In (i, h) l ->
                    mem h id_cols = false -> score_name h = false ->
                    all_numeric (column_sample rows i) = Ok true ->
                    In h out).
Proof.
  revert acc. induction l as [| [j g] t IH]; intros acc; simpl.
  - exists acc. split; [reflexivity |]. split; [auto | intros i h []].
  - assert (Hstep : exists acc',
               score_step rows id_cols [] acc (j, g) = Ok acc'
               /\ (forall h, In h acc -> In h acc')
               /\ (mem g id_cols = false -> score_name g = false ->
                   all_numeric (column_sample rows j) = Ok true -> In g acc')).
    { unfold score_step. simpl.
      destruct (mem g id_cols).
      - exists acc. split; [reflexivity |]. split; [auto | discriminate].
      - destruct (score_name g).
        + exists (acc ++ [g])%list. split; [reflexivity |].
          split; [intros h Hh; apply in_or_app; now left | discriminate].
        + destruct (all_numeric_total (column_sample rows j)) as [b Hb].
          rewrite Hb. simpl. destruct b.
          * exists (acc ++ [g])%list. split; [reflexivity |].
            split; [intros h Hh; apply in_or_app; now left |].
            intros _ _ _. apply in_or_app. right. now left.
          * exists acc. split; [reflexivity |]. split; [auto | discriminate]. }
    destruct Hstep as [acc' [Hs [Hkeep Hadd]]].
    rewrite Hs. simpl.
    destruct (IH acc') as [out [Ho [Hk Ha]]].
    exists out. split; [exact Ho |]. split.
    + intros h Hh. apply Hk, Hkeep, Hh.
    + intros i h [Heq | Hin] Hm Hn Hall.
      * injection Heq as -> ->. apply Hk. now apply Hadd.
      * now apply (Ha i h).
Qed.

(** C10. Without hints, a column that is not the identifier column, whose
    name passes none of the score name tests and whose cells are empty or
    missing in the first 50 rows is one of the score columns
    [infer_column_types] returns. *)
Theorem blank_column_is_a_score_column
    (headers : list string) (rows : list (list string)) (i : nat) (h : string) :
  rows <> [] ->
  nth_error headers i = Some h ->
  mem h (id_columns headers None) = false ->
  score_name h = false ->
  (forall row, In row (firstn 50 rows) -> cell row i = None \/ cell row i = Some "") ->
  exists score_cols,
    infer_column_types headers rows None None = Ok (id_columns headers None, score_cols)
    /\ In h score_cols.
Proof.
  intros Hrows Hnth Hid Hname Hblank.
  unfold infer_column_types.
  destruct headers as [| h0 hs]; [now destruct i |].
  destruct rows as [| r rs]; [contradiction |].
  destruct (score_columns_collected (r :: rs) (id_columns (h0 :: hs) None)
              (enumerate (h0 :: hs)) []) as [out [Ho [_ Hadd]]].
  cbn [map]. rewrite Ho. simpl bind.
  exists out. split; [reflexivity |].
  apply (Hadd i h).
  - now apply enumerate_In.
  - exact Hid.
  - exact Hname.
  - apply all_numeric_blank. now apply column_sample_blank.
Qed.

Lemma blank_column_example :
  exists score_cols,
    infer_column_types ["name"; "note"] [["a"; ""]; ["b"]] None None
    = Ok (["name"], score_cols)
    /\ In "note" score_cols.
Proof.
  apply (blank_column_is_a_score_column ["name"; "note"] [["a"; ""]; ["b"]] 1 "note").
  - discriminate.
  - reflexivity.
  - vm_compute. reflexivity.
  - vm_compute. reflexivity.
  - intros row [<- | [<- | []]]; [right | left]; reflexivity.
Defined.

(** ** Results, dictionaries and sorted lists *)


Lemma mapM_ok {A B : Type} (f : A -> result B) (l : list A) (out : list B) :
  mapM f l = Ok out -> Forall2 (fun a b => f a = Ok b) l out.
Proof.
  revert out. induction l as [| a t IH]; intros out; simpl.
  - intros [= <-]. constructor.
  - intros H. apply bind_ok in H as [b [Hb H]].
    apply bind_ok in H as [bs [Hbs H]]. injection H as <-.
    constructor; [exact Hb | now apply IH].
Qed.

Lemma Forall2_map_eq {A B C : Type} (R : A -> B -> Prop) (g : B -> C) (h : A -> C)
    (l : list A) (out : list B) :
  (forall a b, R a b -> g b = h a) ->
  Forall2 R l out -> map g out = map h l.
Proof.
  intros Hgh H. induction H as [| a b l out Hab _ IH]; simpl; [reflexivity |].
  now rewrite IH, (Hgh a b Hab).
Qed.

Lemma list_sum_permutation (l l' : list nat) :
  Permutation l l' -> list_sum l = list_sum l'.
Proof.
  induction 1 as [| a l l' _ IH | a b l | l l' l'' _ IH1 _ IH2]; simpl; lia.
Qed.

Section SortedLists.
Context {A K : Type}.
Variable ltb : K -> K -> bool.
Variable key : A -> K.

Lemma insert_sorted_permutation (a : A) (l : list A) :
  Permutation (insert_sorted ltb key a l) (a :: l).
Proof.
  induction l as [| b t IH]; simpl; [reflexivity |].
  destruct (ltb (key b) (key a)); [| reflexivity].
  rewrite IH. apply perm_swap.
Qed.

Lemma py_sorted_permutation (l : list A) :
  Permutation (py_sorted ltb key l) l.
Proof.
  induction l as [| a t IH]; simpl; [reflexivity |].
  rewrite insert_sorted_permutation. now constructor.
Qed.

Lemma py_sort_reverse_permutation (l : list A) :
  Permutation (py_sort_reverse ltb key l) l.
Proof.
  unfold py_sort_reverse.
  rewrite <- Permutation_rev, py_sorted_permutation.
  symmetry. apply Permutation_rev.
Qed.
End SortedLists.

Section Dictionaries.
Context {V : Type}.
Variable cnt : V -> nat.
Variable dflt : V.
Hypothesis cnt_dflt : cnt dflt = O.

Lemma dict_get_set_same (k : string) (v : V) (d : dict V) :
  dict_get k (dict_set k v d) = Some v.
Proof.
  induction d as [| [k' v'] t IH]; simpl.
  - now rewrite String.eqb_refl.
  - destruct (String.eqb k' k) eqn:E; simpl; rewrite E; [reflexivity | exact IH].
Qed.

Lemma dict_get_set_other (k k2 : string) (v : V) (d : dict V) :
  k2 <> k -> dict_get k2 (dict_set k v d) = dict_get k2 d.
Proof.
  intros Hne. induction d as [| [k' v'] t IH]; simpl.
  - destruct (String.eqb k k2) eqn:E; [| reflexivity].
    apply String.eqb_eq in E. now subst.
  - destruct (String.eqb k' k) eqn:E; simpl.
    + apply String.eqb_eq in E. subst k'.
      destruct (String.eqb k k2) eqn:E2; [| reflexivity].
      apply String.eqb_eq in E2. now subst.
    + now rewrite IH.
Qed.

Lemma dict_keys_set_In (k k2 : string) (v : V) (d : dict V) :
  In k2 (dict_keys (dict_set k v d)) <-> k2 = k \/ In k2 (dict_keys d).
Proof.
  induction d as [| [k' v'] t IH]; simpl.
  - intuition.
  - destruct (String.eqb k' k) eqn:E; simpl.
    + apply String.eqb_eq in E. subst k'. intuition.
    + rewrite IH. intuition.
Qed.

Lemma dict_keys_set_NoDup (k : string) (v : V) (d : dict V) :
  NoDup (dict_keys d) -> NoDup (dict_keys (dict_set k v d)).
Proof.
  induction d as [| [k' v'] t IH]; simpl; intros H.
  - constructor; [intros [] | constructor].
  - inversion H as [| ? ? Hnotin Hnd]; subst.
    destruct (String.eqb k' k) eqn:E; simpl.
    + now constructor.
    + constructor; [| now apply IH].
      intros Hin. apply dict_keys_set_In in Hin as [-> | Hin]; [| contradiction].
      now rewrite String.eqb_refl in E.
Qed.

Lemma total_dict_set (k : string) (v : V) (d : dict V) :
  (total cnt (dict_set k v d) + cnt (entry dflt d k) = total cnt d + cnt v)%nat.
Proof.
  unfold total, entry. induction d as [| [k' v'] t IH]; simpl.
  - rewrite cnt_dflt. lia.
  - destruct (String.eqb k' k) eqn:E; simpl; [lia |].
    destruct (dict_get k t); lia.
Qed.

Lemma total_over_keys (d : dict V) :
  NoDup (dict_keys d) ->
  list_sum (map (fun k => cnt (entry dflt d k)) (dict_keys d)) = total cnt d.
Proof.
  unfold total, entry, dict_keys.
  induction d as [| [k v] t IH]; simpl; intros H; [reflexivity |].
  inversion H as [| ? ? Hnotin Hnd]; subst.
  rewrite String.eqb_refl. f_equal.
  rewrite <- (IH Hnd). f_equal.
  apply map_ext_in. intros k2 Hk2.
  destruct (String.eqb k k2) eqn:E; [| reflexivity].
  apply String.eqb_eq in E. subst k2. contradiction.
Qed.
End Dictionaries.

(** ** Counting the rows that have an identifier *)

Lemma row_id_has_identifier (id_idx : nat) (row : list string) :
  has_identifier id_idx row
  = match row_id id_idx row with Some _ => true | None => false end.
Proof.
  unfold has_identifier, row_id.
  destruct (cell row id_idx) as [c |]; [| reflexivity].
  cbv zeta. now destruct (truthy (strip c)).
Qed.

Lemma row_id_nonempty (id_idx : nat) (row : list string) (k : string) :
  row_id id_idx row = Some k -> k <> "".
Proof.
  unfold row_id. destruct (cell row id_idx) as [c |]; [| discriminate].
  cbv zeta. destruct (truthy (strip c)) eqn:E; [| discriminate].
  intros [= <-] H. now rewrite H in E.
Qed.

Lemma row_id_matches (id_idx : nat) (row : list string) (k : string) :
  k <> "" ->
  row_matches id_idx k row
  = match row_id id_idx row with Some k' => String.eqb k' k | None => false end.
Proof.
  intros Hk. unfold row_matches, row_id.
  destruct (cell row id_idx) as [c |]; [| reflexivity].
  cbv zeta. destruct (strip c) as [| a s] eqn:E; [| reflexivity].
  simpl. destruct k; [contradiction | reflexivity].
Qed.

Section CountingLoop.
Context {V : Type}.
Variable cnt : V -> nat.
Variable dflt : V.
Hypothesis cnt_dflt : cnt dflt = O.
Variable id_idx : nat.
Variable step : dict V -> list string -> result (dict V).

(** A turn of the loop leaves the dictionary alone for a row without
    identifier, and otherwise stores an entry for the row's identifier whose
    counter is one more than before. *)
Hypothesis step_counts :
  forall d row d', step d row = Ok d' ->
    match row_id id_idx row with
    | None => d' = d
    | Some k => exists v, d' = dict_set k v d /\ cnt v = S (cnt (entry dflt d k))
    end.

Lemma counting_loop (rows : list (list string)) :
  forall d d',
    foldM step d rows = Ok d' ->
    NoDup (dict_keys d) ->
    (forall k, In k (dict_keys d) -> k <> "") ->
    NoDup (dict_keys d')
    /\ (forall k, In k (dict_keys d') -> k <> "")
    /\ total cnt d'
       = (total cnt d + List.length (filter (has_identifier id_idx) rows))%nat
    /\ (forall k, k <> "" ->
          cnt (entry dflt d' k)
          = (cnt (entry dflt d k) + List.length (rows_of id_idx k rows))%nat).
Proof.
  induction rows as [| row rest IH]; intros d d' Hfold Hnd Hne; simpl in Hfold.
  - injection Hfold as <-. simpl. repeat split; auto.
  - apply bind_ok in Hfold as [d1 [Hstep Hfold]].
    apply step_counts in Hstep.
    unfold rows_of in *. simpl filter.
    rewrite row_id_has_identifier.
    destruct (row_id id_idx row) as [k0 |] eqn:Hid.
    + destruct Hstep as [v [-> Hv]].
      destruct (IH _ _ Hfold) as [H1 [H2 [H3 H4]]].
      * now apply dict_keys_set_NoDup.
      * intros k Hk. apply dict_keys_set_In in Hk as [-> | Hk]; [| now apply Hne].
        eapply row_id_nonempty; eassumption.
      * split; [exact H1 |]. split; [exact H2 |]. split.
        -- rewrite H3. pose proof (total_dict_set cnt dflt cnt_dflt k0 v d) as Ht.
           simpl List.length. lia.
        -- intros k Hk. rewrite (H4 k Hk), (row_id_matches _ _ _ Hk), Hid.
           unfold entry at 1. destruct (String.eqb k0 k) eqn:E.
           ++ apply String.eqb_eq in E. subst k0.
              rewrite dict_get_set_same. simpl List.length. lia.
           ++ rewrite dict_get_set_other.
              ** fold (entry dflt d k). simpl List.length. lia.
              ** intros ->. now rewrite String.eqb_refl in E.
    + subst d1. destruct (IH _ _ Hfold Hnd Hne) as [H1 [H2 [H3 H4]]].
      split; [exact H1 |]. split; [exact H2 |]. split; [exact H3 |].
      intros k Hk. now rewrite (H4 k Hk), (row_id_matches _ _ _ Hk), Hid.
Qed.

(** The records made from the sorted keys of the dictionary. *)
Lemma counted_records {R : Type} (f : string -> V -> result R)
    (rid : R -> string) (rcnt : R -> nat)
    (ltb : bool * string -> bool * string -> bool) (key : string -> bool * string)
    (d : dict V) (out : list R) :
  (forall k v r, f k v = Ok r -> rid r = k /\ rcnt r = cnt v) ->
  NoDup (dict_keys d) ->
  mapM (fun k => f k (entry dflt d k)) (py_sorted ltb key (dict_keys d)) = Ok out ->
  Permutation (map rid out) (dict_keys d)
  /\ list_sum (map rcnt out) = total cnt d
  /\ (forall r, In r out -> rcnt r = cnt (entry dflt d (rid r))).
Proof.
  intros Hf Hnd Hmap. apply mapM_ok in Hmap.
  assert (Hids : map rid out = py_sorted ltb key (dict_keys d)).
  { rewrite <- (map_id (py_sorted ltb key (dict_keys d))).
    apply (Forall2_map_eq _ rid (fun k => k) _ _ (fun k r H => proj1 (Hf _ _ _ H)) Hmap). }
  assert (Hcnts : map rcnt out
                  = map (fun k => cnt (entry dflt d k)) (py_sorted ltb key (dict_keys d))).
  { apply (Forall2_map_eq _ rcnt (fun k => cnt (entry dflt d k)) _ _
             (fun k r H => proj2 (Hf _ _ _ H)) Hmap). }
  split; [rewrite Hids; apply py_sorted_permutation |]. split.
  - rewrite Hcnts, <- (total_over_keys cnt dflt d Hnd).
    apply list_sum_permutation, Permutation_map, py_sorted_permutation.
  - clear Hids Hcnts. induction Hmap as [| k r ks rs Hkr _ IH]; [intros r [] |].
    intros r' [<- | Hin]; [| now apply IH].
    destruct (Hf _ _ _ Hkr) as [-> ->]. reflexivity.
Qed.
End CountingLoop.

Lemma add_decimal_count (t t' : tally) (score : option pyval) :
  add_decimal t score = Ok t' -> count t' = count t.
Proof.
  unfold add_decimal. destruct score as [v |]; [| now intros [= <-]].
  intros H. apply bind_ok in H as [s [_ H]]. now injection H as <-.
Qed.

Lemma tally_row_counts (id_idx primary_idx : nat) (secondary_idx : option nat)
    (primary_is_decimal : bool) (d : dict tally) (row : list string) (d' : dict tally) :
  tally_row id_idx primary_idx secondary_idx primary_is_decimal d row = Ok d' ->
  match row_id id_idx row with
  | None => d' = d
  | Some k => exists v, d' = dict_set k v d /\ count v = S (count (entry new_tally d k))
  end.
Proof.
  unfold tally_row. destruct (row_id id_idx row) as [k |]; [| now intros [= <-]].
  intros H.
  apply bind_ok in H as [pv [_ H]]. apply bind_ok in H as [sv [_ H]].
  apply bind_ok in H as [scores [_ H]]. apply bind_ok in H as [t [Ht H]].
  injection H as <-. eexists. split; [reflexivity |].
  apply add_decimal_count in Ht.
  destruct (snd scores); simpl; rewrite Ht; reflexivity.
Qed.

Lemma summary_of_fields (id_val : string) (t : tally) (r : summary_row) :
  summary_of id_val t = Ok r -> sr_id r = id_val /\ sr_count r = count t.
Proof.
  unfold summary_of. intros H.
  apply bind_ok in H as [dm [_ H]]. apply bind_ok in H as [im [_ H]].
  injection H as <-. split; reflexivity.
Qed.

Lemma add_score_count (row : list string) (g g' : group) (ih : nat * string) :
  add_score row g ih = Ok g' -> g_count g' = g_count g.
Proof.
  unfold add_score. intros H. apply bind_ok in H as [v [_ H]].
  destruct v as [x |]; [| now injection H as <-].
  apply bind_ok in H as [s [_ H]]. apply bind_ok in H as [s' [_ H]].
  apply bind_ok in H as [vs [_ H]]. now injection H as <-.
Qed.

Lemma add_scores_count (row : list string) (l : list (nat * string)) :
  forall g g', foldM (add_score row) g l = Ok g' -> g_count g' = g_count g.
Proof.
  induction l as [| ih t IH]; intros g g' H; simpl in H.
  - now injection H as <-.
  - apply bind_ok in H as [g1 [H1 H]].
    rewrite (IH _ _ H). eapply add_score_count; eassumption.
Qed.

Lemma group_row_counts (id_idx : nat) (score_idxs : list (nat * string))
    (d : dict group) (row : list string) (d' : dict group) :
  group_row id_idx score_idxs d row = Ok d' ->
  match row_id id_idx row with
  | None => d' = d
  | Some k =>
      exists v, d' = dict_set k v d
                /\ g_count v = S (g_count (entry (new_group score_idxs) d k))
  end.
Proof.
  unfold group_row. destruct (row_id id_idx row) as [k |]; [| now intros [= <-]].
  intros H. apply bind_ok in H as [g [Hg H]]. injection H as <-.
  eexists. split; [reflexivity |].
  apply add_scores_count in Hg. exact Hg.
Qed.

Lemma group_summary_of_fields (score_columns : list string) (id_val : string)
    (g : group) (r : group_summary) :
  group_summary_of score_columns id_val g = Ok r ->
  gs_id r = id_val /\ gs_count r = g_count g.
Proof.
  unfold group_summary_of. intros H.
  apply bind_ok in H as [out [_ H]]. injection H as <-. split; reflexivity.
Qed.

Lemma mem_In (x : string) (xs : list string) : mem x xs = true <-> In x xs.
Proof.
  unfold mem. rewrite existsb_exists. split.
  - intros [y [Hy E]]. apply String.eqb_eq in E. now subst.
  - intros H. exists x. split; [exact H | apply String.eqb_refl].
Qed.

(** ** C8: what a shot carries *)

Lemma shot_of_row_fields (primary_idx : nat) (secondary_idx time_idx : option nat)
    (primary_is_decimal : bool) (idx : nat) (row : list string) (s : shot) :
  shot_of_row primary_idx secondary_idx time_idx primary_is_decimal idx row = Ok s ->
  exists pv sv scores,
    parse_cell row (Some primary_idx) = Ok pv
    /\ parse_cell row secondary_idx = Ok sv
    /\ _decimal_and_integer_scores pv sv primary_is_decimal = Ok scores
    /\ s = {| Index := idx;
              Time := trimmed_cell row time_idx;
              Primary_score := str_or_empty pv;
              Secondary_score := str_or_empty sv;
              Decimal_score := option_map round4 (fst scores);
              Integer_score := snd scores |}.
Proof.
  unfold shot_of_row. intros H.
  apply bind_ok in H as [pv [Hpv H]]. apply bind_ok in H as [sv [Hsv H]].
  apply bind_ok in H as [scores [Hsc H]]. injection H as <-.
  exists pv, sv, scores. repeat (split; [assumption |]). reflexivity.
Qed.

(** The loop gives one shot for each matching row, in the order of the
    rows, with the row's position as [Index]. *)
Lemma collect_shots_rows (id_idx primary_idx : nat) (secondary_idx time_idx : option nat)
    (primary_is_decimal : bool) (start_nr_val : string) (rows : list (list string)) :
  forall (k : nat) (shots : list shot),
    collect_shots id_idx primary_idx secondary_idx time_idx primary_is_decimal
      start_nr_val (enumerate_from k rows) = Ok shots ->
    (forall s, In s shots ->
       exists row,
         (k <= Index s)%nat
         /\ nth_error rows (Index s - k) = Some row
         /\ row_matches id_idx start_nr_val row = true
         /\ shot_of_row primary_idx secondary_idx time_idx primary_is_decimal
              (Index s) row = Ok s)
    /\ (forall i row,
          nth_error rows i = Some row ->
          row_matches id_idx start_nr_val row = true ->
          exists s, In s shots /\ Index s = (k + i)%nat).
Proof.
  induction rows as [| r rest IH]; intros k shots H; simpl in H.
  - injection H as <-. split; [intros s [] |]. intros i row Hi. now destruct i.
  - destruct (row_matches id_idx start_nr_val r) eqn:Hm.
    + apply bind_ok in H as [s0 [Hs0 H]]. apply bind_ok in H as [ss [Hss H]].
      injection H as <-. destruct (IH _ _ Hss) as [IH1 IH2].
      assert (Hidx : Index s0 = k).
      { apply shot_of_row_fields in Hs0 as [pv [sv [sc [_ [_ [_ ->]]]]]]. reflexivity. }
      split.
      * intros s [<- | Hin].
        -- exists r. rewrite Hidx, Nat.sub_diag. repeat split; auto.
        -- destruct (IH1 s Hin) as [row [Hle [Hn [Hrm Hsr]]]].
           exists row. split; [lia |]. split; [| now split].
           replace (Index s - k)%nat with (S (Index s - S k)) by lia. exact Hn.
      * intros i row Hi Hrm. destruct i as [| i]; simpl in Hi.
        -- exists s0. split; [now left | lia].
        -- destruct (IH2 i row Hi Hrm) as [s [Hin Hs]].
           exists s. split; [now right | lia].
    + destruct (IH _ _ H) as [IH1 IH2]. split.
      * intros s Hin. destruct (IH1 s Hin) as [row [Hle [Hn [Hrm Hsr]]]].
        exists row. split; [lia |]. split; [| now split].
        replace (Index s - k)%nat with (S (Index s - S k)) by lia. exact Hn.
      * intros i row Hi Hrm. destruct i as [| i]; simpl in Hi.
        -- injection Hi as ->. rewrite Hrm in Hm. discriminate.
        -- destruct (IH2 i row Hi Hrm) as [s [Hin Hs]].
           exists s. split; [exact Hin | lia].
Qed.

Lemma keyed_shots (shots : list shot) (keyed : list (time_key * shot)) :
  mapM (fun s => k <- _time_sort_key (Time s) ;; Ok (k, s)) shots = Ok keyed ->
  map snd keyed = shots
  /\ Forall (fun ks => _time_sort_key (Time (snd ks)) = Ok (fst ks)) keyed.
Proof.
  intros H. apply mapM_ok in H.
  induction H as [| s ks shots keyed Hs _ [IH1 IH2]]; [split; constructor |].
  apply bind_ok in Hs as [k [Hk Hs]]. injection Hs as <-.
  split; [simpl; now rewrite IH1 | constructor; [exact Hk | exact IH2]].
Qed.

(** Sorting keeps the shots: the result is a rearrangement. *)
Lemma sort_shots_permutation (shots out : list shot) :
  sort_shots shots = Ok out -> Permutation out shots.
Proof.
  unfold sort_shots. intros H. apply bind_ok in H as [keyed [Hk H]].
  injection H as <-. apply keyed_shots in Hk as [<- _].
  apply Permutation_map, py_sort_reverse_permutation.
Qed.

(** C8, as the code has it. Every shot [get_shots_for_start_nr] returns
    belongs to a matching row: [Index] is the position of that row in the
    rows passed in, [Time] is its time cell trimmed (empty without a time
    column or cell), [Primary_score] and [Secondary_score] are the texts of
    the parsed primary and secondary values (empty when a cell does not
    parse), and [Decimal_score] and [Integer_score] are the derived
    scores, the decimal one rounded to four digits.  Every matching row has
    its shot. *)
Theorem shots_carry_position_and_parsed_values
    (headers : list string) (rows : list (list string))
    (id_column primary_column : string) (secondary_column : option string)
    (time_column start_nr_val : string) (id_idx primary_idx : nat) (shots : list shot) :
  index_of id_column headers = Some id_idx ->
  index_of primary_column headers = Some primary_idx ->
  get_shots_for_start_nr headers rows id_column primary_column secondary_column
    time_column start_nr_val = Ok shots ->
  (forall s, In s shots ->
     exists row pv sv dec scores,
       nth_error rows (Index s) = Some row
       /\ row_matches id_idx (strip start_nr_val) row = true
       /\ Time s = trimmed_cell row (index_of time_column headers)
       /\ parse_cell row (Some primary_idx) = Ok pv
       /\ Primary_score s = str_or_empty pv
       /\ parse_cell row (optional_index secondary_column headers) = Ok sv
       /\ Secondary_score s = str_or_empty sv
       /\ _column_has_decimals rows primary_idx = Ok dec
       /\ _decimal_and_integer_scores pv sv dec = Ok scores
       /\ Decimal_score s = option_map round4 (fst scores)
       /\ Integer_score s = snd scores)
  /\ (forall i row,
        nth_error rows i = Some row ->
        row_matches id_idx (strip start_nr_val) row = true ->
        exists s, In s shots /\ Index s = i).
Proof.
  intros Hid Hp H. unfold get_shots_for_start_nr in H. rewrite Hid, Hp in H.
  apply bind_ok in H as [dec [Hdec H]]. apply bind_ok in H as [collected [Hc Hsort]].
  apply sort_shots_permutation in Hsort.
  apply collect_shots_rows in Hc as [H1 H2]. split.
  - intros s Hs. apply (Permutation_in _ Hsort) in Hs.
    destruct (H1 s Hs) as [row [_ [Hn [Hm Hrow]]]]. rewrite Nat.sub_0_r in Hn.
    apply shot_of_row_fields in Hrow as [pv [sv [scores [Hpv [Hsv [Hsc Hs']]]]]].
    exists row, pv, sv, dec, scores.
    pose proof (f_equal Time Hs') as HT. pose proof (f_equal Primary_score Hs') as HP.
    pose proof (f_equal Secondary_score Hs') as HS.
    pose proof (f_equal Decimal_score Hs') as HD.
    pose proof (f_equal Integer_score Hs') as HI.
    simpl in HT, HP, HS, HD, HI.
    repeat (split; [assumption |]). assumption.
  - intros i row Hi Hm. destruct (H2 i row Hi Hm) as [s [Hin Hs]].
    exists s. split; [| exact Hs].
    eapply Permutation_in; [symmetry; exact Hsort | exact Hin].
Qed.

(** The cells "007", "abc" and " 12 " give the texts "7", "" and "12". *)
Lemma shot_texts_are_not_the_raw_cells :
  get_shots_for_start_nr ["Start NR"; "Primary score"; "Secondary score"; "Time"]
    [["7"; "007"; "abc"; " 12 "]]
    "Start NR" "Primary score" (Some "Secondary score") "Time" "7"
  = Ok [ {| Index := 0; Time := "12"; Primary_score := "7"; Secondary_score := "";
            Decimal_score := None; Integer_score := Some 7 |} ]
  /\ "7" <> "007" /\ "" <> "abc" /\ "12" <> " 12 ".
Proof.
  split; [vm_compute; reflexivity |].
  split; [discriminate | split; discriminate].
Qed.

(** The row [" 7"; "5.5"; " 12 "] at position 1 matches the Start NR "7 "
    and has its shot. *)
Lemma shots_example :
  let headers := ["Start NR"; "Primary score"; "Time"] in
  let rows := [["8"; "1"; "3"]; [" 7"; "5.5"; " 12 "]] in
  let shots :=
    [ {| Index := 1; Time := "12"; Primary_score := "5.5"; Secondary_score := "";
         Decimal_score := Some (VFloat float_5_5); Integer_score := Some 5 |} ] in
  get_shots_for_start_nr headers rows "Start NR" "Primary score" None "Time" "7 "
  = Ok shots
  /\ exists s, In s shots /\ Index s = 1%nat.
Proof.
  cbv zeta. split; [vm_compute; reflexivity |].
  destruct (shots_carry_position_and_parsed_values
              ["Start NR"; "Primary score"; "Time"]
              [["8"; "1"; "3"]; [" 7"; "5.5"; " 12 "]]
              "Start NR" "Primary score" None "Time" "7 " 0 1
              [ {| Index := 1; Time := "12"; Primary_score := "5.5"; Secondary_score := "";
                   Decimal_score := Some (VFloat float_5_5); Integer_score := Some 5 |} ]
              eq_refl eq_refl ltac:(vm_compute; reflexivity)) as [_ H].
  apply (H 1%nat [" 7"; "5.5"; " 12 "]); [reflexivity | vm_compute; reflexivity].
Defined.

(** ** The order of the sort keys *)

Lemma SFltb_rank (x y : float) :
  is_nan x = false -> is_nan y = false ->
  (SFltb x y = true <-> lex_lt (float_rank x) (float_rank y)).
Proof.
  unfold SFltb, SFcompare, lex_lt.
  destruct x as [sx | sx | | sx mx ex], y as [sy | sy | | sy my ey];
    try discriminate; intros _ _;
    try destruct sx; try destruct sy; simpl;
    try (split; [discriminate | lia]);
    try (split; [intros _; lia | reflexivity]).
  - destruct (Z.compare_spec ex ey) as [-> | Hlt | Hgt].
    + change (Pos.compare_cont Eq mx my) with (Pos.compare mx my).
      destruct (Pos.compare_spec mx my) as [-> | Hm | Hm]; simpl;
        (split; [try discriminate; intros _ | try reflexivity]); lia.
    + split; [discriminate | lia].
    + split; [intros _; lia | reflexivity].
  - destruct (Z.compare_spec ex ey) as [-> | Hlt | Hgt].
    + change (Pos.compare_cont Eq mx my) with (Pos.compare mx my).
      destruct (Pos.compare_spec mx my) as [-> | Hm | Hm]; simpl;
        (split; [try discriminate; intros _ | try reflexivity]); lia.
    + split; [intros _; lia | reflexivity].
    + split; [discriminate | lia].
Qed.

Lemma SFcompare_antisym (x y : float) :
  SFcompare y x = option_map CompOpp (SFcompare x y).
Proof.
  unfold SFcompare.
  destruct x as [sx | sx | | sx mx ex], y as [sy | sy | | sy my ey];
    try reflexivity;
    try destruct sx; try destruct sy; try reflexivity; simpl;
    rewrite (Z.compare_antisym ex ey); destruct (ex ?= ey); simpl; try reflexivity;
    change (Pos.compare_cont Eq my mx) with (Pos.compare my mx);
    change (Pos.compare_cont Eq mx my) with (Pos.compare mx my);
    rewrite (Pos.compare_antisym mx my); reflexivity.
Qed.

Lemma SFleb_not_ltb (x y : float) :
  is_nan x = false -> is_nan y = false -> SFltb x y = false -> SFleb y x = true.
Proof.
  intros Hx Hy. unfold SFltb, SFleb. rewrite (SFcompare_antisym x y).
  destruct (SFcompare x y) as [[| |] |] eqn:E; simpl; try reflexivity; try discriminate.
  intros _. destruct x, y; try discriminate; simpl in E;
    repeat match type of E with context [if ?b then _ else _] => destruct b end;
    discriminate.
Qed.

Lemma num_key_ltb (x y : float) :
  time_key_ltb (NumKey x) (NumKey y) = SFltb x y.
Proof.
  simpl. unfold float_eqb, float_ltb, SFeqb, SFltb.
  now destruct (SFcompare x y) as [[| |] |].
Qed.

Lemma str_ltb_lt (a b : string) :
  str_ltb a b = true <-> String_as_OT.lt a b.
Proof.
  unfold str_ltb, String.ltb. rewrite <- String_as_OT.cmp_lt.
  unfold String_as_OT.cmp. destruct (String.compare a b); split; congruence.
Qed.

Lemma time_key_ltb_lt (a b : time_key) :
  ordered_key a -> ordered_key b -> (time_key_ltb a b = true <-> key_lt a b).
Proof.
  destruct a as [x | x], b as [y | y]; intros Ha Hb.
  - rewrite num_key_ltb. now apply SFltb_rank.
  - simpl. tauto.
  - simpl. split; [discriminate | contradiction].
  - apply str_ltb_lt.
Qed.

Lemma str_lt_irrefl (a : string) : ~ String_as_OT.lt a a.
Proof. intros H. now apply (String_as_OT.lt_not_eq a a H). Qed.

Lemma key_lt_asym (a b : time_key) : key_lt a b -> ~ key_lt b a.
Proof.
  destruct a as [x | x], b as [y | y]; simpl; try tauto.
  - destruct (float_rank x) as [[x1 x2] x3], (float_rank y) as [[y1 y2] y3].
    unfold lex_lt. lia.
  - intros H1 H2. apply (str_lt_irrefl x). eapply String_as_OT.lt_trans; eassumption.
Qed.

Lemma key_lt_negtrans (a b c : time_key) :
  ~ key_lt a b -> ~ key_lt b c -> ~ key_lt a c.
Proof.
  destruct a as [x | x], b as [y | y], c as [z | z]; simpl; try tauto.
  - destruct (float_rank x) as [[x1 x2] x3], (float_rank y) as [[y1 y2] y3],
      (float_rank z) as [[z1 z2] z3].
    unfold lex_lt. lia.
  - intros Hxy Hyz Hxz.
    destruct (String_as_OT.compare x y) as [Hlt | Heq | Hgt]; [contradiction | |].
    + unfold String_as_OT.eq in Heq. subst y. contradiction.
    + destruct (String_as_OT.compare y z) as [Hlt' | Heq' | Hgt']; [contradiction | |].
      * unfold String_as_OT.eq in Heq'. subst z.
        apply (str_lt_irrefl x). eapply String_as_OT.lt_trans; eassumption.
      * apply (str_lt_irrefl x).
        eapply String_as_OT.lt_trans; [exact Hxz |].
        eapply String_as_OT.lt_trans; eassumption.
Qed.

Lemma bool_not_true (b : bool) : b <> true <-> b = false.
Proof. destruct b; split; congruence. Qed.

Lemma time_key_ltb_asym (a b : time_key) :
  ordered_key a -> ordered_key b -> time_key_ltb a b = true -> time_key_ltb b a = false.
Proof.
  intros Ha Hb H. apply bool_not_true. intros H'.
  apply (time_key_ltb_lt a b Ha Hb) in H. apply (time_key_ltb_lt b a Hb Ha) in H'.
  exact (key_lt_asym a b H H').
Qed.

Lemma time_key_ltb_negtrans (a b c : time_key) :
  ordered_key a -> ordered_key b -> ordered_key c ->
  time_key_ltb a b = false -> time_key_ltb b c = false -> time_key_ltb a c = false.
Proof.
  intros Ha Hb Hc H1 H2. apply bool_not_true. intros H3.
  apply (time_key_ltb_lt a c Ha Hc) in H3.
  apply (key_lt_negtrans a b c); [| | exact H3].
  - intros H. apply (time_key_ltb_lt a b Ha Hb) in H. congruence.
  - intros H. apply (time_key_ltb_lt b c Hb Hc) in H. congruence.
Qed.

(** A key that is not before another one is not below it. *)
Lemma time_key_not_ltb_geb (a b : time_key) :
  ordered_key a -> ordered_key b -> time_key_ltb a b = false -> time_key_geb a b = true.
Proof.
  destruct a as [x | x], b as [y | y]; intros Ha Hb.
  - rewrite num_key_ltb. now apply SFleb_not_ltb.
  - discriminate.
  - reflexivity.
  - simpl. now intros ->.
Qed.

(** ** Sorting puts a list in order *)

Lemma StronglySorted_app {A : Type} (R : A -> A -> Prop) (l1 l2 : list A) :
  StronglySorted R l1 -> StronglySorted R l2 ->
  (forall a b, In a l1 -> In b l2 -> R a b) ->
  StronglySorted R (l1 ++ l2)%list.
Proof.
  intros H1 H2 H. induction H1 as [| a l1 Hs IH Hf]; simpl; [exact H2 |].
  constructor.
  - apply IH. intros x y Hx Hy. apply H; [now right | exact Hy].
  - apply Forall_app. split; [exact Hf |].
    apply Forall_forall. intros y Hy. apply H; [now left | exact Hy].
Qed.

Lemma StronglySorted_rev {A : Type} (R : A -> A -> Prop) (l : list A) :
  StronglySorted R l -> StronglySorted (fun a b => R b a) (rev l).
Proof.
  induction 1 as [| a l Hs IH Hf]; simpl; [constructor |].
  apply StronglySorted_app; [exact IH | repeat constructor |].
  intros x y Hx [<- | []]. apply in_rev in Hx.
  rewrite Forall_forall in Hf. now apply Hf.
Qed.

Lemma StronglySorted_map {A B : Type} (R : B -> B -> Prop) (f : A -> B) (l : list A) :
  StronglySorted (fun a b => R (f a) (f b)) l -> StronglySorted R (map f l).
Proof.
  induction 1 as [| a l Hs IH Hf]; simpl; constructor; [exact IH |].
  apply Forall_map. exact Hf.
Qed.

Lemma StronglySorted_weaken {A : Type} (R R' : A -> A -> Prop) (P : A -> Prop) (l : list A) :
  (forall a b, P a -> P b -> R a b -> R' a b) ->
  Forall P l -> StronglySorted R l -> StronglySorted R' l.
Proof.
  intros Hw HP H. induction H as [| a l Hs IH Hf]; constructor.
  - apply IH. now inversion HP.
  - inversion HP as [| ? ? Pa Pl]; subst.
    rewrite Forall_forall in *. intros b Hb. apply Hw; auto.
Qed.

Section SortedOrder.
Context {A K : Type}.
Variable ltb : K -> K -> bool.
Variable key : A -> K.
Variable good : K -> Prop.
Hypothesis ltb_asym :
  forall a b, good a -> good b -> ltb a b = true -> ltb b a = false.
Hypothesis ltb_negtrans :
  forall a b c, good a -> good b -> good c ->
                ltb a b = false -> ltb b c = false -> ltb a c = false.

Lemma insert_sorted_sorted (x : A) (l : list A) :
  good (key x) -> Forall (fun a => good (key a)) l ->
  StronglySorted (fun a b => ltb (key b) (key a) = false) l ->
  StronglySorted (fun a b => ltb (key b) (key a) = false) (insert_sorted ltb key x l).
Proof.
  intros Hx Hl Hs. induction Hs as [| y t Hs IH Hf]; simpl.
  - repeat constructor.
  - inversion Hl as [| ? ? Hy Ht]; subst.
    destruct (ltb (key y) (key x)) eqn:E.
    + constructor; [now apply IH |].
      eapply Permutation_Forall; [symmetry; apply insert_sorted_permutation |].
      constructor; [now apply ltb_asym | exact Hf].
    + constructor; [now constructor |].
      constructor; [exact E |].
      rewrite Forall_forall in *. intros z Hz.
      apply (ltb_negtrans (key z) (key y) (key x)); auto.
Qed.

Lemma py_sorted_sorted (l : list A) :
  Forall (fun a => good (key a)) l ->
  StronglySorted (fun a b => ltb (key b) (key a) = false) (py_sorted ltb key l).
Proof.
  induction l as [| a t IH]; intros H; simpl; [constructor |].
  inversion H as [| ? ? Ha Ht]; subst.
  apply insert_sorted_sorted; [exact Ha | | now apply IH].
  eapply Permutation_Forall; [symmetry; apply py_sorted_permutation | exact Ht].
Qed.

(** After [sort(reverse=True)] no element has a smaller key than a later
    one. *)
Lemma py_sort_reverse_sorted (l : list A) :
  Forall (fun a => good (key a)) l ->
  StronglySorted (fun a b => ltb (key a) (key b) = false) (py_sort_reverse ltb key l).
Proof.
  intros H. unfold py_sort_reverse.
  apply (StronglySorted_rev (fun a b => ltb (key b) (key a) = false)).
  apply py_sorted_sorted.
  eapply Permutation_Forall; [apply Permutation_rev | exact H].
Qed.
End SortedOrder.

Lemma keys_of_keyed (keyed : list (time_key * shot)) :
  Forall (fun ks => _time_sort_key (Time (snd ks)) = Ok (fst ks)) keyed ->
  mapM (fun s => _time_sort_key (Time s)) (map snd keyed) = Ok (map fst keyed).
Proof.
  induction 1 as [| ks keyed Hk _ IH]; simpl; [reflexivity |].
  now rewrite Hk, IH.
Qed.

Lemma not_nan_ordered (k : time_key) :
  k <> NumKey S754_nan -> ordered_key k.
Proof.
  destruct k as [f | s]; simpl; [| trivial].
  destruct f; try reflexivity. intros H. now contradiction H.
Qed.

(** ** C4: the order of the shots *)

(** C4, as the code has it. The shots come in descending order of their
    sort keys, and a text key is above every number: the shots whose time is
    no number come first, in descending order of their texts, and the shots
    with a numeric time follow in descending order of the numbers.  The
    statement leaves out lists with a time that reads as NaN, which no order
    places. *)
Theorem shots_sorted_descending_text_first
    (headers : list string) (rows : list (list string))
    (id_column primary_column : string) (secondary_column : option string)
    (time_column start_nr_val : string) (shots : list shot) :
  get_shots_for_start_nr headers rows id_column primary_column secondary_column
    time_column start_nr_val = Ok shots ->
  (forall s, In s shots -> _time_sort_key (Time s) <> Ok (NumKey S754_nan)) ->
  exists keys,
    mapM (fun s => _time_sort_key (Time s)) shots = Ok keys
    /\ StronglySorted (fun a b => time_key_geb a b = true) keys.
Proof.
  intros H Hnan. unfold get_shots_for_start_nr in H.
  assert (Hsorted : forall collected, sort_shots collected = Ok shots ->
            exists keys,
              mapM (fun s => _time_sort_key (Time s)) shots = Ok keys
              /\ StronglySorted (fun a b => time_key_geb a b = true) keys).
  { intros collected Hsort.
    pose proof (sort_shots_permutation _ _ Hsort) as Hperm.
    unfold sort_shots in Hsort. apply bind_ok in Hsort as [keyed [Hk Hsort]].
    injection Hsort as Hout. apply keyed_shots in Hk as [Hsnd Hkeys].
    assert (Hgood : Forall (fun ks => ordered_key (fst ks)) keyed).
    { rewrite Forall_forall in *. intros [k s] Hin. simpl.
      apply not_nan_ordered. intros ->.
      apply (Hnan s).
      - eapply Permutation_in; [symmetry; exact Hperm |].
        rewrite <- Hsnd. now apply (in_map snd) in Hin.
      - exact (Hkeys _ Hin). }
    set (sorted := py_sort_reverse time_key_ltb fst keyed) in *.
    assert (Hp : Permutation sorted keyed) by apply py_sort_reverse_permutation.
    exists (map fst sorted). rewrite <- Hout. split.
    - apply keys_of_keyed.
      eapply Permutation_Forall; [symmetry; exact Hp | exact Hkeys].
    - apply StronglySorted_map.
      apply (StronglySorted_weaken
               (fun a b => time_key_ltb (fst a) (fst b) = false) _
               (fun ks => ordered_key (fst ks))).
      + intros a b Ha Hb. now apply time_key_not_ltb_geb.
      + eapply Permutation_Forall; [symmetry; exact Hp | exact Hgood].
      + apply (py_sort_reverse_sorted time_key_ltb fst ordered_key
                 time_key_ltb_asym time_key_ltb_negtrans).
        exact Hgood. }
  destruct (index_of id_column headers) as [id_idx |].
  - destruct (index_of primary_column headers) as [p |].
    + apply bind_ok in H as [dec [_ H]]. apply bind_ok in H as [collected [_ H]].
      now apply (Hsorted collected).
    + injection H as <-. exists []. split; [reflexivity | constructor].
  - injection H as <-. exists []. split; [reflexivity | constructor].
Qed.

(** The times "12.5", "bad", "20.0" come out as "bad", "20.0", "12.5". *)
Lemma text_time_sorts_before_numbers :
  (out <- get_shots_for_start_nr ["Start NR"; "Primary score"; "Time"]
            [["7"; "1"; "12.5"]; ["7"; "2"; "bad"]; ["7"; "3"; "20.0"]]
            "Start NR" "Primary score" None "Time" "7" ;;
   Ok (map Time out)) = Ok ["bad"; "20.0"; "12.5"]
  /\ ["bad"; "20.0"; "12.5"] <> ["20.0"; "12.5"; "bad"].
Proof.
  split; [vm_compute; reflexivity | discriminate].
Qed.

Lemma shots_sorted_example :
  exists keys,
    mapM (fun s => _time_sort_key (Time s))
      [ {| Index := 1; Time := "bad"; Primary_score := "2"; Secondary_score := "";
           Decimal_score := None; Integer_score := Some 2 |};
        {| Index := 2; Time := "20.0"; Primary_score := "3"; Secondary_score := "";
           Decimal_score := None; Integer_score := Some 3 |};
        {| Index := 0; Time := "12.5"; Primary_score := "1"; Secondary_score := "";
           Decimal_score := None; Integer_score := Some 1 |} ] = Ok keys
    /\ StronglySorted (fun a b => time_key_geb a b = true) keys.
Proof.
  apply (shots_sorted_descending_text_first
           ["Start NR"; "Primary score"; "Time"]
           [["7"; "1"; "12.5"]; ["7"; "2"; "bad"]; ["7"; "3"; "20.0"]]
           "Start NR" "Primary score" None "Time" "7").
  - vm_compute. reflexivity.
  - intros s [<- | [<- | [<- | []]]]; vm_compute; discriminate.
Defined.

(** * More of the code *)

(** ** Text *)

Lemma contains_has_char (c : ascii) (s : string) :
  contains (String c EmptyString) s = has_char c s.
Proof.
  induction s as [| d r IH]; [reflexivity |].
  cbn [contains has_char prefix]. rewrite IH.
  destruct (ascii_dec c d) as [<- | Hne].
  - rewrite Ascii.eqb_refl. now destruct r.
  - destruct (Ascii.eqb d c) eqn:E; [| reflexivity].
    apply Ascii.eqb_eq in E. now subst.
Qed.

Lemma has_char_append (c : ascii) (a b : string) :
  has_char c (a ++ b) = has_char c a || has_char c b.
Proof.
  induction a as [| d r IH]; simpl; [reflexivity |].
  rewrite IH. now rewrite orb_assoc.
Qed.

Lemma has_char_concat (c sep : ascii) (cells : list string) :
  sep <> c ->
  has_char c (concat (String sep EmptyString) cells)
  = existsb (has_char c) cells.
Proof.
  intros Hne. induction cells as [| a t IH]; [reflexivity |].
  destruct t as [| b t'].
  - simpl. now rewrite orb_false_r.
  - change (concat (String sep EmptyString) (a :: b :: t'))
      with (a ++ String sep (concat (String sep EmptyString) (b :: t'))).
    rewrite has_char_append. cbn [has_char]. rewrite IH.
    destruct (Ascii.eqb sep c) eqn:E; [apply Ascii.eqb_eq in E; contradiction |].
    reflexivity.
Qed.

Lemma has_char_concat_sep (sep : ascii) (a b : string) (cells : list string) :
  has_char sep (concat (String sep EmptyString) (a :: b :: cells)) = true.
Proof.
  change (concat (String sep EmptyString) (a :: b :: cells))
    with (a ++ String sep (concat (String sep EmptyString) (b :: cells))).
  rewrite has_char_append. cbn [has_char]. rewrite Ascii.eqb_refl.
  now rewrite orb_true_r.
Qed.

(** ** The delimiter guess *)

(** X1. A line made by joining cells that hold no comma with ";" is read
    as semicolon-delimited, and a line made by joining two or more cells
    with "," is read as comma-delimited, whatever semicolons the cells
    hold. *)
Theorem guess_delimiter_of_joined_cells (cells : list string) :
  (existsb (has_char ",") cells = false ->
   _guess_delimiter_from_first_line (concat ";" cells) = ";")
  /\ ((2 <= List.length cells)%nat ->
      _guess_delimiter_from_first_line (concat "," cells) = ",").
Proof.
  unfold _guess_delimiter_from_first_line. rewrite !contains_has_char. split.
  - intros H. rewrite (has_char_concat "," ";" cells) by discriminate.
    rewrite H. simpl. now destruct (has_char ";" (concat ";" cells)).
  - intros H. destruct cells as [| a [| b t]]; simpl in H; try lia.
    rewrite (has_char_concat_sep "," a b t). simpl.
    now rewrite andb_false_r.
Qed.

Lemma guess_delimiter_example :
  _guess_delimiter_from_first_line (concat ";" ["7"; "10.3"; "x"]) = ";"
  /\ _guess_delimiter_from_first_line (concat "," ["7"; "a;b"]) = ",".
Proof.
  split.
  - apply (guess_delimiter_of_joined_cells ["7"; "10.3"; "x"]). reflexivity.
  - apply (guess_delimiter_of_joined_cells ["7"; "a;b"]). simpl. lia.
Defined.

(** ** Header names from the field list *)

(** X2. [headers_from_field_names] returns exactly [num_columns] names:
    position [i] holds the [i]-th field name when there is one and
    "Column i+1" otherwise, so the field names come first, in their order
    and unchanged. *)
Theorem headers_from_field_names_shape (num_columns : nat) (field_names : list string) :
  List.length (headers_from_field_names num_columns field_names) = num_columns
  /\ firstn (List.length field_names) (headers_from_field_names num_columns field_names)
     = firstn num_columns field_names
  /\ (forall i, (List.length field_names <= i < num_columns)%nat ->
                nth_error (headers_from_field_names num_columns field_names) i
                = Some ("Column " ++ str_of_nat (S i))).
Proof.
  unfold headers_from_field_names. split; [| split].
  - now rewrite length_map, length_seq.
  - apply nth_error_ext. intros i.
    destruct (Nat.lt_ge_cases i (List.length field_names)) as [Hi | Hi].
    + rewrite nth_error_firstn. apply Nat.ltb_lt in Hi as Hb. rewrite Hb.
      rewrite nth_error_firstn, nth_error_map.
      destruct (Nat.ltb i num_columns) eqn:Hn.
      * apply Nat.ltb_lt in Hn. rewrite nth_error_seq.
        apply Nat.ltb_lt in Hn as Hn'. rewrite Hn'. simpl.
        apply Nat.ltb_lt in Hb.
        destruct (nth_error field_names i) eqn:E; [reflexivity |].
        apply nth_error_None in E. lia.
      * apply Nat.ltb_ge in Hn. rewrite nth_error_seq.
        apply Nat.ltb_ge in Hn as Hn'. now rewrite Hn'.
    + rewrite !nth_error_firstn.
      apply Nat.ltb_ge in Hi as Hb. rewrite Hb.
      destruct (Nat.ltb i num_columns); [| reflexivity].
      symmetry. apply nth_error_None. exact Hi.
  - intros i [Hlo Hhi]. rewrite nth_error_map, nth_error_seq.
    apply Nat.ltb_lt in Hhi as Hb. rewrite Hb. simpl.
    apply nth_error_None in Hlo. now rewrite Hlo.
Qed.

Lemma headers_from_field_names_example :
  nth_error (headers_from_field_names 3 ["Start NR"]) 2 = Some "Column 3"
  /\ List.length (headers_from_field_names 3 ["Start NR"]) = 3%nat.
Proof.
  destruct (headers_from_field_names_shape 3 ["Start NR"]) as [H1 [_ H3]].
  split; [apply H3; simpl; lia | exact H1].
Defined.

(** ** Normalised header names *)

Lemma has_char_remove_same (c : ascii) (s : string) :
  has_char c (remove_char c s) = false.
Proof.
  induction s as [| d r IH]; [reflexivity |]. simpl.
  destruct (Ascii.eqb d c) eqn:E; [exact IH |]. simpl. now rewrite E.
Qed.

Lemma has_char_remove_other (c d : ascii) (s : string) :
  has_char c s = false -> has_char c (remove_char d s) = false.
Proof.
  induction s as [| a r IH]; [reflexivity |]. simpl.
  intros H. apply orb_false_iff in H as [Ha Hr].
  destruct (Ascii.eqb a d); [now apply IH |]. simpl. now rewrite Ha, IH.
Qed.

Lemma normalized_has_no_separator (name : string) :
  has_char " " (_normalize_header name) = false
  /\ has_char "_" (_normalize_header name) = false
  /\ has_char "-" (_normalize_header name) = false.
Proof.
  unfold _normalize_header. split; [| split].
  - apply has_char_remove_other, has_char_remove_other, has_char_remove_same.
  - apply has_char_remove_other, has_char_remove_same.
  - apply has_char_remove_same.
Qed.

Lemma eqb_false_by_char (c : ascii) (n a : string) :
  has_char c n = false -> has_char c a = true -> String.eqb n a = false.
Proof.
  intros Hn Ha. destruct (String.eqb n a) eqn:E; [| reflexivity].
  apply String.eqb_eq in E. subst. congruence.
Qed.

(** X3. A normalised header name holds no space, underscore or hyphen.  So
    the aliases written with one ("start number", "start_no",
    "decimal score", "inner ten", "primary score", "secondary score") match
    no header: the alias tests are the tests against the other aliases. *)
Theorem aliases_with_separators_never_match (name : string) :
  let n := _normalize_header name in
  (has_char " " n = false /\ has_char "_" n = false /\ has_char "-" n = false)
  /\ mem n SIUS_ID_ALIASES = mem n ["startnumber"; "id"; "competitor"; "shooter"]
  /\ mem n SIUS_SCORE_ALIASES
     = mem n ["decimalscore"; "score"; "decimal"; "points"; "innerten"]
  /\ mem (_normalize name) START_NR_ALIASES
     = mem (_normalize name) ["startnr"; "startnumber"; "startno"]
  /\ mem (_normalize name) PRIMARY_SCORE_ALIASES
     = mem (_normalize name) ["primaryscore"; "decimalscore"]
  /\ mem (_normalize name) SECONDARY_SCORE_ALIASES
     = mem (_normalize name) ["secondaryscore"].
Proof.
  cbv zeta. change (_normalize name) with (_normalize_header name).
  destruct (normalized_has_no_separator name) as [Hs [Hu Hh]].
  split; [now repeat split |].
  unfold mem, SIUS_ID_ALIASES, SIUS_SCORE_ALIASES, START_NR_ALIASES,
    PRIMARY_SCORE_ALIASES, SECONDARY_SCORE_ALIASES.
  cbn [existsb].
  rewrite (eqb_false_by_char " " _ "start number" Hs eq_refl).
  rewrite (eqb_false_by_char "_" _ "start_no" Hu eq_refl).
  rewrite (eqb_false_by_char " " _ "decimal score" Hs eq_refl).
  rewrite (eqb_false_by_char " " _ "inner ten" Hs eq_refl).
  rewrite (eqb_false_by_char " " _ "primary score" Hs eq_refl).
  rewrite (eqb_false_by_char " " _ "secondary score" Hs eq_refl).
  repeat split; reflexivity.
Qed.

(** ** Matching headers to field names *)

Lemma first_or_In {A : Type} (p : A -> bool) (l : list A) (otherwise : option A) (a : A) :
  first_or p l otherwise = Some a -> In a l \/ otherwise = Some a.
Proof.
  unfold first_or. destruct (find p l) as [b |] eqn:E.
  - intros [= <-]. left. now apply find_some in E.
  - now right.
Qed.

Lemma find_exists {A : Type} (p : A -> bool) (l : list A) (a : A) :
  In a l -> p a = true -> exists b, find p l = Some b /\ p b = true.
Proof.
  intros Hin Hp. destruct (find p l) as [b |] eqn:E.
  - exists b. split; [reflexivity |]. now apply find_some in E.
  - exfalso. pose proof (find_none p l E a Hin). congruence.
Qed.

Lemma match_csv_header_In (csv_headers : list string) (target_field h : string) :
  match_csv_header_to_field csv_headers target_field = Some h -> In h csv_headers.
Proof.
  unfold match_csv_header_to_field. intros H.
  repeat (apply first_or_In in H as [H | H]; [exact H |]). discriminate.
Qed.

(** X4. [match_csv_header_to_field] answers with one of the headers it was
    given or with [None].  A header whose normalised name is the target's
    wins over every alias: when there is one, the answer is such a header. *)
Theorem match_csv_header_to_field_answer (csv_headers : list string) (target_field : string) :
  (forall h, match_csv_header_to_field csv_headers target_field = Some h ->
             In h csv_headers)
  /\ (forall h0, In h0 csv_headers -> _normalize h0 = _normalize target_field ->
        exists h, match_csv_header_to_field csv_headers target_field = Some h
                  /\ _normalize h = _normalize target_field).
Proof.
  split; [intros h; apply match_csv_header_In |].
  intros h0 Hin Hn. unfold match_csv_header_to_field, first_or at 1.
  destruct (find_exists (fun h => String.eqb (_normalize h) (_normalize target_field))
              csv_headers h0 Hin) as [b [Hb Hp]].
  { rewrite Hn. apply String.eqb_refl. }
  rewrite Hb. exists b. split; [reflexivity |]. now apply String.eqb_eq.
Qed.

Lemma match_csv_header_to_field_example :
  (exists h, match_csv_header_to_field ["Lane"; "start-nr"; "START NR"] "Start NR" = Some h
             /\ _normalize h = _normalize "Start NR")
  /\ In "Decimal Score" ["Decimal Score"; "Lane"].
Proof.
  destruct (match_csv_header_to_field_answer ["Lane"; "start-nr"; "START NR"] "Start NR")
    as [_ H2].
  destruct (match_csv_header_to_field_answer ["Decimal Score"; "Lane"] "Primary score")
    as [H1 _].
  split.
  - apply (H2 "START NR"); [simpl; auto | vm_compute; reflexivity].
  - apply H1. vm_compute. reflexivity.
Defined.

(** ** The columns the handlers work with *)

Lemma index_of_In (name : string) (headers : list string) :
  In name headers <-> index_of name headers <> None.
Proof.
  induction headers as [| h t IH]; simpl; [tauto |].
  destruct (String.eqb h name) eqn:E.
  - apply String.eqb_eq in E. split; [discriminate | auto].
  - split.
    + intros [-> | Hin]; [now rewrite String.eqb_refl in E |].
      apply IH in Hin. now destruct (index_of name t).
    + intros H. right. apply IH. now destruct (index_of name t).
Qed.

Lemma given_string_some (x : option string) (s : string) :
  given_string x = Some s -> x = Some s.
Proof.
  destruct x as [t |]; simpl; [| discriminate].
  destruct (truthy t); [now intros [= ->] | discriminate].
Qed.

Lemma start_nr_column_is_header (headers : list string) :
  headers <> [] -> In (start_nr_column_of headers) headers.
Proof.
  intros Hne. unfold start_nr_column_of.
  destruct (given_string (start_nr (suggest_columns headers))) as [h |] eqn:E.
  - apply given_string_some in E. unfold suggest_columns in E. simpl in E.
    destruct (given_string (match_csv_header_to_field headers START_NR)) eqn:G.
    + eapply match_csv_header_In. exact E.
    + destruct headers as [| h0 t]; [contradiction |].
      injection E as <-. now left.
  - destruct headers as [| h0 t]; [contradiction | now left].
Qed.

Lemma primary_column_is_header (headers : list string) (p : string) :
  given_string (primary_score (suggest_columns headers)) = Some p -> In p headers.
Proof.
  intros H. apply given_string_some in H. simpl in H.
  eapply match_csv_header_In. exact H.
Qed.

(** The counts of [summarize_decimal_integer] add up to the rows with an
    identifier. *)
Lemma summarize_decimal_integer_total
    (headers : list string) (rows : list (list string))
    (id_column primary_column : string) (secondary_column : option string)
    (id_idx primary_idx : nat) (out : list summary_row) :
  index_of id_column headers = Some id_idx ->
  index_of primary_column headers = Some primary_idx ->
  summarize_decimal_integer headers rows id_column primary_column secondary_column = Ok out ->
  list_sum (map sr_count out) = List.length (filter (has_identifier id_idx) rows).
Proof.
  intros Hid Hp Hout.
  unfold summarize_decimal_integer in Hout. rewrite Hid, Hp in Hout.
  apply bind_ok in Hout as [dec [_ Hout]].
  apply bind_ok in Hout as [by_id [Hloop Hout]].
  destruct (counting_loop count new_tally eq_refl id_idx _
              (tally_row_counts id_idx primary_idx _ dec) rows [] by_id Hloop
              (NoDup_nil _) (fun k H => match H with end))
    as [Hnd [_ [Htot _]]].
  destruct (counted_records count new_tally summary_of sr_id sr_count
              id_key_ltb id_sort_key by_id out summary_of_fields Hnd Hout)
    as [_ [Hsum _]].
  now rewrite Hsum, Htot.
Qed.

(** X5. In the handler [summary] the identifier column and the primary
    column are always found among the headers, so whenever it answers with
    records, their counts add up to the number of selected rows whose cell
    in the identifier column is not blank. *)
Theorem summary_counts_selected_rows
    (headers : list string) (rows : list (list string)) (data : request)
    (out : list summary_row) (columns : option (list string)) :
  summary headers rows data = Json (out, columns) ->
  exists id_idx,
    index_of (start_nr_column_of headers) headers = Some id_idx
    /\ list_sum (map sr_count out)
       = List.length (filter (has_identifier id_idx) (selected_rows headers rows data)).
Proof.
  unfold summary. intros H.
  destruct headers as [| h hs] eqn:Hh; [discriminate |].
  destruct rows as [| r rs] eqn:Hr; [discriminate |]. rewrite <- Hh, <- Hr in *.
  assert (Hne : headers <> []) by (rewrite Hh; discriminate).
  destruct (given_string (primary_score (suggest_columns headers))) as [p |] eqn:Hp;
    [| discriminate].
  destruct (index_of (start_nr_column_of headers) headers) as [i |] eqn:Hi.
  2: { exfalso. apply (proj1 (index_of_In _ _) (start_nr_column_is_header headers Hne)).
       exact Hi. }
  destruct (index_of p headers) as [j |] eqn:Hj.
  2: { exfalso. apply (proj1 (index_of_In _ _) (primary_column_is_header headers p Hp)).
       exact Hj. }
  destruct (summarize_decimal_integer headers (selected_rows headers rows data)
              (start_nr_column_of headers) p (secondary_score (suggest_columns headers)))
    as [res | e] eqn:Hs; [| discriminate].
  injection H as <- _. exists i. split; [reflexivity |].
  eapply summarize_decimal_integer_total; eassumption.
Qed.

Lemma summary_counts_example :
  exists id_idx,
    index_of (start_nr_column_of ["Lane"; "Primary score"]) ["Lane"; "Primary score"]
    = Some id_idx
    /\ list_sum (map sr_count
                   [ {| sr_id := "3"; sr_count := 1;
                        Decimal_score_sum := None; Decimal_score_mean := None;
                        Integer_score_sum := Some 9;
                        Integer_score_mean := Some float_9 |} ])
       = List.length (filter (has_identifier id_idx)
                        (selected_rows ["Lane"; "Primary score"] [["3"; "9"]] no_filter)).
Proof.
  apply (summary_counts_selected_rows ["Lane"; "Primary score"] [["3"; "9"]] no_filter
           _ (Some summary_columns)).
  vm_compute. reflexivity.
Defined.

(** ** The roles [infer_column_types] gives *)

Lemma first_header_In (p : nat -> string -> bool) (headers : list string) (h : string) :
  In h (first_header p headers) -> In h headers /\ first_header p headers = [h].
Proof.
  unfold first_header.
  destruct (find (fun ih => p (fst ih) (snd ih)) (enumerate headers)) as [[i g] |] eqn:E;
    [| intros []].
  intros [<- | []]. split; [| reflexivity].
  apply find_some in E as [Hin _]. apply enumerate_In in Hin.
  eapply nth_error_In. exact Hin.
Qed.

Lemma first_header_cases (p : nat -> string -> bool) (headers : list string) :
  first_header p headers = [] \/ exists h, first_header p headers = [h] /\ In h headers.
Proof.
  destruct (first_header p headers) as [| h t] eqn:E; [now left |].
  right. exists h. destruct (first_header_In p headers h) as [Hin Heq].
  - rewrite E. now left.
  - split; [congruence | exact Hin].
Qed.

Lemma id_columns_single (headers : list string) (id_hint : option string) :
  headers <> [] ->
  exists id, id_columns headers id_hint = [id] /\ In id headers.
Proof.
  intros Hne. unfold id_columns.
  set (by_hint := match given_string id_hint with
                  | Some hint => first_header _ headers
                  | None => []
                  end).
  assert (Hhint : by_hint = [] \/ exists h, by_hint = [h] /\ In h headers).
  { subst by_hint. destruct (given_string id_hint); [apply first_header_cases | now left]. }
  destruct Hhint as [-> | [h [-> Hin]]].
  - destruct (first_header_cases
                (fun _ h => mem (_normalize_header h) SIUS_ID_ALIASES
                            || contains "start" (_normalize_header h)) headers)
      as [-> | [h [-> Hin]]].
    + destruct headers as [| h0 t]; [contradiction |].
      exists h0. split; [reflexivity | now left].
    + now exists h.
  - now exists h.
Qed.

(** The loop over the headers returns, and every name it adds is the name
    of a header it went through that is not an identifier column. *)
Lemma score_columns_origin
    (rows : list (list string)) (id_cols hints : list string)
    (l : list (nat * string)) (acc : list string) :
  exists out,
    foldM (score_step rows id_cols hints) acc l = Ok out
    /\ (forall h, In h out ->
                  In h acc \/ (mem h id_cols = false /\ exists i, In (i, h) l)).
Proof.
  revert acc. induction l as [| [j g] t IH]; intros acc; simpl.
  - exists acc. split; [reflexivity | auto].
  - assert (Hstep : exists acc',
               score_step rows id_cols hints acc (j, g) = Ok acc'
               /\ (acc' = acc \/ (acc' = (acc ++ [g])%list /\ mem g id_cols = false))).
    { unfold score_step. cbn [fst snd].
      destruct (mem g id_cols); [exists acc; auto |].
      destruct (negb (Nat.eqb (List.length hints) 0) && mem (_normalize_header g) hints);
        [exists (acc ++ [g])%list; auto |].
      destruct (score_name g); [exists (acc ++ [g])%list; auto |].
      destruct (all_numeric_total (column_sample rows j)) as [b Hb].
      rewrite Hb. simpl. destruct b; [exists (acc ++ [g])%list; auto | exists acc; auto]. }
    destruct Hstep as [acc' [Hs Hacc']]. rewrite Hs. simpl.
    destruct (IH acc') as [out [Ho Hout]].
    exists out. split; [exact Ho |].
    intros h Hh. destruct (Hout h Hh) as [Hin | [Hm [i Hi]]].
    + destruct Hacc' as [-> | [-> Hm]]; [now left |].
      apply in_app_or in Hin as [Hin | [<- | []]]; [now left |].
      right. split; [exact Hm |]. exists j. now left.
    + right. split; [exact Hm |]. exists i. now right.
Qed.

(** X6. [infer_column_types] never raises.  For a table with headers and
    rows it names exactly one identifier column, which is a header; every
    score column it names is a header, and none is the identifier column.
    Without headers or without rows it names nothing. *)
Theorem infer_column_types_roles
    (headers : list string) (rows : list (list string))
    (id_hint : option string) (score_hints : option (list string)) :
  (headers = [] \/ rows = [] ->
   infer_column_types headers rows id_hint score_hints = Ok ([], []))
  /\ (headers <> [] -> rows <> [] ->
      exists id score_cols,
        infer_column_types headers rows id_hint score_hints = Ok ([id], score_cols)
        /\ In id headers
        /\ ~ In id score_cols
        /\ (forall h, In h score_cols -> In h headers)).
Proof.
  split.
  - intros [-> | ->]; [reflexivity | now destruct headers].
  - intros Hh Hr. unfold infer_column_types.
    destruct (id_columns_single headers id_hint Hh) as [id [Hid Hin]].
    destruct headers as [| h0 hs] eqn:Eh; [contradiction |].
    destruct rows as [| r rs] eqn:Er; [contradiction |].
    rewrite <- Eh, <- Er in *. rewrite Hid.
    destruct (score_columns_origin rows [id]
                match score_hints with
                | Some hints => map _normalize_header hints
                | None => []
                end (enumerate headers) []) as [out [Ho Hout]].
    rewrite Ho. simpl. exists id, out. split; [reflexivity |].
    split; [exact Hin |]. split.
    + intros Hc. destruct (Hout id Hc) as [[] | [Hm _]].
      unfold mem in Hm. simpl in Hm. now rewrite String.eqb_refl in Hm.
    + intros h Hc. destruct (Hout h Hc) as [[] | [_ [i Hi]]].
      apply enumerate_In in Hi. eapply nth_error_In. exact Hi.
Qed.

Lemma infer_column_types_example :
  exists id score_cols,
    infer_column_types ["Lane"; "Start NR"; "Decimal score"] [["1"; "7"; "9.5"]]
      (Some "lane") None = Ok ([id], score_cols)
    /\ In id ["Lane"; "Start NR"; "Decimal score"]
    /\ ~ In id score_cols
    /\ (forall h, In h score_cols -> In h ["Lane"; "Start NR"; "Decimal score"]).
Proof.
  apply (infer_column_types_roles ["Lane"; "Start NR"; "Decimal score"] [["1"; "7"; "9.5"]]
           (Some "lane") None); discriminate.
Defined.

(** ** Parsing cells *)

Lemma sort_shots_total (shots : list shot) : exists out, sort_shots shots = Ok out.
Proof.
  unfold sort_shots.
  assert (H : exists keyed,
             mapM (fun s => k <- _time_sort_key (Time s) ;; Ok (k, s)) shots = Ok keyed).
  { induction shots as [| s t [keyed IH]]; simpl; [now exists [] |].
    destruct (time_sort_key_total (Time s)) as [k Hk]. rewrite Hk. simpl.
    rewrite IH. simpl. now eexists. }
  destruct H as [keyed ->]. simpl. now eexists.
Qed.

(** X7. The functions that read one cell return for every text and never
    raise: [_parse_value] gives a number or [None], [_is_numeric] a truth
    value, [_time_sort_key] a key; and sorting a list of shots by time
    returns for every list. *)
Theorem cell_parsers_never_raise (text : string) (shots : list shot) :
  (exists v, _parse_value text = Ok v)
  /\ (exists b, _is_numeric text = Ok b)
  /\ (exists k, _time_sort_key text = Ok k)
  /\ (exists out, sort_shots shots = Ok out).
Proof.
  split; [apply parse_value_total |].
  split; [apply is_numeric_total |].
  split; [apply time_sort_key_total | apply sort_shots_total].
Qed.

(** ** The dominance test *)

Lemma has_fraction_fractional (v : string) :
  has_fraction v = Ok true
  <-> exists f, py_float v = Ok f /\ has_fractional_part f = true.
Proof.
  unfold has_fraction, has_fractional_part.
  destruct (py_float v) as [f | e]; simpl.
  2: { split; [discriminate | intros [f [H _]]; discriminate]. }
  assert (Hf : (i <- int_of_float f ;; Ok (negb (float_eq_int f i))) = Ok true
               <-> match float_fraction f with
                   | Some (n, d) => negb (n mod d =? 0)
                   | None => false
                   end = true).
  { unfold int_of_float, float_eq_int.
    destruct f as [s | s | | s m e]; simpl; try (split; discriminate).
    set (nd := if 0 <=? e then ((if s then Z.neg m else Z.pos m) * 2 ^ e, 1)
               else (if s then Z.neg m else Z.pos m, 2 ^ (- e))).
    assert (Hd : 0 < snd nd).
    { apply (float_fraction_den_pos (S754_finite s m e) (fst nd) (snd nd)).
      simpl. fold nd. now destruct nd. }
    destruct nd as [n d]. simpl in *.
    assert (Hiff : n = n ÷ d * d <-> n mod d = 0).
    { rewrite Z.mod_divide by lia. split.
      - intros H. exists (n ÷ d). exact H.
      - intros [q Hq]. subst n. rewrite Z.quot_mul by lia. reflexivity. }
    split.
    - intros [= H]. apply negb_true_iff in H. apply negb_true_iff.
      apply Z.eqb_neq in H. apply Z.eqb_neq. tauto.
    - intros H. apply negb_true_iff in H. apply Z.eqb_neq in H.
      f_equal. apply negb_true_iff. apply Z.eqb_neq. tauto. }
  rewrite Hf. split.
  - intros H. now exists f.
  - intros [g [[= <-] H]]. exact H.
Qed.

(** X8. When [_column_has_decimals] returns, its answer is [True] exactly
    when some row has a cell in the column that reads as a finite float
    with a fractional part. *)
Theorem column_has_decimals_meaning
    (rows : list (list string)) (col_idx : nat) (answer : bool) :
  _column_has_decimals rows col_idx = Ok answer ->
  (answer = true
   <-> exists row c f,
         In row rows /\ cell row col_idx = Some c
         /\ py_float (strip c) = Ok f /\ has_fractional_part f = true).
Proof.
  revert answer. induction rows as [| row rest IH]; intros answer H; simpl in H.
  - injection H as <-. split; [discriminate | intros [row [c [f [[] _]]]]].
  - assert (Hrest : forall P : Prop,
               (P <-> exists c f, cell row col_idx = Some c
                                  /\ py_float (strip c) = Ok f
                                  /\ has_fractional_part f = true) ->
               forall a, (a = true <-> P \/ exists row' c f,
                            In row' rest /\ cell row' col_idx = Some c
                            /\ py_float (strip c) = Ok f
                            /\ has_fractional_part f = true) ->
               (a = true <-> exists row' c f,
                   In row' (row :: rest) /\ cell row' col_idx = Some c
                   /\ py_float (strip c) = Ok f /\ has_fractional_part f = true)).
    { intros P HP a Ha. rewrite Ha, HP. split.
      - intros [[c [f H1]] | [row' [c [f [Hin H1]]]]].
        + exists row, c, f. split; [now left | exact H1].
        + exists row', c, f. split; [now right | exact H1].
      - intros [row' [c [f [[<- | Hin] H1]]]].
        + left. now exists c, f.
        + right. now exists row', c, f. }
    destruct (cell row col_idx) as [c |] eqn:Hc.
    + destruct (truthy (strip c)) eqn:Ht; simpl in H.
      * destruct (has_fraction (strip c)) as [[|] | e] eqn:Hf; simpl in H.
        -- injection H as <-. apply (Hrest True).
           ++ split; [intros _ | trivial].
              apply has_fraction_fractional in Hf as [f [Hf1 Hf2]]. now exists c, f.
           ++ tauto.
        -- apply (Hrest False).
           ++ split; [intros [] |]. intros [c' [f [[= <-] [Hf1 Hf2]]]].
              assert (Hx : has_fraction (strip c) = Ok true)
                by (apply has_fraction_fractional; now exists f).
              congruence.
           ++ rewrite (IH answer H). tauto.
        -- destruct e; simpl in H; try discriminate.
           apply (Hrest False).
           ++ split; [intros [] |]. intros [c' [f [[= <-] [Hf1 Hf2]]]].
              assert (Hx : has_fraction (strip c) = Ok true)
                by (apply has_fraction_fractional; now exists f).
              congruence.
           ++ rewrite (IH answer H). tauto.
      * apply (Hrest False).
        -- split; [intros [] |]. intros [c' [f [[= <-] [Hf1 _]]]].
           destruct (strip c); [| discriminate].
           vm_compute in Hf1. discriminate.
        -- rewrite (IH answer H). tauto.
    + apply (Hrest False).
      * split; [intros [] |]. intros [c' [f [Hx _]]]. discriminate.
      * rewrite (IH answer H). tauto.
Qed.

Lemma column_has_decimals_example :
  _column_has_decimals [["7"; "9"]; ["8"; " 9.5 "]] 1 = Ok true
  /\ exists row c f,
       In row [["7"; "9"]; ["8"; " 9.5 "]] /\ cell row 1 = Some c
       /\ py_float (strip c) = Ok f /\ has_fractional_part f = true.
Proof.
  split; [vm_compute; reflexivity |].
  apply (column_has_decimals_meaning [["7"; "9"]; ["8"; " 9.5 "]] 1 true);
    [vm_compute; reflexivity | reflexivity].
Defined.

(** ** Grouping by identifier *)

Lemma foldM_ext {S A : Type} (f g : S -> A -> result S) (l : list A) :
  (forall s a, f s a = g s a) -> forall s, foldM f s l = foldM g s l.
Proof.
  intros H. induction l as [| a t IH]; intros s; simpl; [reflexivity |].
  rewrite H. destruct (g s a); simpl; [apply IH | reflexivity].
Qed.

Lemma Forall2_In_right {A B : Type} (R : A -> B -> Prop) (l : list A) (out : list B) (b : B) :
  Forall2 R l out -> In b out -> exists a, In a l /\ R a b.
Proof.
  induction 1 as [| a0 b0 l out H0 _ IH]; [intros [] |].
  intros [<- | Hin]; [exists a0; split; [now left | exact H0] |].
  destruct (IH Hin) as [a [Ha HR]]. exists a. split; [now right | exact HR].
Qed.

Lemma Forall2_In_left {A B : Type} (R : A -> B -> Prop) (l : list A) (out : list B) (a : A) :
  Forall2 R l out -> In a l -> exists b, In b out /\ R a b.
Proof.
  induction 1 as [| a0 b0 l out H0 _ IH]; [intros [] |].
  intros [<- | Hin]; [exists b0; split; [now left | exact H0] |].
  destruct (IH Hin) as [b [Hb HR]]. exists b. split; [now right | exact HR].
Qed.

Section GroupLoop.
Context {V : Type}.
Variable dflt : V.
Variable id_idx : nat.
Variable upd : V -> list string -> result V.

(** After the loop, the entry of an identifier is what its own rows, taken
    in order, make of the entry it had before; the keys are the former
    keys and the identifiers of the rows. *)
Lemma group_loop (rows : list (list string)) :
  forall d d',
    foldM (group_step dflt id_idx upd) d rows = Ok d' ->
    (forall k, k <> "" ->
       foldM upd (entry dflt d k) (rows_of id_idx k rows) = Ok (entry dflt d' k))
    /\ (forall k, In k (dict_keys d')
                  <-> In k (dict_keys d)
                      \/ exists row, In row rows /\ row_id id_idx row = Some k).
Proof.
  induction rows as [| row rest IH]; intros d d' H; simpl in H.
  - injection H as <-. split; [reflexivity |].
    intros k. split; [now left | intros [Hk | [row [[] _]]]; exact Hk].
  - apply bind_ok in H as [d1 [Hstep H]]. destruct (IH _ _ H) as [IH1 IH2].
    unfold group_step in Hstep.
    destruct (row_id id_idx row) as [k0 |] eqn:Hid.
    + apply bind_ok in Hstep as [v [Hv Hd1]]. injection Hd1 as <-. split.
      * intros k Hk. unfold rows_of in *. simpl filter.
        rewrite (row_id_matches _ _ _ Hk), Hid.
        destruct (String.eqb k0 k) eqn:E.
        -- apply String.eqb_eq in E. subst k0. simpl. rewrite Hv. simpl.
           rewrite <- (IH1 k Hk). unfold entry. now rewrite dict_get_set_same.
        -- rewrite <- (IH1 k Hk). unfold entry.
           rewrite dict_get_set_other; [reflexivity |].
           intros ->. now rewrite String.eqb_refl in E.
      * intros k. rewrite IH2, dict_keys_set_In. split.
        -- intros [[-> | Hk] | [r [Hr Hk]]].
           ++ right. exists row. split; [now left | exact Hid].
           ++ now left.
           ++ right. exists r. split; [now right | exact Hk].
        -- intros [Hk | [r [[<- | Hr] Hk]]].
           ++ left. now right.
           ++ left. left. congruence.
           ++ right. now exists r.
    + injection Hstep as <-. split.
      * intros k Hk. unfold rows_of in *. simpl filter.
        rewrite (row_id_matches _ _ _ Hk), Hid. now apply IH1.
      * intros k. rewrite IH2. split.
        -- intros [Hk | [r [Hr Hk]]]; [now left |].
           right. exists r. split; [now right | exact Hk].
        -- intros [Hk | [r [[<- | Hr] Hk]]]; [now left | congruence |].
           right. now exists r.
Qed.
End GroupLoop.

Lemma tally_row_step (id_idx primary_idx : nat) (secondary_idx : option nat)
    (primary_is_decimal : bool) (d : dict tally) (row : list string) :
  tally_row id_idx primary_idx secondary_idx primary_is_decimal d row
  = group_step new_tally id_idx
      (tally_update primary_idx secondary_idx primary_is_decimal) d row.
Proof.
  unfold tally_row, group_step, tally_update.
  destruct (row_id id_idx row) as [k |]; [| reflexivity].
  change (tally_of d k) with (entry new_tally d k).
  destruct (parse_cell row (Some primary_idx)) as [pv | e]; [| reflexivity]. simpl.
  destruct (parse_cell row secondary_idx) as [sv | e]; [| reflexivity]. simpl.
  destruct (_decimal_and_integer_scores pv sv primary_is_decimal) as [sc | e];
    [| reflexivity]. simpl.
  now destruct (add_decimal (add_count (entry new_tally d k)) (fst sc)).
Qed.

Lemma group_row_step (id_idx : nat) (score_idxs : list (nat * string))
    (d : dict group) (row : list string) :
  group_row id_idx score_idxs d row
  = group_step (new_group score_idxs) id_idx (group_update score_idxs) d row.
Proof. reflexivity. Qed.

Lemma row_id_row_matches (id_idx : nat) (row : list string) (k : string) :
  row_id id_idx row = Some k -> row_matches id_idx k row = true.
Proof.
  intros H. rewrite (row_id_matches _ _ _ (row_id_nonempty _ _ _ H)), H.
  apply String.eqb_refl.
Qed.

Lemma rows_of_not_nil (id_idx : nat) (rows : list (list string)) (row : list string)
    (k : string) :
  In row rows -> row_id id_idx row = Some k -> rows_of id_idx k rows <> [].
Proof.
  intros Hin Hid Hnil.
  assert (H : In row (rows_of id_idx k rows)).
  { apply filter_In. split; [exact Hin | now apply row_id_row_matches]. }
  rewrite Hnil in H. contradiction.
Qed.

(** What the rows of one identifier make of a tally. *)
Lemma tally_fold_content (primary_idx : nat) (secondary_idx : option nat)
    (primary_is_decimal : bool) (rs : list (list string)) :
  forall t0 t,
    foldM (tally_update primary_idx secondary_idx primary_is_decimal) t0 rs = Ok t ->
    exists scs,
      mapM (row_scores primary_idx secondary_idx primary_is_decimal) rs = Ok scs
      /\ count t = (count t0 + List.length rs)%nat
      /\ integer_n t = (integer_n t0 + List.length (defined (map snd scs)))%nat
      /\ integer_sum t = integer_sum t0 + int_sum (defined (map snd scs))
      /\ decimal_n t = (decimal_n t0 + List.length (defined (map fst scs)))%nat
      /\ foldM float_add (decimal_sum t0) (defined (map fst scs)) = Ok (decimal_sum t).
Proof.
  induction rs as [| row rest IH]; intros t0 t H; simpl in H.
  - injection H as <-. exists []. simpl. repeat split; lia.
  - apply bind_ok in H as [t1 [H1 H]].
    destruct (IH _ _ H) as [scs [Hscs [Hc [Hin [His [Hdn Hds]]]]]].
    unfold tally_update in H1.
    apply bind_ok in H1 as [pv [Hpv H1]]. apply bind_ok in H1 as [sv [Hsv H1]].
    apply bind_ok in H1 as [sc [Hsc H1]]. apply bind_ok in H1 as [t' [Ht' H1]].
    injection H1 as <-.
    exists (sc :: scs). split.
    { simpl. unfold row_scores at 1. rewrite Hpv. simpl. rewrite Hsv. simpl.
      rewrite Hsc. simpl. now rewrite Hscs. }
    destruct sc as [[dv |] [iv |]]; simpl in *;
      try (apply bind_ok in Ht' as [s [Hs Ht']]); injection Ht' as <-; simpl in *;
      try rewrite Hs; simpl;
      repeat split; try lia; try exact Hds.
Qed.

(** X9. When [summarize_decimal_integer] returns with its columns found,
    every record is made from the rows of its identifier alone, with the
    column-wide flag: its count is their number, its integer sum is the sum
    of their integer scores and its decimal sum is the rounded sum of their
    decimal scores, added in row order from 0.0; the means divide by the
    number of scores, and a sum and its mean are [None] exactly when no row
    of the identifier has that score.  Every identifier of a row has its
    record. *)
Theorem summarize_decimal_integer_records
    (headers : list string) (rows : list (list string))
    (id_column primary_column : string) (secondary_column : option string)
    (id_idx primary_idx : nat) (out : list summary_row) :
  index_of id_column headers = Some id_idx ->
  index_of primary_column headers = Some primary_idx ->
  summarize_decimal_integer headers rows id_column primary_column secondary_column = Ok out ->
  exists primary_is_decimal,
    _column_has_decimals rows primary_idx = Ok primary_is_decimal
    /\ (forall r, In r out ->
          exists scs,
            rows_of id_idx (sr_id r) rows <> []
            /\ mapM (row_scores primary_idx (optional_index secondary_column headers)
                       primary_is_decimal)
                 (rows_of id_idx (sr_id r) rows) = Ok scs
            /\ sr_count r = List.length (rows_of id_idx (sr_id r) rows)
            /\ match defined (map fst scs) with
               | [] => Decimal_score_sum r = None /\ Decimal_score_mean r = None
               | decs =>
                   exists s q,
                     foldM float_add fzero decs = Ok s
                     /\ float_div_count s (List.length decs) = Ok q
                     /\ Decimal_score_sum r = Some (round4_float s)
                     /\ Decimal_score_mean r = Some (round4_float q)
               end
            /\ match defined (map snd scs) with
               | [] => Integer_score_sum r = None /\ Integer_score_mean r = None
               | ints =>
                   exists q,
                     int_div_count (int_sum ints) (List.length ints) = Ok q
                     /\ Integer_score_sum r = Some (int_sum ints)
                     /\ Integer_score_mean r = Some (round4_float q)
               end)
    /\ (forall row k, In row rows -> row_id id_idx row = Some k ->
          exists r, In r out /\ sr_id r = k).
Proof.
  intros Hid Hp Hout.
  unfold summarize_decimal_integer in Hout. rewrite Hid, Hp in Hout.
  apply bind_ok in Hout as [dec [Hdec Hout]].
  apply bind_ok in Hout as [by_id [Hloop Hout]].
  exists dec. split; [exact Hdec |].
  set (sec := optional_index secondary_column headers) in *.
  rewrite (foldM_ext _ _ rows (tally_row_step id_idx primary_idx sec dec)) in Hloop.
  destruct (group_loop new_tally id_idx (tally_update primary_idx sec dec) rows [] by_id
              Hloop) as [Hent Hkeys].
  apply mapM_ok in Hout. split.
  - intros r Hr.
    destruct (Forall2_In_right _ _ _ r Hout Hr) as [k [Hk Hsum]].
    apply (Permutation_in _ (py_sorted_permutation _ _ _)) in Hk.
    apply Hkeys in Hk as [[] | [row [Hrow Hrid]]].
    pose proof (row_id_nonempty _ _ _ Hrid) as Hne.
    pose proof (Hent k Hne) as Hfold. change (entry new_tally [] k) with new_tally in Hfold.
    change (tally_of by_id k) with (entry new_tally by_id k) in Hsum.
    destruct (tally_fold_content _ _ _ _ _ _ Hfold)
      as [scs [Hscs [Hc [Hin [His [Hdn Hds]]]]]].
    unfold summary_of in Hsum.
    apply bind_ok in Hsum as [dm [Hdm Hsum]]. apply bind_ok in Hsum as [im [Him Hsum]].
    injection Hsum as <-. cbn [sr_id sr_count Decimal_score_sum Decimal_score_mean
                                 Integer_score_sum Integer_score_mean].
    exists scs. split; [eapply rows_of_not_nil; eassumption |].
    split; [exact Hscs |]. split; [exact Hc |].
    simpl in Hin, His, Hdn, Hds. split.
    + destruct (defined (map fst scs)) as [| d0 ds] eqn:Ed.
      * simpl in Hdn. rewrite Hdn in *. injection Hdm as <-. now split.
      * rewrite Hdn in *. cbn [List.length Nat.add] in *.
        apply bind_ok in Hdm as [q [Hq Hdm]]. injection Hdm as <-.
        exists (decimal_sum (entry new_tally by_id k)), q.
        repeat split; assumption.
    + destruct (defined (map snd scs)) as [| i0 is0] eqn:Ei.
      * simpl in Hin. rewrite Hin in *. injection Him as <-. now split.
      * rewrite Hin, His in *. cbn [List.length Nat.add] in *.
        apply bind_ok in Him as [q [Hq Him]]. injection Him as <-.
        exists q. repeat split; assumption.
  - intros row k Hrow Hrid.
    assert (Hk : In k (py_sorted id_key_ltb id_sort_key (dict_keys by_id))).
    { eapply Permutation_in; [symmetry; apply py_sorted_permutation |].
      apply Hkeys. right. now exists row. }
    destruct (Forall2_In_left _ _ _ k Hout Hk) as [r [Hr Hsum]].
    exists r. split; [exact Hr |]. now apply summary_of_fields in Hsum.
Qed.

Lemma summarize_decimal_integer_records_example :
  exists r,
    In r [ {| sr_id := "7"; sr_count := 2;
              Decimal_score_sum := None; Decimal_score_mean := None;
              Integer_score_sum := Some 9; Integer_score_mean := Some float_9 |};
           {| sr_id := "8"; sr_count := 1;
              Decimal_score_sum := None; Decimal_score_mean := None;
              Integer_score_sum := Some 1; Integer_score_mean := Some float_1 |} ]
    /\ sr_id r = "7".
Proof.
  destruct (summarize_decimal_integer_records
              ["Start NR"; "Primary score"]
              [["7"; "x"]; [" "; "5"]; ["7"; "9"]; ["8"; "1"]]
              "Start NR" "Primary score" None 0 1 _
              eq_refl eq_refl ltac:(vm_compute; reflexivity)) as [dec [_ [_ H]]].
  apply (H ["7"; "x"] "7"); [left; reflexivity | vm_compute; reflexivity].
Defined.

Lemma group_loop_NoDup {V : Type} (dflt : V) (id_idx : nat)
    (upd : V -> list string -> result V) (rows : list (list string)) :
  forall d d',
    foldM (group_step dflt id_idx upd) d rows = Ok d' ->
    NoDup (dict_keys d) -> NoDup (dict_keys d').
Proof.
  induction rows as [| row rest IH]; intros d d' H Hnd; simpl in H.
  - now injection H as <-.
  - apply bind_ok in H as [d1 [Hstep H]]. apply (IH _ _ H).
    unfold group_step in Hstep. destruct (row_id id_idx row) as [k |].
    + apply bind_ok in Hstep as [v [_ Hd1]]. injection Hd1 as <-.
      now apply dict_keys_set_NoDup.
    + now injection Hstep as <-.
Qed.

Lemma rows_of_rows_of (id_idx : nat) (k : string) (rows : list (list string)) :
  rows_of id_idx k (rows_of id_idx k rows) = rows_of id_idx k rows.
Proof.
  unfold rows_of. induction rows as [| row rest IH]; [reflexivity |]. simpl.
  destruct (row_matches id_idx k row) eqn:E; [| exact IH].
  simpl. now rewrite E, IH.
Qed.

Lemma rows_of_row_id (id_idx : nat) (k k' : string) (row : list string)
    (table : list (list string)) :
  k <> "" -> In row (rows_of id_idx k table) -> row_id id_idx row = Some k' -> k' = k.
Proof.
  intros Hk Hin Hid. apply filter_In in Hin as [_ Hm].
  rewrite (row_id_matches _ _ _ Hk), Hid in Hm. now apply String.eqb_eq in Hm.
Qed.

Lemma singleton_keys (l : list string) (k : string) :
  NoDup l -> (forall x, In x l <-> x = k) -> l = [k].
Proof.
  intros Hnd H. destruct l as [| a t].
  - exfalso. now apply (proj2 (H k) eq_refl).
  - assert (Ha : a = k) by (apply H; now left). subst a.
    destruct t as [| b t']; [reflexivity |].
    assert (Hb : b = k) by (apply H; right; now left). subst b.
    inversion Hnd as [| ? ? Hnotin _]. exfalso. apply Hnotin. now left.
Qed.

Lemma score_idxs_nonempty (headers score_columns : list string) :
  filter (fun ih => mem (snd ih) score_columns) (enumerate headers) <> [] ->
  exists ih rest,
    filter (fun ih => mem (snd ih) score_columns) (enumerate headers) = ih :: rest.
Proof.
  destruct (filter _ (enumerate headers)) as [| ih rest]; [contradiction | eauto].
Qed.

(** X10. When [summarize_by_id] returns, every record depends on the rows
    of its identifier alone: summarising just those rows gives that one
    record.  When some requested score column is a header, every identifier
    of a row has its record (with no requested column among the headers the
    function returns no record at all). *)
Theorem summarize_by_id_record_of_own_rows
    (headers : list string) (rows : list (list string))
    (id_column : string) (score_columns : list string)
    (id_idx : nat) (out : list group_summary) :
  index_of id_column headers = Some id_idx ->
  summarize_by_id headers rows id_column score_columns = Ok out ->
  (forall r, In r out ->
     summarize_by_id headers (rows_of id_idx (gs_id r) rows) id_column score_columns
     = Ok [r])
  /\ ((exists c, In c score_columns /\ In c headers) ->
      forall row k, In row rows -> row_id id_idx row = Some k ->
                    exists r, In r out /\ gs_id r = k)
  /\ ((forall c, In c score_columns -> ~ In c headers) -> out = []).
Proof.
  intros Hid Hout. unfold summarize_by_id in *. rewrite Hid in *.
  destruct (filter (fun ih => mem (snd ih) score_columns) (enumerate headers))
    as [| ih0 rest0] eqn:Hidx.
  { injection Hout as <-. split; [intros r [] |]. split; [| reflexivity].
    intros [c [Hc Hh]]. exfalso. apply In_nth_error in Hh as [i Hi].
    assert (Hin : In (i, c)
                    (filter (fun ih => mem (snd ih) score_columns) (enumerate headers))).
    { apply filter_In. split; [now apply enumerate_In | now apply mem_In]. }
    rewrite Hidx in Hin. contradiction. }
  assert (Hsome : exists c, In c score_columns /\ In c headers).
  { exists (snd ih0).
    assert (Hin : In ih0 (filter (fun ih => mem (snd ih) score_columns) (enumerate headers)))
      by (rewrite Hidx; now left).
    apply filter_In in Hin as [Hen Hm]. split; [now apply mem_In |].
    destruct ih0 as [i h]. apply enumerate_In in Hen. now apply nth_error_In in Hen. }
  set (idxs := ih0 :: rest0) in *.
  apply bind_ok in Hout as [by_id [Hloop Hout]].
  destruct (group_loop (new_group idxs) id_idx (group_update idxs) rows [] by_id Hloop)
    as [Hent Hkeys].
  apply mapM_ok in Hout. split; [| split].
  - intros r Hr.
    destruct (Forall2_In_right _ _ _ r Hout Hr) as [k [Hk Hsum]].
    apply (Permutation_in _ (py_sorted_permutation _ _ _)) in Hk.
    apply Hkeys in Hk as [[] | [row [Hrow Hrid]]].
    pose proof (row_id_nonempty _ _ _ Hrid) as Hne.
    pose proof (group_summary_of_fields _ _ _ _ Hsum) as [Hgid _]. rewrite Hgid.
    pose proof (Hent k Hne) as Hfold.
    change (entry (new_group idxs) [] k) with (new_group idxs) in Hfold.
    destruct (foldM (group_row id_idx idxs) [] (rows_of id_idx k rows))
      as [d2 | e] eqn:Hloop2.
    + pose proof (group_loop (new_group idxs) id_idx (group_update idxs) _ [] d2 Hloop2)
        as [Hent2 Hkeys2].
      pose proof (group_loop_NoDup (new_group idxs) id_idx (group_update idxs) _ [] d2
                    Hloop2 (NoDup_nil _)) as Hnd2.
      pose proof (Hent2 k Hne) as Hfold2. rewrite rows_of_rows_of in Hfold2.
      change (entry (new_group idxs) [] k) with (new_group idxs) in Hfold2.
      assert (Hg : entry (new_group idxs) d2 k = entry (new_group idxs) by_id k)
        by congruence.
      assert (Hk2 : dict_keys d2 = [k]).
      { apply singleton_keys; [exact Hnd2 |]. intros x. rewrite Hkeys2. split.
        - intros [[] | [row' [Hin' Hid']]].
          eapply rows_of_row_id; [exact Hne | exact Hin' | exact Hid'].
        - intros ->. right. exists row. split; [| exact Hrid].
          apply filter_In. split; [exact Hrow | now apply row_id_row_matches]. }
      simpl bind. rewrite Hk2. cbn [py_sorted fold_right insert_sorted mapM].
      change (group_of idxs d2 k) with (entry (new_group idxs) d2 k). rewrite Hg.
      change (group_of idxs by_id k) with (entry (new_group idxs) by_id k) in Hsum.
      now rewrite Hsum.
    + exfalso.
      (* the loop over the rows of [k] follows the updates of the entry of [k] *)
      assert (Hok : forall rs g d,
                 (forall row', In row' rs -> row_id id_idx row' = Some k) ->
                 foldM (group_update idxs) (entry (new_group idxs) d k) rs = Ok g ->
                 exists d', foldM (group_row id_idx idxs) d rs = Ok d').
      { induction rs as [| row' rs' IHrs]; intros g d Hall Hf; simpl in *.
        - now exists d.
        - apply bind_ok in Hf as [g1 [Hg1 Hf]].
          unfold group_row at 1. rewrite (Hall row' (or_introl eq_refl)).
          change (group_of idxs d k) with (entry (new_group idxs) d k).
          change (foldM (add_score row')
                    {| g_count := S (g_count (entry (new_group idxs) d k));
                       sums := sums (entry (new_group idxs) d k);
                       values := values (entry (new_group idxs) d k) |} idxs)
            with (group_update idxs (entry (new_group idxs) d k) row').
          rewrite Hg1. simpl bind.
          apply (IHrs g (dict_set k g1 d)).
          + intros row'' H''. apply Hall. now right.
          + unfold entry. now rewrite dict_get_set_same. }
      destruct (Hok (rows_of id_idx k rows) (entry (new_group idxs) by_id k) [])
        as [d' Hd'].
      * intros row' Hin'. apply filter_In in Hin' as [_ Hm].
        rewrite (row_id_matches _ _ _ Hne) in Hm.
        destruct (row_id id_idx row') as [k' |]; [| discriminate].
        apply String.eqb_eq in Hm. now subst.
      * exact Hfold.
      * congruence.
  - intros _ row k Hrow Hrid.
    assert (Hk : In k (py_sorted id_key_ltb id_sort_key (dict_keys by_id))).
    { eapply Permutation_in; [symmetry; apply py_sorted_permutation |].
      apply Hkeys. right. now exists row. }
    destruct (Forall2_In_left _ _ _ k Hout Hk) as [r [Hr Hsum]].
    exists r. split; [exact Hr |]. now apply group_summary_of_fields in Hsum.
  - intros Hnone. destruct Hsome as [c [Hc Hh]]. exfalso. exact (Hnone c Hc Hh).
Qed.

Lemma summarize_by_id_record_example :
  summarize_by_id ["Start NR"; "Score"] [["7"; "2"]; ["7"; "x"]] "Start NR" ["Score"]
  = Ok [ {| gs_id := "7"; gs_count := 2;
            fields := [("Score_sum", Some (S754_finite false 4503599627370496 (-51)));
                       ("Score_mean", Some (S754_finite false 4503599627370496 (-51)))] |} ]
  /\ (exists r,
        In r [ {| gs_id := "7"; gs_count := 2;
                  fields := [("Score_sum", Some (S754_finite false 4503599627370496 (-51)));
                             ("Score_mean",
                              Some (S754_finite false 4503599627370496 (-51)))] |};
               {| gs_id := "8"; gs_count := 1;
                  fields := [("Score_sum", Some (S754_finite false 4503599627370496 (-50)));
                             ("Score_mean",
                              Some (S754_finite false 4503599627370496 (-50)))] |} ]
        /\ gs_id r = "8")
  /\ summarize_by_id ["Start NR"; "Score"] [["7"; "2"]] "Start NR" ["Other"] = Ok [].
Proof.
  destruct (summarize_by_id_record_of_own_rows
              ["Start NR"; "Score"] [["7"; "2"]; ["8"; "4"]; ["7"; "x"]]
              "Start NR" ["Score"] 0 _ eq_refl ltac:(vm_compute; reflexivity))
    as [H1 [H2 _]].
  split; [| split].
  - exact (H1 {| gs_id := "7"; gs_count := 2;
                 fields := [("Score_sum", Some (S754_finite false 4503599627370496 (-51)));
                            ("Score_mean",
                             Some (S754_finite false 4503599627370496 (-51)))] |}
              (or_introl eq_refl)).
  - apply (H2 (ex_intro _ "Score" (conj (or_introl eq_refl) (or_intror (or_introl eq_refl))))
              ["8"; "4"] "8"); [right; now left | vm_compute; reflexivity].
  - vm_compute. reflexivity.
Defined.

(** ** The score columns [summarize_by_id] needs *)

Lemma foldM_invariant {S A : Type} (P : S -> Prop) (f : S -> A -> result S) (l : list A) :
  (forall s a s', In a l -> P s -> f s a = Ok s' -> P s') ->
  forall s s', P s -> foldM f s l = Ok s' -> P s'.
Proof.
  induction l as [| a t IH]; intros Hf s s' Hs H; simpl in H.
  - now injection H as <-.
  - apply bind_ok in H as [s1 [H1 H]].
    apply (IH (fun s0 a0 s0' Hin => Hf s0 a0 s0' (or_intror Hin)) s1 s').
    + apply (Hf s a s1); [now left | exact Hs | exact H1].
    + exact H.
Qed.

Lemma dict_get_In_keys {V : Type} (k : string) (d : dict V) (v : V) :
  dict_get k d = Some v -> In k (dict_keys d).
Proof.
  induction d as [| [k' v'] t IH]; simpl; [discriminate |].
  destruct (String.eqb k' k) eqn:E.
  - apply String.eqb_eq in E. now left.
  - intros H. right. now apply IH.
Qed.

Lemma dict_from_keys_In {V : Type} (v : V) (score_idxs : list (nat * string)) (c : string) :
  In c (dict_keys (dict_from_keys v score_idxs)) -> In c (map snd score_idxs).
Proof.
  unfold dict_from_keys.
  assert (H : forall (l : list (nat * string)) (d : dict V),
             In c (dict_keys (fold_left (fun d ih => dict_set (snd ih) v d) l d)) ->
             In c (dict_keys d) \/ In c (map snd l)).
  { induction l as [| ih t IH]; intros d Hin; simpl in *; [now left |].
    apply IH in Hin as [Hin | Hin]; [| now right; right].
    apply dict_keys_set_In in Hin as [-> | Hin]; [right; now left | now left]. }
  intros Hin. apply H in Hin as [[] | Hin]. exact Hin.
Qed.

Lemma group_update_keys (score_idxs : list (nat * string)) (g g' : group)
    (row : list string) :
  group_update score_idxs g row = Ok g' ->
  (forall c, In c (dict_keys (sums g)) -> In c (map snd score_idxs)) ->
  forall c, In c (dict_keys (sums g')) -> In c (map snd score_idxs).
Proof.
  unfold group_update. intros H Hg.
  refine (foldM_invariant
            (fun g0 => forall c, In c (dict_keys (sums g0)) -> In c (map snd score_idxs))
            _ _ _ _ _ _ H); [| exact Hg].
  intros s ih s' Hin Hs Hadd c Hc. unfold add_score in Hadd.
  apply bind_ok in Hadd as [v [_ Hadd]]. destruct v as [x |].
  - apply bind_ok in Hadd as [s0 [_ Hadd]]. apply bind_ok in Hadd as [s1 [_ Hadd]].
    apply bind_ok in Hadd as [vs [_ Hadd]]. injection Hadd as <-. simpl in Hc.
    apply dict_keys_set_In in Hc as [-> | Hc]; [now apply in_map | now apply Hs].
  - injection Hadd as <-. now apply Hs.
Qed.

Lemma add_fields_keys (g : group) (score_columns : list string) :
  forall out out',
    foldM (add_fields g) out score_columns = Ok out' ->
    forall c, In c score_columns -> In c (dict_keys (sums g)).
Proof.
  induction score_columns as [| c0 t IH]; intros out out' H c Hc; [destruct Hc |].
  simpl in H. apply bind_ok in H as [out1 [H1 H]]. destruct Hc as [<- | Hc].
  - unfold add_fields in H1. apply bind_ok in H1 as [s [Hs _]].
    unfold dict_item in Hs. destruct (dict_get c0 (sums g)) as [s0 |] eqn:E; [| discriminate].
    now apply dict_get_In_keys in E.
  - now apply (IH _ _ H).
Qed.

(** X11. [summarize_by_id] reads the sums of every requested score column,
    but only the requested columns that are headers have sums: when it
    returns records, every requested score column is a header (with a
    requested column that is no header, a table with records raises
    [KeyError]). *)
Theorem summarize_by_id_needs_every_score_column
    (headers : list string) (rows : list (list string))
    (id_column : string) (score_columns : list string) (out : list group_summary) :
  summarize_by_id headers rows id_column score_columns = Ok out ->
  out <> [] ->
  forall c, In c score_columns -> In c headers.
Proof.
  intros Hout Hne c Hc. unfold summarize_by_id in Hout.
  destruct (index_of id_column headers) as [id_idx |]; [| now injection Hout as <-].
  destruct (filter (fun ih => mem (snd ih) score_columns) (enumerate headers))
    as [| ih0 rest0] eqn:Hidx; [now injection Hout as <- |].
  set (idxs := ih0 :: rest0) in *.
  apply bind_ok in Hout as [by_id [Hloop Hout]].
  destruct (group_loop (new_group idxs) id_idx (group_update idxs) rows [] by_id Hloop)
    as [Hent Hkeys].
  apply mapM_ok in Hout.
  destruct out as [| r out']; [contradiction |].
  destruct (Forall2_In_right _ _ _ r Hout (or_introl eq_refl)) as [k [Hk Hsum]].
  apply (Permutation_in _ (py_sorted_permutation _ _ _)) in Hk.
  apply Hkeys in Hk as [[] | [row [Hrow Hrid]]].
  pose proof (row_id_nonempty _ _ _ Hrid) as Hk.
  unfold group_summary_of in Hsum. apply bind_ok in Hsum as [fs [Hfs _]].
  pose proof (add_fields_keys _ _ _ _ Hfs c Hc) as Hin.
  change (group_of idxs by_id k) with (entry (new_group idxs) by_id k) in Hin.
  assert (Hsub : In c (map snd idxs)).
  { refine (foldM_invariant
              (fun g0 => forall c, In c (dict_keys (sums g0)) -> In c (map snd idxs))
              (group_update idxs) _ _ _ _ _ (Hent k Hk) c Hin).
    - intros s a s' _ Hs Hup. exact (group_update_keys idxs s s' a Hup Hs).
    - intros c0 Hc0. change (entry (new_group idxs) [] k) with (new_group idxs) in Hc0.
      now apply dict_from_keys_In in Hc0. }
  apply in_map_iff in Hsub as [[i h] [Heq Hih]]. simpl in Heq. subst h.
  rewrite <- Hidx in Hih. apply filter_In in Hih as [Hih _].
  apply enumerate_In in Hih. now apply nth_error_In in Hih.
Qed.

Lemma summarize_by_id_needs_every_score_column_example :
  In "Score" ["Start NR"; "Score"]
  /\ summarize_by_id ["Start NR"; "Score"] [["7"; "2"]] "Start NR" ["Score"; "Other"]
     = Raise (KeyError "Other").
Proof.
  split; [| vm_compute; reflexivity].
  apply (summarize_by_id_needs_every_score_column
           ["Start NR"; "Score"] [["7"; "2"]; ["8"; "4"]; ["7"; "x"]] "Start NR" ["Score"] _
           ltac:(vm_compute; reflexivity)); [discriminate | now left].
Defined.

(** ** The order of the identifiers *)

Lemma str_ltb_asym (a b : string) : str_ltb a b = true -> str_ltb b a = false.
Proof. exact (time_key_ltb_asym (StrKey a) (StrKey b) I I). Qed.

Lemma str_ltb_negtrans (a b c : string) :
  str_ltb a b = false -> str_ltb b c = false -> str_ltb a c = false.
Proof. exact (time_key_ltb_negtrans (StrKey a) (StrKey b) (StrKey c) I I I). Qed.

Lemma id_key_ltb_asym (a b : bool * string) :
  True -> True -> id_key_ltb a b = true -> id_key_ltb b a = false.
Proof.
  intros _ _. destruct a as [[] a], b as [[] b]; unfold id_key_ltb; simpl;
    try discriminate; try reflexivity; apply str_ltb_asym.
Qed.

Lemma id_key_ltb_negtrans (a b c : bool * string) :
  True -> True -> True ->
  id_key_ltb a b = false -> id_key_ltb b c = false -> id_key_ltb a c = false.
Proof.
  intros _ _ _. destruct a as [[] a], b as [[] b], c as [[] c]; unfold id_key_ltb; simpl;
    try discriminate; try reflexivity; apply str_ltb_negtrans.
Qed.

Lemma str_ltb_false (a b : string) : str_ltb a b = false <-> ~ String_as_OT.lt a b.
Proof.
  rewrite <- str_ltb_lt. destruct (str_ltb a b); split; congruence.
Qed.

(** A list sorted on the key of the summaries or of [_unique_values] is in
    key order and keeps its elements. *)
Lemma py_sorted_in_key_order (digits_first : bool) (l : list string) :
  let key := fun x : string =>
               (if digits_first then negb (isdigit x) else isdigit x,
                if isdigit x then zfill 10 x else x) in
  StronglySorted (in_key_order digits_first) (py_sorted id_key_ltb key l).
Proof.
  intros key.
  pose proof (py_sorted_sorted id_key_ltb key (fun _ => True)
                id_key_ltb_asym id_key_ltb_negtrans l) as H.
  assert (Hall : forall l' : list string, Forall (fun a => (fun _ : bool * string => True) (key a)) l').
  { intros l'. apply Forall_forall. intros; exact I. }
  specialize (H (Hall l)).
  refine (StronglySorted_weaken _ _ _ _ _ (Hall _) H).
  intros a b _ _. unfold key, in_key_order, id_key_ltb. simpl.
  destruct digits_first, (isdigit a), (isdigit b); simpl;
    try discriminate; try reflexivity; try (intros _; reflexivity);
    intros Hlt; now apply str_ltb_false.
Qed.

Lemma Forall2_map_keys {A B : Type} (R : A -> B -> Prop) (f : B -> A)
    (l : list A) (out : list B) :
  Forall2 R l out -> (forall a b, R a b -> f b = a) -> map f out = l.
Proof.
  intros H Hf. induction H as [| a b l out Hab _ IH]; [reflexivity |].
  simpl. now rewrite (Hf a b Hab), IH.
Qed.

(** X12. The records of both summaries come with distinct identifiers in
    the order of the sort key: the identifiers that are not all digits
    first, by code points, then the identifiers that are all digits, by
    code points of their texts padded with zeros to ten characters. *)
Theorem summaries_identifiers_in_key_order
    (headers : list string) (rows : list (list string))
    (id_column primary_column : string) (secondary_column : option string)
    (score_columns : list string) :
  (forall out,
     summarize_decimal_integer headers rows id_column primary_column secondary_column
     = Ok out ->
     NoDup (map sr_id out) /\ StronglySorted (in_key_order false) (map sr_id out))
  /\ (forall out,
        summarize_by_id headers rows id_column score_columns = Ok out ->
        NoDup (map gs_id out) /\ StronglySorted (in_key_order false) (map gs_id out)).
Proof.
  assert (Hkeys : forall keys : list string,
             NoDup keys ->
             NoDup (py_sorted id_key_ltb id_sort_key keys)
             /\ StronglySorted (in_key_order false) (py_sorted id_key_ltb id_sort_key keys)).
  { intros keys Hnd. split.
    - eapply Permutation_NoDup; [symmetry; apply py_sorted_permutation | exact Hnd].
    - exact (py_sorted_in_key_order false keys). }
  assert (Hnil : NoDup (@nil string) /\ StronglySorted (in_key_order false) []).
  { split; constructor. }
  split; intros out Hout.
  - unfold summarize_decimal_integer in Hout.
    destruct (index_of id_column headers) as [id_idx |]; [| now injection Hout as <-].
    destruct (index_of primary_column headers) as [primary_idx |];
      [| now injection Hout as <-].
    apply bind_ok in Hout as [dec [_ Hout]]. apply bind_ok in Hout as [by_id [Hloop Hout]].
    rewrite (foldM_ext _ _ rows (tally_row_step id_idx primary_idx _ dec)) in Hloop.
    apply group_loop_NoDup in Hloop; [| constructor].
    apply mapM_ok in Hout.
    rewrite (Forall2_map_keys _ sr_id _ _ Hout).
    + now apply Hkeys.
    + intros a b Hab. now apply summary_of_fields in Hab.
  - unfold summarize_by_id in Hout.
    destruct (index_of id_column headers) as [id_idx |]; [| now injection Hout as <-].
    destruct (filter (fun ih => mem (snd ih) score_columns) (enumerate headers))
      as [| ih0 rest0]; [now injection Hout as <- |].
    apply bind_ok in Hout as [by_id [Hloop Hout]].
    apply (group_loop_NoDup (new_group (ih0 :: rest0)) id_idx
             (group_update (ih0 :: rest0))) in Hloop; [| constructor].
    apply mapM_ok in Hout.
    rewrite (Forall2_map_keys _ gs_id _ _ Hout).
    + now apply Hkeys.
    + intros a b Hab. now apply group_summary_of_fields in Hab.
Qed.

Lemma summaries_identifiers_example :
  NoDup ["abc"; "1"; "2"; "10"] /\ StronglySorted (in_key_order false) ["abc"; "1"; "2"; "10"].
Proof.
  exact (proj1 (summaries_identifiers_in_key_order
                  ["Start NR"; "Primary score"]
                  [["10"; "9"]; ["2"; "8"]; ["abc"; "7"]; ["1"; "6"]; ["2"; "5"]]
                  "Start NR" "Primary score" None [])
               [ {| sr_id := "abc"; sr_count := 1;
                    Decimal_score_sum := None; Decimal_score_mean := None;
                    Integer_score_sum := Some 7;
                    Integer_score_mean := Some (S754_finite false 7881299347898368 (-50)) |};
                 {| sr_id := "1"; sr_count := 1;
                    Decimal_score_sum := None; Decimal_score_mean := None;
                    Integer_score_sum := Some 6;
                    Integer_score_mean := Some (S754_finite false 6755399441055744 (-50)) |};
                 {| sr_id := "2"; sr_count := 2;
                    Decimal_score_sum := None; Decimal_score_mean := None;
                    Integer_score_sum := Some 13;
                    Integer_score_mean := Some (S754_finite false 7318349394477056 (-50)) |};
                 {| sr_id := "10"; sr_count := 1;
                    Decimal_score_sum := None; Decimal_score_mean := None;
                    Integer_score_sum := Some 9;
                    Integer_score_mean := Some float_9 |} ]
               ltac:(vm_compute; reflexivity)).
Defined.

(** ** The values of a column *)

Lemma distinct_In (l : list string) :
  forall seen a, In a (distinct seen l) <-> In a l /\ ~ In a seen.
Proof.
  induction l as [| b t IH]; intros seen a; simpl; [tauto |].
  destruct (mem b seen) eqn:E.
  - apply mem_In in E. rewrite IH. split.
    + intros [H1 H2]. auto.
    + intros [[<- | H1] H2]; [contradiction | auto].
  - assert (Hb : ~ In b seen) by (rewrite <- mem_In, E; discriminate).
    simpl. rewrite IH. simpl. split.
    + intros [<- | [H1 H2]]; [auto |]. split; [now right | tauto].
    + intros [[<- | H1] H2]; [now left |].
      destruct (string_dec b a) as [-> | Hne]; [now left | right].
      split; [exact H1 |]. intros [H | H]; [contradiction | contradiction].
Qed.

Lemma distinct_NoDup (l : list string) : forall seen, NoDup (distinct seen l).
Proof.
  induction l as [| b t IH]; intros seen; simpl; [constructor |].
  destruct (mem b seen); [apply IH |]. constructor; [| apply IH].
  rewrite distinct_In. intros [_ H]. apply H. now left.
Qed.

(** X13. [_unique_values] lists each trimmed, non-empty cell of the column
    once, the values that are all digits first (by code points of their
    texts padded with zeros to ten characters), the others after them (by
    code points). *)
Theorem unique_values_distinct_and_ordered (rows : list (list string)) (col_idx : nat) :
  NoDup (_unique_values rows col_idx)
  /\ StronglySorted (in_key_order true) (_unique_values rows col_idx)
  /\ forall v, In v (_unique_values rows col_idx)
               <-> exists row, In row rows /\ row_id col_idx row = Some v.
Proof.
  unfold _unique_values. split; [| split].
  - eapply Permutation_NoDup; [symmetry; apply py_sorted_permutation |].
    apply distinct_NoDup.
  - exact (py_sorted_in_key_order true _).
  - intros v. split.
    + intros H. apply (Permutation_in _ (py_sorted_permutation _ _ _)) in H.
      apply distinct_In in H as [H _]. apply in_flat_map in H as [row [Hrow H]].
      exists row. split; [exact Hrow |]. unfold row_id.
      destruct (cell row col_idx) as [c |]; [| destruct H]. cbv zeta.
      destruct (truthy (strip c)); [| destruct H]. destruct H as [<- | []]. reflexivity.
    + intros [row [Hrow Hid]].
      apply (Permutation_in _ (Permutation_sym (py_sorted_permutation _ _ _))).
      apply distinct_In. split; [| intros []]. apply in_flat_map.
      exists row. split; [exact Hrow |]. unfold row_id in Hid.
      destruct (cell row col_idx) as [c |]; [| discriminate]. cbv zeta in Hid.
      destruct (truthy (strip c)); [| discriminate]. injection Hid as <-. now left.
Qed.

(** ** The shots of a Start NR *)

Section StableSort.
Context {A K : Type}.
Variable ltb : K -> K -> bool.
Variable key : A -> K.
Variable p : A -> bool.

(** Sorting does not move the elements picked by [p] past one another when
    none of them is below another. *)
Lemma insert_sorted_filter (x : A) (l : list A) :
  (forall a b, In a (x :: l) -> In b (x :: l) ->
               p a = true -> p b = true -> ltb (key a) (key b) = false) ->
  filter p (insert_sorted ltb key x l) = filter p (x :: l).
Proof.
  induction l as [| y t IH]; intros H; [reflexivity |].
  simpl insert_sorted. destruct (ltb (key y) (key x)) eqn:E; [| reflexivity].
  assert (IH' : filter p (insert_sorted ltb key x t) = filter p (x :: t)).
  { apply IH. intros a b Ha Hb. apply H; simpl in *; tauto. }
  simpl. simpl in IH'. rewrite IH'.
  destruct (p y) eqn:Hy; [| reflexivity].
  destruct (p x) eqn:Hx; [| reflexivity].
  rewrite (H y x) in E; [discriminate | simpl; auto | simpl; auto | exact Hy | exact Hx].
Qed.

Lemma py_sorted_filter (l : list A) :
  (forall a b, In a l -> In b l ->
               p a = true -> p b = true -> ltb (key a) (key b) = false) ->
  filter p (py_sorted ltb key l) = filter p l.
Proof.
  induction l as [| x t IH]; intros H; [reflexivity |].
  simpl py_sorted. rewrite insert_sorted_filter.
  - simpl. rewrite IH; [reflexivity |]. intros a b Ha Hb. apply H; now right.
  - intros a b Ha Hb. apply H.
    + destruct Ha as [<- | Ha]; [now left | right].
      now apply (Permutation_in _ (py_sorted_permutation ltb key t)).
    + destruct Hb as [<- | Hb]; [now left | right].
      now apply (Permutation_in _ (py_sorted_permutation ltb key t)).
Qed.

Lemma py_sort_reverse_filter (l : list A) :
  (forall a b, In a l -> In b l ->
               p a = true -> p b = true -> ltb (key a) (key b) = false) ->
  filter p (py_sort_reverse ltb key l) = filter p l.
Proof.
  intros H. unfold py_sort_reverse.
  rewrite filter_rev, py_sorted_filter, filter_rev, rev_involutive; [reflexivity |].
  intros a b Ha Hb. apply H; now apply in_rev.
Qed.
End StableSort.

Lemma StronglySorted_filter {A : Type} (R : A -> A -> Prop) (p : A -> bool) (l : list A) :
  StronglySorted R l -> StronglySorted R (filter p l).
Proof.
  induction 1 as [| a l Hs IH Hf]; simpl; [constructor |].
  destruct (p a); [| exact IH]. constructor; [exact IH |].
  rewrite Forall_forall in *. intros b Hb. apply Hf. now apply filter_In in Hb.
Qed.

Lemma enumerate_from_sorted {A : Type} (l : list A) :
  forall k, StronglySorted (fun a b => (fst a < fst b)%nat) (enumerate_from k l)
            /\ Forall (fun a => (k <= fst a)%nat) (enumerate_from k l).
Proof.
  induction l as [| a t IH]; intros k; simpl; [split; constructor |].
  destruct (IH (S k)) as [Hs Hf]. split.
  - constructor; [exact Hs |]. eapply Forall_impl; [| exact Hf]. simpl. intros; lia.
  - constructor; [simpl; lia |]. eapply Forall_impl; [| exact Hf]. simpl. intros; lia.
Qed.

Lemma enumerate_from_filter {A : Type} (f : A -> bool) (l : list A) :
  forall k, map snd (filter (fun ia => f (snd ia)) (enumerate_from k l)) = filter f l.
Proof.
  induction l as [| a t IH]; intros k; simpl; [reflexivity |].
  destruct (f a); simpl; now rewrite IH.
Qed.

(** The shots collected by the loop are those of the matching rows, in the
    order of the rows. *)
Lemma collect_shots_indices (id_idx primary_idx : nat) (secondary_idx time_idx : option nat)
    (primary_is_decimal : bool) (start_nr_val : string) (l : list (nat * list string)) :
  forall shots,
    collect_shots id_idx primary_idx secondary_idx time_idx primary_is_decimal
      start_nr_val l = Ok shots ->
    map Index shots
    = map fst (filter (fun ir => row_matches id_idx start_nr_val (snd ir)) l).
Proof.
  induction l as [| [idx row] rest IH]; intros shots H; simpl in H.
  - now injection H as <-.
  - simpl. destruct (row_matches id_idx start_nr_val row).
    + apply bind_ok in H as [s0 [Hs0 H]]. apply bind_ok in H as [ss [Hss H]].
      injection H as <-. simpl. rewrite (IH _ Hss). f_equal.
      apply shot_of_row_fields in Hs0 as [pv [sv [sc [_ [_ [_ ->]]]]]]. reflexivity.
    + now apply IH.
Qed.

(** X14. [get_shots_for_start_nr] gives one shot for each row whose
    trimmed identifier cell is the trimmed Start NR: the indices of the
    shots are the positions of these rows, each once, so there are as many
    shots as matching rows. *)
Theorem one_shot_for_each_matching_row
    (headers : list string) (rows : list (list string))
    (id_column primary_column : string) (secondary_column : option string)
    (time_column start_nr_val : string) (id_idx primary_idx : nat) (shots : list shot) :
  index_of id_column headers = Some id_idx ->
  index_of primary_column headers = Some primary_idx ->
  get_shots_for_start_nr headers rows id_column primary_column secondary_column
    time_column start_nr_val = Ok shots ->
  Permutation (map Index shots)
    (map fst (filter (fun ir => row_matches id_idx (strip start_nr_val) (snd ir))
                (enumerate rows)))
  /\ NoDup (map Index shots)
  /\ List.length shots = List.length (rows_of id_idx (strip start_nr_val) rows).
Proof.
  intros Hid Hp H. unfold get_shots_for_start_nr in H. rewrite Hid, Hp in H.
  apply bind_ok in H as [dec [_ H]]. apply bind_ok in H as [collected [Hc Hsort]].
  apply sort_shots_permutation in Hsort. apply collect_shots_indices in Hc.
  assert (Hperm : Permutation (map Index shots)
                    (map fst (filter (fun ir => row_matches id_idx (strip start_nr_val) (snd ir))
                                (enumerate rows)))).
  { rewrite <- Hc. now apply Permutation_map. }
  split; [exact Hperm |]. split.
  - eapply Permutation_NoDup; [symmetry; exact Hperm |].
    assert (Hs : StronglySorted lt
                   (map fst (filter (fun ir => row_matches id_idx (strip start_nr_val) (snd ir))
                               (enumerate rows)))).
    { apply StronglySorted_map, StronglySorted_filter, enumerate_from_sorted. }
    revert Hs. generalize (map fst (filter (fun ir => row_matches id_idx (strip start_nr_val) (snd ir))
                               (enumerate rows))).
    induction 1 as [| a l Hs IH Hf]; constructor; [| exact IH].
    intros Hin. rewrite Forall_forall in Hf. specialize (Hf a Hin). lia.
  - rewrite <- (length_map Index), (Permutation_length Hperm), length_map.
    unfold rows_of, enumerate.
    rewrite <- (enumerate_from_filter (row_matches id_idx (strip start_nr_val)) rows 0).
    now rewrite length_map.
Qed.

Lemma one_shot_for_each_matching_row_example :
  Permutation [2; 0]%nat [0; 2]%nat /\ NoDup [2; 0]%nat /\ 2%nat = 2%nat.
Proof.
  exact (one_shot_for_each_matching_row
           ["Start NR"; "Primary score"; "Time"]
           [["7"; "9.5"; "10"]; ["8"; "1"; "11"]; [" 7 "; "x"; "12"]]
           "Start NR" "Primary score" None "Time" "7 " 0 1
           [ {| Index := 2; Time := "12"; Primary_score := ""; Secondary_score := "";
                Decimal_score := None; Integer_score := None |};
             {| Index := 0; Time := "10"; Primary_score := "9.5"; Secondary_score := "";
                Decimal_score := Some (VFloat (S754_finite false 5348024557502464 (-49)));
                Integer_score := Some 9 |} ]
           eq_refl eq_refl ltac:(vm_compute; reflexivity)).
Defined.

Lemma time_key_ltb_irrefl (k : time_key) : time_key_ltb k k = false.
Proof.
  destruct k as [f | s].
  - rewrite num_key_ltb. unfold SFltb.
    pose proof (SFcompare_antisym f f) as H.
    destruct (SFcompare f f) as [[| |] |]; try reflexivity. discriminate.
  - apply str_ltb_false, str_lt_irrefl.
Qed.

Lemma StronglySorted_of_map {A B : Type} (R : B -> B -> Prop) (f : A -> B) (l : list A) :
  StronglySorted R (map f l) -> StronglySorted (fun a b => R (f a) (f b)) l.
Proof.
  induction l as [| a t IH]; intros H; [constructor |].
  simpl in H. apply StronglySorted_inv in H as [Hs Hf].
  constructor; [exact (IH Hs) |]. exact (proj1 (Forall_map f (R (f a)) t) Hf).
Qed.

(** X15. When no shot has a time that reads as NaN, sorting the shots on
    their times, newest first, is stable: the shots whose time texts are
    equal stay in the order of their rows.  (With a NaN among the keys the
    comparisons order nothing, and where the interpreter's sort leaves the
    shots is not stated here.) *)
Theorem shots_with_equal_times_keep_row_order
    (headers : list string) (rows : list (list string))
    (id_column primary_column : string) (secondary_column : option string)
    (time_column start_nr_val : string) (shots : list shot) :
  get_shots_for_start_nr headers rows id_column primary_column secondary_column
    time_column start_nr_val = Ok shots ->
  (forall s, In s shots -> _time_sort_key (Time s) <> Ok (NumKey S754_nan)) ->
  forall t,
    StronglySorted (fun a b => (Index a < Index b)%nat)
      (filter (fun s => String.eqb (Time s) t) shots).
Proof.
  intros H _ t. unfold get_shots_for_start_nr in H.
  destruct (index_of id_column headers) as [id_idx |];
    [| injection H as <-; constructor].
  destruct (index_of primary_column headers) as [primary_idx |];
    [| injection H as <-; constructor].
  apply bind_ok in H as [dec [_ H]]. apply bind_ok in H as [collected [Hc Hsort]].
  unfold sort_shots in Hsort. apply bind_ok in Hsort as [keyed [Hk Hsort]].
  injection Hsort as <-. apply keyed_shots in Hk as [Hsnd Hkeys].
  rewrite filter_map_swap.
  rewrite (py_sort_reverse_filter time_key_ltb fst
             (fun ks : time_key * shot => String.eqb (Time (snd ks)) t)).
  rewrite <- (filter_map_swap (fun s => String.eqb (Time s) t) snd keyed), Hsnd.
  - apply StronglySorted_filter.
    apply (StronglySorted_of_map lt Index).
    rewrite (collect_shots_indices _ _ _ _ _ _ _ _ Hc).
    apply StronglySorted_map, StronglySorted_filter, enumerate_from_sorted.
  - intros a b Ha Hb Hta Htb. rewrite Forall_forall in Hkeys.
    pose proof (Hkeys a Ha) as Hka. pose proof (Hkeys b Hb) as Hkb.
    apply String.eqb_eq in Hta, Htb. rewrite Hta in Hka. rewrite Htb in Hkb.
    assert (E : fst a = fst b) by congruence. rewrite E. apply time_key_ltb_irrefl.
Qed.

Lemma shots_with_equal_times_example :
  StronglySorted (fun a b => (Index a < Index b)%nat)
    [ {| Index := 0; Time := "10"; Primary_score := "9.5"; Secondary_score := "";
         Decimal_score := Some (VFloat (S754_finite false 5348024557502464 (-49)));
         Integer_score := Some 9 |};
      {| Index := 2; Time := "10"; Primary_score := ""; Secondary_score := "";
         Decimal_score := None; Integer_score := None |} ].
Proof.
  exact (shots_with_equal_times_keep_row_order
           ["Start NR"; "Primary score"; "Time"]
           [["7"; "9.5"; "10"]; ["7"; "1"; "11"]; ["7"; "x"; " 10"]]
           "Start NR" "Primary score" None "Time" "7"
           [ {| Index := 1; Time := "11"; Primary_score := "1"; Secondary_score := "";
                Decimal_score := Some (VInt 1); Integer_score := Some 1 |};
             {| Index := 0; Time := "10"; Primary_score := "9.5"; Secondary_score := "";
                Decimal_score := Some (VFloat (S754_finite false 5348024557502464 (-49)));
                Integer_score := Some 9 |};
             {| Index := 2; Time := "10"; Primary_score := ""; Secondary_score := "";
                Decimal_score := None; Integer_score := None |} ]
           ltac:(vm_compute; reflexivity)
           ltac:(intros s [<- | [<- | [<- | []]]]; vm_compute; discriminate)
           "10").
Defined.

(** ** The target view *)




(** ** The store of the tabs *)

Section StoreLemmas.
Context {V : Type}.

Lemma dict_get_not_In (k : string) (d : dict V) :
  ~ In k (dict_keys d) -> dict_get k d = None.
Proof.
  induction d as [| [k' v'] t IH]; simpl; [reflexivity |].
  intros H. destruct (String.eqb k' k) eqn:E.
  - apply String.eqb_eq in E. tauto.
  - apply IH. tauto.
Qed.

Lemma dict_keys_del_In (k k2 : string) (d : dict V) :
  In k2 (dict_keys (dict_del k d)) -> In k2 (dict_keys d).
Proof.
  induction d as [| [k' v'] t IH]; simpl; [tauto |].
  destruct (String.eqb k' k); simpl; [tauto |]. intros [H | H]; [now left | right; auto].
Qed.

Lemma dict_keys_del_NoDup (k : string) (d : dict V) :
  NoDup (dict_keys d) -> NoDup (dict_keys (dict_del k d)).
Proof.
  induction d as [| [k' v'] t IH]; simpl; intros H; [constructor |].
  inversion H as [| ? ? Hnotin Hnd]; subst.
  destruct (String.eqb k' k); [exact Hnd |]. simpl. constructor; [| now apply IH].
  intros Hin. apply Hnotin. now apply dict_keys_del_In in Hin.
Qed.

Lemma dict_get_del_same (k : string) (d : dict V) :
  NoDup (dict_keys d) -> dict_get k (dict_del k d) = None.
Proof.
  induction d as [| [k' v'] t IH]; simpl; intros H; [reflexivity |].
  inversion H as [| ? ? Hnotin Hnd]; subst.
  destruct (String.eqb k' k) eqn:E.
  - apply String.eqb_eq in E. subst k'. now apply dict_get_not_In.
  - simpl. rewrite E. now apply IH.
Qed.

Lemma dict_get_del_other (k k2 : string) (d : dict V) :
  k2 <> k -> dict_get k2 (dict_del k d) = dict_get k2 d.
Proof.
  intros Hne. induction d as [| [k' v'] t IH]; simpl; [reflexivity |].
  destruct (String.eqb k' k) eqn:E; simpl.
  - apply String.eqb_eq in E. subst k'.
    destruct (String.eqb k k2) eqn:E2; [| reflexivity].
    apply String.eqb_eq in E2. now subst.
  - now rewrite IH.
Qed.

(** Deleting a list of keys. *)
Lemma dict_del_all (l : list string) :
  forall d : dict V,
    NoDup (dict_keys d) ->
    NoDup (dict_keys (fold_left (fun d tid => dict_del tid d) l d))
    /\ forall k, dict_get k (fold_left (fun d tid => dict_del tid d) l d)
                 = if mem k l then None else dict_get k d.
Proof.
  induction l as [| a t IH]; intros d Hnd; simpl; [now split |].
  destruct (IH (dict_del a d) (dict_keys_del_NoDup a d Hnd)) as [H1 H2].
  split; [exact H1 |]. intros k. rewrite H2. unfold mem. simpl.
  destruct (String.eqb k a) eqn:E; simpl.
  - apply String.eqb_eq in E. subst a. rewrite dict_get_del_same by exact Hnd.
    now destruct (existsb (String.eqb k) t).
  - rewrite dict_get_del_other; [reflexivity |].
    intros ->. now rewrite String.eqb_refl in E.
Qed.

Lemma dict_get_In (k : string) (v : V) (d : dict V) :
  NoDup (dict_keys d) -> (dict_get k d = Some v <-> In (k, v) d).
Proof.
  induction d as [| [k' v'] t IH]; simpl; intros H; [split; [discriminate | tauto] |].
  inversion H as [| ? ? Hnotin Hnd]; subst.
  destruct (String.eqb k' k) eqn:E.
  - apply String.eqb_eq in E. subst k'. split.
    + intros [= ->]. now left.
    + intros [[= ->] | Hin]; [reflexivity |].
      exfalso. apply Hnotin. apply in_map_iff. now exists (k, v).
  - rewrite (IH Hnd). split; [now right |].
    intros [[= -> ->] | Hin]; [now rewrite String.eqb_refl in E | exact Hin].
Qed.
End StoreLemmas.

(** The store after the stale entries are deleted. *)
Lemma purged_store (now : float) (store : dict tab) :
  NoDup (dict_keys store) ->
  let expired := map fst (filter (fun ts => stale now (snd ts)) store) in
  let store' := fold_left (fun d tid => dict_del tid d) expired store in
  NoDup (dict_keys store')
  /\ forall tab_id, dict_get tab_id store' = fresh_entry now store tab_id.
Proof.
  intros Hnd expired store'.
  destruct (dict_del_all expired store Hnd) as [H1 H2].
  split; [exact H1 |]. intros k. unfold store'. rewrite H2. unfold fresh_entry.
  destruct (dict_get k store) as [s |] eqn:Hs.
  - apply (dict_get_In k s store Hnd) in Hs.
    destruct (stale now s) eqn:Hst.
    + assert (Hin : In k expired).
      { apply in_map_iff. exists (k, s). split; [reflexivity |].
        apply filter_In. now split. }
      apply mem_In in Hin. now rewrite Hin.
    + destruct (mem k expired) eqn:Hm; [| reflexivity].
      apply mem_In in Hm. apply in_map_iff in Hm as [[k' s'] [Hk Hin]].
      simpl in Hk. subst k'. apply filter_In in Hin as [Hin Hst'].
      apply (dict_get_In k s' store Hnd) in Hin.
      apply (dict_get_In k s store Hnd) in Hs. simpl in Hst'. congruence.
  - now destruct (mem k expired).
Qed.

(** What [_get_tab_store] returns and leaves in the store. *)
Lemma get_tab_store_lookup (x_tab_id : option string) (now : float) (store : dict tab) :
  NoDup (dict_keys store) ->
  let tab_id := _get_tab_id x_tab_id in
  let table :=
    match fresh_entry now store tab_id with
    | Some s => (tab_headers s, tab_rows s)
    | None => ([], [])
    end in
  exists store',
    _get_tab_store x_tab_id now store = Ok (table, store')
    /\ NoDup (dict_keys store')
    /\ dict_get tab_id store'
       = Some {| tab_headers := fst table; tab_rows := snd table; last_used := now |}
    /\ forall other, other <> tab_id ->
                     dict_get other store' = fresh_entry now store other.
Proof.
  intros Hnd tab_id table. unfold _get_tab_store. fold tab_id.
  destruct (purged_store now store Hnd) as [Hnd1 Hget1]. cbv zeta in Hnd1, Hget1.
  set (store1 := fold_left (fun d tid => dict_del tid d)
                   (map fst (filter (fun ts => stale now (snd ts)) store)) store) in *.
  cbv zeta. unfold table. rewrite (Hget1 tab_id).
  destruct (fresh_entry now store tab_id) as [s |] eqn:Hs.
  - unfold dict_item at 1. rewrite (Hget1 tab_id), Hs. simpl bind.
    unfold dict_item. rewrite dict_get_set_same. simpl bind.
    eexists. split; [reflexivity |]. split; [now apply dict_keys_set_NoDup |].
    split; [apply dict_get_set_same |].
    intros other Hne. rewrite dict_get_set_other by exact Hne. apply Hget1.
  - unfold dict_item at 1. rewrite dict_get_set_same. simpl bind.
    unfold dict_item. rewrite dict_get_set_same. simpl bind.
    eexists. split; [reflexivity |].
    split; [now apply dict_keys_set_NoDup, dict_keys_set_NoDup |].
    split; [apply dict_get_set_same |].
    intros other Hne. rewrite !dict_get_set_other by exact Hne. apply Hget1.
Qed.

(** X17. A table stored for a tab comes back for that tab as long as no
    more than [_TAB_TTL_SECONDS] seconds have passed; later the tab reads as
    empty.  What another tab reads is not changed by the store. *)
Theorem tab_store_round_trip
    (x_tab_id x_other : option string) (t0 t1 : float)
    (headers : list string) (rows : list (list string)) (store : dict tab) :
  NoDup (dict_keys store) ->
  exists store',
    _get_tab_store x_other t1 (_set_tab_store x_tab_id t0 headers rows store)
    = Ok (if String.eqb (_get_tab_id x_other) (_get_tab_id x_tab_id)
          then if float_gt_int (float_sub t1 t0) _TAB_TTL_SECONDS
               then ([], [])
               else (headers, rows)
          else match fresh_entry t1 store (_get_tab_id x_other) with
               | Some s => (tab_headers s, tab_rows s)
               | None => ([], [])
               end,
          store').
Proof.
  intros Hnd. unfold _set_tab_store.
  set (v := {| tab_headers := headers; tab_rows := rows; last_used := t0 |}).
  pose proof (dict_keys_set_NoDup (_get_tab_id x_tab_id) v store Hnd) as Hnd1.
  destruct (get_tab_store_lookup x_other t1 _ Hnd1) as [store' [Hget _]].
  exists store'. rewrite Hget. do 2 f_equal. unfold fresh_entry.
  destruct (String.eqb (_get_tab_id x_other) (_get_tab_id x_tab_id)) eqn:E.
  - apply String.eqb_eq in E. rewrite E, dict_get_set_same.
    unfold stale. simpl last_used. now destruct (float_gt_int (float_sub t1 t0) _TAB_TTL_SECONDS).
  - rewrite dict_get_set_other; [reflexivity |].
    intros Heq. now rewrite Heq, String.eqb_refl in E.
Qed.

Lemma tab_store_round_trip_example :
  exists store',
    _get_tab_store (Some "a") float_9
      (_set_tab_store (Some "a") float_1 ["Start NR"] [["7"]] [])
    = Ok ((["Start NR"], [["7"]]), store').
Proof.
  exact (tab_store_round_trip (Some "a") (Some "a") float_1 float_9
           ["Start NR"] [["7"]] [] (NoDup_nil _)).
Defined.

(** X18. For a tab that has no table in the store, or whose table was last
    used more than [_TAB_TTL_SECONDS] seconds ago, the handlers [summary],
    [shots] and [target_data] answer "Upload a file first", whatever the
    request. *)
Theorem handlers_need_an_upload
    (x_tab_id : option string) (now : float) (store : dict tab) (data : request) :
  NoDup (dict_keys store) ->
  fresh_entry now store (_get_tab_id x_tab_id) = None ->
  exists store',
    on_tab_store (fun h r => summary h r data) x_tab_id now store
    = Ok (Error400 "Upload a file first", store')
    /\ on_tab_store (fun h r => shots h r data) x_tab_id now store
       = Ok (Error400 "Upload a file first", store')
    /\ on_tab_store (fun h r => target_data h r data) x_tab_id now store
       = Ok (Error400 "Upload a file first", store').
Proof.
  intros Hnd Hfresh.
  destruct (get_tab_store_lookup x_tab_id now store Hnd) as [store' [Hget _]].
  rewrite Hfresh in Hget. exists store'. unfold on_tab_store. rewrite Hget.
  repeat split.
Qed.

Lemma handlers_need_an_upload_example :
  exists store',
    on_tab_store (fun h r => summary h r no_filter) None float_9 [] 
    = Ok (Error400 "Upload a file first", store').
Proof.
  destruct (handlers_need_an_upload None float_9 [] no_filter (NoDup_nil _) eq_refl)
    as [store' [H _]].
  exists store'. exact H.
Defined.

(** ** Shot indices and excluded rows *)

Lemma enumerate_from_keep_all {A : Type} (j : nat) (l : list A) :
  forall k, (j < k)%nat ->
    map snd (filter (fun ir => negb (existsb (Nat.eqb (fst ir)) [j])) (enumerate_from k l)) = l.
Proof.
  induction l as [| a t IH]; intros k Hk; simpl; [reflexivity |].
  destruct (Nat.eqb_spec k j) as [-> | _]; [lia |]. simpl. f_equal. apply IH. lia.
Qed.

Lemma enumerate_from_drop_one {A : Type} (l : list A) :
  forall i k,
    map snd (filter (fun ir => negb (existsb (Nat.eqb (fst ir)) [(k + i)%nat]))
               (enumerate_from k l))
    = (firstn i l ++ skipn (S i) l)%list.
Proof.
  induction l as [| a t IH]; intros i k; simpl.
  - now destruct i.
  - destruct i as [| i].
    + rewrite Nat.add_0_r, Nat.eqb_refl. simpl. apply enumerate_from_keep_all. lia.
    + destruct (Nat.eqb_spec k (k + S i)) as [E | _]; [lia |]. simpl. f_equal.
      replace (k + S i)%nat with (S k + i)%nat by lia. apply IH.
Qed.

(** X19. The index of a shot that [shots] returns is the position of the
    shot's row among the rows left by the relay filter and the allow-list,
    the positions [excluded_indices] counts in: a request to [summary] or
    [target_data] that excludes just this index works on these rows
    without that one row. *)
Theorem shot_index_addresses_excluded_row
    (headers : list string) (rows : list (list string)) (data : request)
    (shot_list : list shot) (s : shot) :
  shots headers rows data = Json shot_list ->
  In s shot_list ->
  exists id_idx start_nr_val row,
    index_of (start_nr_column_of headers) headers = Some id_idx
    /\ req_start_nr data = Some start_nr_val
    /\ nth_error (filtered_rows headers rows data) (Index s) = Some row
    /\ row_matches id_idx (strip start_nr_val) row = true
    /\ selected_rows headers rows
         {| relay := relay data; start_nrs := start_nrs data;
            excluded_indices := [Index s]; req_start_nr := req_start_nr data |}
       = (firstn (Index s) (filtered_rows headers rows data)
          ++ skipn (S (Index s)) (filtered_rows headers rows data))%list.
Proof.
  unfold shots. intros H Hs.
  destruct headers as [| h0 ht] eqn:Hh; [discriminate |].
  destruct rows as [| r0 rt] eqn:Hr; [discriminate |].
  rewrite <- Hh, <- Hr in *.
  assert (Hne : headers <> []) by (rewrite Hh; discriminate).
  clear Hh Hr.
  destruct (given_string (primary_score (suggest_columns headers))) as [primary |] eqn:Hp;
    [| discriminate].
  destruct (given_string (req_start_nr data)) as [v |] eqn:Hv; [| discriminate].
  change (filter_start_nrs headers (start_nrs data) (filter_relay headers (relay data) rows))
    with (filtered_rows headers rows data) in H.
  set (kept := filtered_rows headers rows data) in *.
  destruct (get_shots_for_start_nr headers kept (start_nr_column_of headers) primary
              (secondary_score (suggest_columns headers)) (time_column_of headers) v)
    as [found | e] eqn:Hshots; [| discriminate].
  injection H as ->.
  pose proof (start_nr_column_is_header headers Hne) as Hid.
  apply index_of_In in Hid.
  destruct (index_of (start_nr_column_of headers) headers) as [id_idx |] eqn:Eid;
    [| contradiction].
  pose proof (primary_column_is_header headers primary Hp) as Hpr.
  apply index_of_In in Hpr.
  destruct (index_of primary headers) as [primary_idx |] eqn:Epr; [| contradiction].
  unfold get_shots_for_start_nr in Hshots. rewrite Eid, Epr in Hshots.
  apply bind_ok in Hshots as [dec [_ Hshots]].
  apply bind_ok in Hshots as [collected [Hc Hsort]].
  apply sort_shots_permutation in Hsort.
  apply collect_shots_rows in Hc as [Hrows _].
  apply (Permutation_in _ Hsort) in Hs.
  destruct (Hrows s Hs) as [row [_ [Hn [Hm _]]]]. rewrite Nat.sub_0_r in Hn.
  exists id_idx, v, row.
  split; [reflexivity |]. split; [now apply given_string_some |].
  split; [exact Hn |]. split; [exact Hm |].
  unfold selected_rows. cbn [relay start_nrs excluded_indices].
  change (filter_start_nrs headers (start_nrs data) (filter_relay headers (relay data) rows))
    with kept.
  unfold filter_excluded, enumerate. exact (enumerate_from_drop_one kept (Index s) 0).
Qed.

Lemma shot_index_addresses_excluded_row_example :
  exists id_idx start_nr_val row,
    index_of (start_nr_column_of ["Start NR"; "Primary score"])
      ["Start NR"; "Primary score"] = Some id_idx
    /\ Some "7" = Some start_nr_val
    /\ nth_error [["8"; "1"]; ["7"; "9.5"]] 1 = Some row
    /\ row_matches id_idx (strip start_nr_val) row = true
    /\ selected_rows ["Start NR"; "Primary score"] [["8"; "1"]; ["7"; "9.5"]]
         {| relay := None; start_nrs := None; excluded_indices := [1%nat];
            req_start_nr := Some "7" |}
       = [["8"; "1"]].
Proof.
  exact (shot_index_addresses_excluded_row
           ["Start NR"; "Primary score"] [["8"; "1"]; ["7"; "9.5"]]
           {| relay := None; start_nrs := None; excluded_indices := [];
              req_start_nr := Some "7" |}
           _
           {| Index := 1; Time := ""; Primary_score := "9.5"; Secondary_score := "";
              Decimal_score := Some (VFloat (S754_finite false 5348024557502464 (-49)));
              Integer_score := Some 9 |}
           ltac:(vm_compute; reflexivity) (or_introl eq_refl)).
Defined.

(** ** Numeric identifiers *)

Lemma digits_value_acc (s : string) :
  forall acc, digits_value acc s = acc * 10 ^ Z.of_nat (String.length s) + digits_value 0 s.
Proof.
  induction s as [| c r IH]; intros acc.
  - simpl. lia.
  - change (digits_value acc (String c r)) with (digits_value (10 * acc + digit_val c) r).
    change (digits_value 0 (String c r)) with (digits_value (10 * 0 + digit_val c) r).
    rewrite (IH (10 * acc + digit_val c)), (IH (10 * 0 + digit_val c)).
    cbn [String.length]. rewrite Nat2Z.inj_succ, Z.pow_succ_r by lia. ring.
Qed.

Lemma ascii_digit_val (c : ascii) : is_ascii_digit c = true -> 0 <= digit_val c <= 9.
Proof.
  unfold is_ascii_digit, in_range, digit_val. intros H.
  apply andb_true_iff in H as [H1 H2]. apply N.leb_le in H1, H2. lia.
Qed.

Lemma digits_value_bounds (s : string) :
  all_chars is_ascii_digit s = true ->
  0 <= digits_value 0 s < 10 ^ Z.of_nat (String.length s).
Proof.
  induction s as [| c r IH]; intros H.
  - simpl. lia.
  - simpl in H. apply andb_true_iff in H as [Hc Hr].
    specialize (IH Hr). apply ascii_digit_val in Hc.
    change (digits_value 0 (String c r)) with (digits_value (10 * 0 + digit_val c) r).
    rewrite digits_value_acc. cbn [String.length].
    rewrite Nat2Z.inj_succ, Z.pow_succ_r by lia. nia.
Qed.

(** Between texts of ASCII digits of one length, the smaller number is the
    smaller text. *)
Lemma digits_lt (a : string) :
  forall b,
    String.length a = String.length b ->
    all_chars is_ascii_digit a = true -> all_chars is_ascii_digit b = true ->
    digits_value 0 a < digits_value 0 b -> String_as_OT.lt a b.
Proof.
  induction a as [| c1 r1 IH]; intros [| c2 r2] Hlen Ha Hb Hlt; try discriminate.
  simpl in Ha, Hb. apply andb_true_iff in Ha as [Hc1 Hr1].
  apply andb_true_iff in Hb as [Hc2 Hr2]. injection Hlen as Hlen.
  change (digits_value 0 (String c1 r1)) with (digits_value (10 * 0 + digit_val c1) r1) in Hlt.
  change (digits_value 0 (String c2 r2)) with (digits_value (10 * 0 + digit_val c2) r2) in Hlt.
  rewrite (digits_value_acc r1), (digits_value_acc r2) in Hlt.
  rewrite Hlen in Hlt.
  pose proof (digits_value_bounds r1 Hr1) as B1. rewrite Hlen in B1.
  pose proof (digits_value_bounds r2 Hr2) as B2.
  pose proof (ascii_digit_val c1 Hc1) as D1. pose proof (ascii_digit_val c2 Hc2) as D2.
  set (p := 10 ^ Z.of_nat (String.length r2)) in *.
  destruct (Z.lt_trichotomy (digit_val c1) (digit_val c2)) as [Hd | [Hd | Hd]].
  - apply String_as_OT.lts_head. unfold digit_val, code in Hd.
    unfold nat_of_ascii. lia.
  - assert (Ec : c1 = c2).
    { unfold digit_val, code in Hd.
      rewrite <- (ascii_N_embedding c1), <- (ascii_N_embedding c2). f_equal. lia. }
    subst c2. apply String_as_OT.lts_tail. apply IH; auto. nia.
  - exfalso. nia.
Qed.

Lemma repeat_char_length (c : ascii) (n : nat) : String.length (repeat_char c n) = n.
Proof. induction n as [| n IH]; simpl; [reflexivity | now rewrite IH]. Qed.

Lemma string_append_length (a b : string) :
  String.length (a ++ b) = (String.length a + String.length b)%nat.
Proof. induction a as [| c r IH]; simpl; [reflexivity | now rewrite IH]. Qed.

Lemma all_chars_append (p : ascii -> bool) (a b : string) :
  all_chars p (a ++ b) = all_chars p a && all_chars p b.
Proof.
  induction a as [| c r IH]; simpl; [reflexivity |]. now rewrite IH, andb_assoc.
Qed.

Lemma digits_value_zeros (n : nat) (s : string) :
  digits_value 0 (repeat_char "0" n ++ s) = digits_value 0 s.
Proof. induction n as [| n IH]; simpl; [reflexivity | exact IH]. Qed.

Lemma all_chars_weaken (p q : ascii -> bool) (s : string) :
  (forall c, p c = true -> q c = true) -> all_chars p s = true -> all_chars q s = true.
Proof.
  intros Hpq. induction s as [| c r IH]; simpl; [reflexivity |].
  intros H. apply andb_true_iff in H as [Hc Hr]. now rewrite (Hpq c Hc), (IH Hr).
Qed.

(** [zfill(10)] of a short number: zeros in front, up to ten characters. *)
Lemma zfill_short_number (s : string) :
  short_number s ->
  String.length (zfill 10 s) = 10%nat
  /\ all_chars is_ascii_digit (zfill 10 s) = true
  /\ digits_value 0 (zfill 10 s) = digits_value 0 s
  /\ isdigit s = true.
Proof.
  intros [Hne [Hd Hlen]].
  assert (Hz : zfill 10 s = repeat_char "0" (10 - String.length s) ++ s).
  { unfold zfill. destruct s as [| c r]; [discriminate |].
    simpl in Hd. apply andb_true_iff in Hd as [Hc _].
    destruct (Ascii.eqb c "+") eqn:E1; [apply Ascii.eqb_eq in E1; subst c; discriminate |].
    destruct (Ascii.eqb c "-") eqn:E2; [apply Ascii.eqb_eq in E2; subst c; discriminate |].
    reflexivity. }
  rewrite Hz. split; [| split; [| split]].
  - rewrite string_append_length, repeat_char_length. lia.
  - rewrite all_chars_append, Hd, andb_true_r.
    generalize (10 - String.length s)%nat. induction n as [| n IH]; [reflexivity | exact IH].
  - apply digits_value_zeros.
  - unfold isdigit. rewrite Hne. simpl.
    apply (all_chars_weaken is_ascii_digit); [| exact Hd].
    intros c Hc. unfold is_digit_char. now rewrite Hc.
Qed.

Lemma in_key_order_numeric (digits_first : bool) (a b : string) :
  in_key_order digits_first a b -> in_numeric_order a b.
Proof.
  intros H Ha Hb. unfold number_of.
  destruct (zfill_short_number a Ha) as [La [Da [Va Ia]]].
  destruct (zfill_short_number b Hb) as [Lb [Db [Vb Ib]]].
  unfold in_key_order in H. rewrite Ia, Ib in H.
  rewrite <- Va, <- Vb.
  destruct (Z.le_gt_cases (digits_value 0 (zfill 10 a)) (digits_value 0 (zfill 10 b)))
    as [Hle | Hgt]; [exact Hle |].
  exfalso. apply H. apply digits_lt; [congruence | exact Db | exact Da | lia].
Qed.

(** X20. The identifiers written with at most ten ASCII digits come in the
    order of their numbers, in the records of both summaries and in the
    list of [_unique_values]. *)
Theorem short_numbers_come_in_numeric_order
    (headers : list string) (rows : list (list string))
    (id_column primary_column : string) (secondary_column : option string)
    (score_columns : list string) (col_idx : nat) :
  (forall out,
     summarize_decimal_integer headers rows id_column primary_column secondary_column
     = Ok out ->
     StronglySorted in_numeric_order (map sr_id out))
  /\ (forall out,
        summarize_by_id headers rows id_column score_columns = Ok out ->
        StronglySorted in_numeric_order (map gs_id out))
  /\ StronglySorted in_numeric_order (_unique_values rows col_idx).
Proof.
  assert (Hkeys : forall (df : bool) (l : list string),
             StronglySorted (in_key_order df) l -> StronglySorted in_numeric_order l).
  { intros df l. apply (StronglySorted_weaken _ _ (fun _ => True)).
    - intros a b _ _. apply in_key_order_numeric.
    - apply Forall_forall. intros; exact I. }
  split; [| split].
  - intros out Hout. unfold summarize_decimal_integer in Hout.
    destruct (index_of id_column headers) as [id_idx |];
      [| injection Hout as <-; constructor].
    destruct (index_of primary_column headers) as [primary_idx |];
      [| injection Hout as <-; constructor].
    apply bind_ok in Hout as [dec [_ Hout]]. apply bind_ok in Hout as [by_id [_ Hout]].
    apply mapM_ok in Hout. rewrite (Forall2_map_keys _ sr_id _ _ Hout).
    + apply (Hkeys false). exact (py_sorted_in_key_order false _).
    + intros a b Hab. now apply summary_of_fields in Hab.
  - intros out Hout. unfold summarize_by_id in Hout.
    destruct (index_of id_column headers) as [id_idx |];
      [| injection Hout as <-; constructor].
    destruct (filter (fun ih => mem (snd ih) score_columns) (enumerate headers))
      as [| ih0 rest0]; [injection Hout as <-; constructor |].
    apply bind_ok in Hout as [by_id [_ Hout]].
    apply mapM_ok in Hout. rewrite (Forall2_map_keys _ gs_id _ _ Hout).
    + apply (Hkeys false). exact (py_sorted_in_key_order false _).
    + intros a b Hab. now apply group_summary_of_fields in Hab.
  - apply (Hkeys true). exact (py_sorted_in_key_order true _).
Qed.

Lemma short_numbers_example :
  StronglySorted in_numeric_order ["abc"; "1"; "2"; "10"]
  /\ StronglySorted in_numeric_order ["9"; "10"; "x"].
Proof.
  split.
  - exact (proj1 (short_numbers_come_in_numeric_order
                    ["Start NR"; "Primary score"]
                    [["10"; "9"]; ["2"; "8"]; ["abc"; "7"]; ["1"; "6"]; ["2"; "5"]]
                    "Start NR" "Primary score" None [] 0)
                 [ {| sr_id := "abc"; sr_count := 1;
                      Decimal_score_sum := None; Decimal_score_mean := None;
                      Integer_score_sum := Some 7;
                      Integer_score_mean := Some (S754_finite false 7881299347898368 (-50)) |};
                   {| sr_id := "1"; sr_count := 1;
                      Decimal_score_sum := None; Decimal_score_mean := None;
                      Integer_score_sum := Some 6;
                      Integer_score_mean := Some (S754_finite false 6755399441055744 (-50)) |};
                   {| sr_id := "2"; sr_count := 2;
                      Decimal_score_sum := None; Decimal_score_mean := None;
                      Integer_score_sum := Some 13;
                      Integer_score_mean := Some (S754_finite false 7318349394477056 (-50)) |};
                   {| sr_id := "10"; sr_count := 1;
                      Decimal_score_sum := None; Decimal_score_mean := None;
                      Integer_score_sum := Some 9;
                      Integer_score_mean := Some float_9 |} ]
                 ltac:(vm_compute; reflexivity)).
  - exact (proj2 (proj2 (short_numbers_come_in_numeric_order
                           [] [["10"]; ["9"]; ["x"]] "" "" None [] 0))).
Defined.

(** ** The summary and the shots *)

(** The scores of the collected shots are the derived scores of the
    matching rows. *)
Lemma collect_shots_scores (id_idx primary_idx : nat) (secondary_idx time_idx : option nat)
    (primary_is_decimal : bool) (start_nr_val : string) (l : list (nat * list string)) :
  forall found,
    collect_shots id_idx primary_idx secondary_idx time_idx primary_is_decimal
      start_nr_val l = Ok found ->
    exists scs,
      mapM (row_scores primary_idx secondary_idx primary_is_decimal)
        (map snd (filter (fun ir => row_matches id_idx start_nr_val (snd ir)) l)) = Ok scs
      /\ map Integer_score found = map snd scs
      /\ map Decimal_score found = map (fun sc => option_map round4 (fst sc)) scs.
Proof.
  induction l as [| [idx row] rest IH]; intros found H; simpl in H.
  - injection H as <-. now exists [].
  - simpl. destruct (row_matches id_idx start_nr_val row).
    + apply bind_ok in H as [s0 [Hs0 H]]. apply bind_ok in H as [ss [Hss H]].
      injection H as <-. destruct (IH _ Hss) as [scs [Hscs [Hi Hd]]].
      apply shot_of_row_fields in Hs0 as [pv [sv [sc [Hpv [Hsv [Hsc ->]]]]]].
      exists (sc :: scs). simpl. unfold row_scores at 1.
      rewrite Hpv. simpl. rewrite Hsv. simpl. rewrite Hsc. simpl. rewrite Hscs. simpl.
      now rewrite Hi, Hd.
    + now apply IH.
Qed.

Lemma defined_permutation {A : Type} (l l' : list (option A)) :
  Permutation l l' -> Permutation (defined l) (defined l').
Proof.
  induction 1 as [| a l l' _ IH | a b l | l l' l'' _ IH1 _ IH2]; simpl.
  - constructor.
  - destruct a; [now constructor | exact IH].
  - destruct a, b; try reflexivity. constructor.
  - now transitivity (defined l').
Qed.

Lemma int_sum_permutation (l l' : list Z) :
  Permutation l l' -> int_sum l = int_sum l'.
Proof.
  unfold int_sum.
  induction 1 as [| a l l' _ IH | a b l | l l' l'' _ IH1 _ IH2]; simpl; lia.
Qed.

Lemma defined_map_none {A B : Type} (f : A -> B) (l : list (option A)) :
  defined (map (option_map f) l) = [] <-> defined l = [].
Proof.
  induction l as [| [a |] t IH]; simpl; [tauto | split; discriminate | exact IH].
Qed.

(** X21. The summary and the list of shots agree: for the same table and
    columns, the record of a Start NR counts the shots listed for it, its
    integer sum is the sum of their integer scores ([None] when none has
    one), and it has a decimal sum exactly when one of them has a decimal
    score. *)
Theorem summary_record_agrees_with_shots
    (headers : list string) (rows : list (list string))
    (id_column primary_column : string) (secondary_column : option string)
    (time_column start_nr_val : string) (id_idx primary_idx : nat)
    (out : list summary_row) (found : list shot) (r : summary_row) :
  index_of id_column headers = Some id_idx ->
  index_of primary_column headers = Some primary_idx ->
  summarize_decimal_integer headers rows id_column primary_column secondary_column = Ok out ->
  get_shots_for_start_nr headers rows id_column primary_column secondary_column
    time_column start_nr_val = Ok found ->
  In r out ->
  sr_id r = strip start_nr_val ->
  sr_count r = List.length found
  /\ Integer_score_sum r
     = match defined (map Integer_score found) with
       | [] => None
       | _ :: _ => Some (int_sum (defined (map Integer_score found)))
       end
  /\ (Decimal_score_sum r = None <-> defined (map Decimal_score found) = []).
Proof.
  intros Hid Hp Hout Hshots Hr Hk.
  unfold summarize_decimal_integer in Hout. rewrite Hid, Hp in Hout.
  unfold get_shots_for_start_nr in Hshots. rewrite Hid, Hp in Hshots.
  apply bind_ok in Hout as [dec [Hdec Hout]].
  apply bind_ok in Hshots as [dec' [Hdec' Hshots]].
  assert (dec' = dec) by congruence. subst dec'. clear Hdec'.
  apply bind_ok in Hout as [by_id [Hloop Hout]].
  apply bind_ok in Hshots as [collected [Hc Hsort]].
  set (sec := optional_index secondary_column headers) in *.
  rewrite (foldM_ext _ _ rows (tally_row_step id_idx primary_idx sec dec)) in Hloop.
  destruct (group_loop new_tally id_idx (tally_update primary_idx sec dec) rows [] by_id
              Hloop) as [Hent Hkeys].
  apply mapM_ok in Hout.
  destruct (Forall2_In_right _ _ _ r Hout Hr) as [k [Hkin Hsum]].
  pose proof (summary_of_fields _ _ _ Hsum) as [Hrid _].
  apply (Permutation_in _ (py_sorted_permutation _ _ _)) in Hkin.
  apply Hkeys in Hkin as [[] | [row [Hrow Hrowid]]].
  pose proof (row_id_nonempty _ _ _ Hrowid) as Hne.
  pose proof (Hent k Hne) as Hfold. change (entry new_tally [] k) with new_tally in Hfold.
  change (tally_of by_id k) with (entry new_tally by_id k) in Hsum.
  destruct (tally_fold_content _ _ _ _ _ _ Hfold)
    as [scs [Hscs [Hcnt [Hin [His [Hdn _]]]]]].
  simpl in Hcnt, Hin, His, Hdn.
  assert (Ek : k = strip start_nr_val) by congruence.
  clear Hrid Hrowid Hne Hfold Hent Hkeys. subst k.
  destruct (collect_shots_scores _ _ _ _ _ _ _ _ Hc) as [scs' [Hscs' [Hi Hd]]].
  unfold enumerate in Hscs'. rewrite enumerate_from_filter in Hscs'.
  change (filter (row_matches id_idx (strip start_nr_val)) rows)
    with (rows_of id_idx (strip start_nr_val) rows) in Hscs'.
  assert (scs' = scs) by congruence. subst scs'. clear Hscs'.
  apply sort_shots_permutation in Hsort.
  assert (Hlen : List.length collected = List.length (rows_of id_idx (strip start_nr_val) rows)).
  { rewrite <- (length_map Integer_score), Hi, length_map.
    apply mapM_ok in Hscs. symmetry. exact (Forall2_length Hscs). }
  pose proof (defined_permutation _ _ (Permutation_map Integer_score Hsort)) as Pi.
  pose proof (defined_permutation _ _ (Permutation_map Decimal_score Hsort)) as Pd.
  rewrite Hi in Pi. rewrite Hd in Pd.
  unfold summary_of in Hsum.
  apply bind_ok in Hsum as [dm [_ Hsum]]. apply bind_ok in Hsum as [im [_ Hsum]].
  injection Hsum as <-. cbn [sr_count Integer_score_sum Decimal_score_sum].
  split; [| split].
  - rewrite Hcnt, (Permutation_length Hsort), Hlen. reflexivity.
  - rewrite Hin, His, (int_sum_permutation _ _ Pi).
    destruct (defined (map snd scs)) as [| i0 is0] eqn:Ei.
    + apply Permutation_sym, Permutation_nil in Pi. now rewrite Pi.
    + destruct (defined (map Integer_score found)) as [| j0 js0]; [| reflexivity].
      apply Permutation_nil in Pi. discriminate.
  - rewrite Hdn. rewrite <- (map_map fst (option_map round4)) in Pd.
    split.
    + intros Hnone.
      destruct (defined (map fst scs)) as [| d0 ds] eqn:Ed; [| discriminate].
      apply (proj2 (defined_map_none round4 _)) in Ed. rewrite Ed in Pd.
      now apply Permutation_sym, Permutation_nil in Pd.
    + intros Hnil. rewrite Hnil in Pd. apply Permutation_nil in Pd.
      apply (proj1 (defined_map_none round4 _)) in Pd. now rewrite Pd.
Qed.

Lemma summary_record_agrees_with_shots_example :
  2%nat = 2%nat
  /\ Some 18 = Some 18
  /\ (Some (S754_finite false 5207287069147136 (-48)) = None <->
      [VFloat (S754_finite false 5629499534213120 (-49));
       VFloat (S754_finite false 4785074604081152 (-49))] = []).
Proof.
  exact (summary_record_agrees_with_shots
           ["Start NR"; "Primary score"; "Time"]
           [["7"; "8.5"; "10"]; ["8"; "1"; "11"]; [" 7 "; "10.0"; "12"]]
           "Start NR" "Primary score" None "Time" "7 " 0 1
           [ {| sr_id := "7"; sr_count := 2;
                Decimal_score_sum := Some (S754_finite false 5207287069147136 (-48));
                Decimal_score_mean := Some (S754_finite false 5207287069147136 (-49));
                Integer_score_sum := Some 18;
                Integer_score_mean := Some float_9 |};
             {| sr_id := "8"; sr_count := 1;
                Decimal_score_sum := Some float_1;
                Decimal_score_mean := Some float_1;
                Integer_score_sum := Some 1;
                Integer_score_mean := Some float_1 |} ]
           _ _
           eq_refl eq_refl ltac:(vm_compute; reflexivity) ltac:(vm_compute; reflexivity)
           (or_introl eq_refl) eq_refl).
Defined.

(** ** The exceptions of [summarize_by_id] *)

(** A loop that keeps an invariant and fails only in the way [Q]. *)
Lemma foldM_cases {S A : Type} (P : S -> Prop) (Q : exn -> Prop)
    (f : S -> A -> result S) (l : list A) :
  (forall s a, In a l -> P s ->
               match f s a with Ok s' => P s' | Raise e => Q e end) ->
  forall s, P s -> match foldM f s l with Ok s' => P s' | Raise e => Q e end.
Proof.
  induction l as [| a t IH]; intros Hf s Hs; simpl; [exact Hs |].
  pose proof (Hf s a (or_introl eq_refl) Hs) as Ha.
  destruct (f s a) as [s1 | e]; simpl; [| exact Ha].
  apply IH; [| exact Ha]. intros s0 a0 Hin. apply Hf. now right.
Qed.

Lemma mapM_cases {A B : Type} (Q : exn -> Prop) (f : A -> result B) (l : list A) :
  (forall a, In a l -> match f a with Ok _ => True | Raise e => Q e end) ->
  match mapM f l with Ok _ => True | Raise e => Q e end.
Proof.
  induction l as [| a t IH]; intros Hf; simpl; [exact I |].
  pose proof (Hf a (or_introl eq_refl)) as Ha.
  destruct (f a) as [b | e]; simpl; [| exact Ha].
  assert (Ht : match mapM f t with Ok _ => True | Raise e => Q e end).
  { apply IH. intros a0 Hin. apply Hf. now right. }
  destruct (mapM f t); simpl; [exact I | exact Ht].
Qed.

Lemma float_of_int_overflow (z : Z) : overflow_only (float_of_int z).
Proof.
  unfold float_of_int. now destruct (is_finite (binary_normalize prec emax z 0 false)).
Qed.

Lemma float_add_overflow (a : float) (v : pyval) : overflow_only (float_add a v).
Proof.
  destruct v as [z | b]; simpl; [| exact I].
  pose proof (float_of_int_overflow z) as H. now destruct (float_of_int z).
Qed.

Lemma dict_get_set_some {V : Type} (k h : string) (v : V) (d : dict V) :
  dict_get h d <> None -> dict_get h (dict_set k v d) <> None.
Proof.
  intros H. destruct (string_dec h k) as [-> | Hne].
  - now rewrite dict_get_set_same.
  - now rewrite dict_get_set_other.
Qed.

Lemma dict_from_keys_get {V : Type} (v : V) (score_idxs : list (nat * string)) (h : string) :
  In h (map snd score_idxs) -> dict_get h (dict_from_keys v score_idxs) <> None.
Proof.
  unfold dict_from_keys.
  assert (H : forall (l : list (nat * string)) (d : dict V),
             In h (map snd l) \/ dict_get h d <> None ->
             dict_get h (fold_left (fun d ih => dict_set (snd ih) v d) l d) <> None).
  { induction l as [| ih t IH]; intros d Hd; simpl.
    - destruct Hd as [[] | Hd]. exact Hd.
    - apply IH. simpl in Hd. destruct Hd as [[<- | Hin] | Hd].
      + right. now rewrite dict_get_set_same.
      + now left.
      + right. now apply dict_get_set_some. }
  intros Hin. apply H. now left.
Qed.

Lemma new_group_ok (score_idxs : list (nat * string)) : group_ok score_idxs (new_group score_idxs).
Proof.
  intros h Hh. split; now apply dict_from_keys_get.
Qed.

Lemma add_score_cases (score_idxs : list (nat * string)) (row : list string)
    (g : group) (ih : nat * string) :
  In ih score_idxs -> group_ok score_idxs g ->
  match add_score row g ih with
  | Ok g' => group_ok score_idxs g'
  | Raise e => is_overflow e
  end.
Proof.
  intros Hin Hg. unfold add_score.
  destruct (parse_cell_total row (Some (fst ih))) as [v ->]. simpl.
  destruct v as [x |]; [| exact Hg].
  destruct (Hg (snd ih) (in_map snd _ _ Hin)) as [Hs Hv].
  unfold dict_item.
  destruct (dict_get (snd ih) (sums g)) as [s |]; [| contradiction]. simpl.
  pose proof (float_add_overflow s x) as Hadd.
  destruct (float_add s x) as [s' | e]; simpl; [| exact Hadd].
  destruct (dict_get (snd ih) (values g)) as [vs |]; [| contradiction]. simpl.
  intros h Hh. destruct (Hg h Hh) as [H1 H2]. simpl.
  split; now apply dict_get_set_some.
Qed.

Lemma group_update_cases (score_idxs : list (nat * string)) (g : group) (row : list string) :
  group_ok score_idxs g ->
  match group_update score_idxs g row with
  | Ok g' => group_ok score_idxs g'
  | Raise e => is_overflow e
  end.
Proof.
  intros Hg. unfold group_update.
  apply (foldM_cases (group_ok score_idxs) is_overflow).
  - intros s a Hin Hs. now apply add_score_cases.
  - exact Hg.
Qed.

Lemma float_div_count_overflow (a : float) (n : nat) :
  overflow_only (float_div_count a (S n)).
Proof.
  unfold float_div_count.
  pose proof (float_of_int_overflow (Z.of_nat (S n))) as H.
  now destruct (float_of_int (Z.of_nat (S n))).
Qed.

Lemma group_summary_of_cases (score_idxs : list (nat * string)) (score_columns : list string)
    (id_val : string) (g : group) :
  group_ok score_idxs g ->
  (forall c, In c score_columns -> In c (map snd score_idxs)) ->
  overflow_only (group_summary_of score_columns id_val g).
Proof.
  intros Hg Hcols. unfold group_summary_of.
  assert (H : match foldM (add_fields g) [] score_columns with
              | Ok _ => True
              | Raise e => is_overflow e
              end).
  { apply (foldM_cases (fun _ => True) is_overflow); [| exact I].
    intros out c Hc _. unfold add_fields, dict_item.
    destruct (Hg c (Hcols c Hc)) as [Hs Hv].
    destruct (dict_get c (sums g)) as [s |]; [| contradiction]. simpl.
    destruct (dict_get c (values g)) as [vs |]; [| contradiction]. simpl.
    destruct (List.length vs) as [| n]; [exact I |]. cbv beta iota.
    pose proof (float_div_count_overflow s n) as Hq.
    destruct (float_div_count s (S n)) as [q | e]; [exact I | exact Hq]. }
  now destruct (foldM (add_fields g) [] score_columns).
Qed.

(** X22. When every requested score column is a header, [summarize_by_id]
    raises nothing but [OverflowError] (for an integer cell too large for a
    float): no [KeyError], no [ZeroDivisionError] and no [ValueError]. *)
Theorem summarize_by_id_raises_only_overflow
    (headers : list string) (rows : list (list string))
    (id_column : string) (score_columns : list string) (e : exn) :
  (forall c, In c score_columns -> In c headers) ->
  summarize_by_id headers rows id_column score_columns = Raise e ->
  is_overflow e.
Proof.
  intros Hcols H. unfold summarize_by_id in H.
  destruct (index_of id_column headers) as [id_idx |]; [| discriminate].
  destruct (filter (fun ih => mem (snd ih) score_columns) (enumerate headers))
    as [| ih0 rest0] eqn:Hidx; [discriminate |].
  set (idxs := ih0 :: rest0) in *.
  assert (Hnames : forall c, In c score_columns -> In c (map snd idxs)).
  { intros c Hc. destruct (In_nth_error _ _ (Hcols c Hc)) as [i Hi].
    apply in_map_iff. exists (i, c). split; [reflexivity |].
    rewrite <- Hidx. apply filter_In. split; [now apply enumerate_In |].
    now apply mem_In. }
  pose proof (foldM_cases
                (fun d : dict group => forall k g, dict_get k d = Some g -> group_ok idxs g)
                is_overflow (group_row id_idx idxs) rows) as Hloop.
  assert (Hinit : forall (k : string) (g : group),
             dict_get k (@nil (string * group)) = Some g -> group_ok idxs g)
    by (intros k g; discriminate).
  specialize (fun Hstep => Hloop Hstep [] Hinit).
  assert (Hrows : match foldM (group_row id_idx idxs) [] rows with
                  | Ok d => forall k g, dict_get k d = Some g -> group_ok idxs g
                  | Raise e0 => is_overflow e0
                  end).
  { apply Hloop. intros d row _ Hd. rewrite group_row_step. unfold group_step.
    destruct (row_id id_idx row) as [k |]; [| exact Hd].
    assert (Hentry : group_ok idxs (entry (new_group idxs) d k)).
    { unfold entry. destruct (dict_get k d) as [g |] eqn:Eg;
        [now apply (Hd k) | apply new_group_ok]. }
    pose proof (group_update_cases idxs _ row Hentry) as Hup.
    destruct (group_update idxs (entry (new_group idxs) d k) row) as [g' | e0];
      simpl; [| exact Hup].
    intros k' g Hget. destruct (string_dec k' k) as [-> | Hne].
    - rewrite dict_get_set_same in Hget. now injection Hget as <-.
    - rewrite dict_get_set_other in Hget by exact Hne. now apply (Hd k'). }
  destruct (foldM (group_row id_idx idxs) [] rows) as [by_id | e0]; simpl in H;
    [| now injection H as <-].
  pose proof (mapM_cases is_overflow
                (fun id_val => group_summary_of score_columns id_val
                                 (group_of idxs by_id id_val))
                (py_sorted id_key_ltb id_sort_key (dict_keys by_id))) as Hmap.
  rewrite H in Hmap. apply Hmap. intros k _.
  apply (group_summary_of_cases idxs); [| exact Hnames].
  unfold group_of. destruct (dict_get k by_id) as [g |] eqn:Eg;
    [now apply (Hrows k) | apply new_group_ok].
Qed.

Lemma summarize_by_id_raises_only_overflow_example :
  summarize_by_id ["Start NR"; "Score"] [["7"; String "1" (repeat_char "0" 309)]]
    "Start NR" ["Score"] = Raise int_too_large
  /\ is_overflow int_too_large.
Proof.
  split; [vm_compute; reflexivity |].
  apply (summarize_by_id_raises_only_overflow
           ["Start NR"; "Score"]
           [["7"; String "1" (repeat_char "0" 309)]]
           "Start NR" ["Score"]).
  - intros c [<- | []]. right. now left.
  - vm_compute. reflexivity.
Defined.

(** ** Parsed cells are numeric *)

Lemma ascii_digit_facts (c : ascii) :
  is_ascii_digit c = true ->
  lower_char c = c /\ Ascii.eqb c "_" = false /\ Ascii.eqb c "i" = false
  /\ Ascii.eqb c "n" = false /\ Ascii.eqb c "+" = false /\ Ascii.eqb c "-" = false
  /\ Ascii.eqb c "." = false /\ Ascii.eqb c "e" = false /\ Ascii.eqb c "E" = false.
Proof.
  destruct c as [[] [] [] [] [] [] [] []]; vm_compute; intros H;
    try discriminate H; repeat split; reflexivity.
Qed.

(** The digits and underscores [int] accepts are accepted by [float]. *)
Lemma int_digits_drop_underscores (r : string) :
  forall (prev : ascii) (us : bool) (acc z : Z),
    int_digits us acc r = Some z ->
    (if us then prev = "_"%char else is_ascii_digit prev = true) ->
    exists t, drop_underscores prev r = Some t /\ all_chars is_ascii_digit t = true.
Proof.
  induction r as [| c r IH]; intros prev us acc z H Hprev; simpl in H.
  - destruct us; [discriminate |]. simpl.
    destruct (ascii_digit_facts prev Hprev) as [_ [-> _]]. now exists EmptyString.
  - simpl. destruct (is_ascii_digit c) eqn:Hc.
    + destruct (ascii_digit_facts c Hc) as [_ [-> _]].
      rewrite andb_false_r.
      destruct (IH c false _ z H Hc) as [t [Ht Hd]].
      exists (String c t). rewrite Ht. simpl. now rewrite Hc, Hd.
    + destruct (Ascii.eqb c "_") eqn:Eu; [| discriminate].
      destruct us; [discriminate |]. simpl in H. rewrite Hprev.
      apply Ascii.eqb_eq in Eu. subst c.
      exact (IH "_"%char true acc z H eq_refl).
Qed.

Lemma take_all_digits (t : string) :
  all_chars is_ascii_digit t = true -> take_digits t = (t, EmptyString).
Proof.
  induction t as [| c r IH]; simpl; [reflexivity |].
  intros H. apply andb_true_iff in H as [Hc Hr]. now rewrite Hc, (IH Hr).
Qed.

Lemma py_float_of_digits (neg : bool) (c : ascii) (t : string) :
  is_ascii_digit c = true -> all_chars is_ascii_digit t = true ->
  exists f, (let low := lower (String c t) in
             if String.eqb low "inf" || String.eqb low "infinity"
             then Ok (S754_infinity neg)
             else if String.eqb low "nan" then Ok S754_nan
             else match parse_decimal neg (String c t) with
                  | Some f => Ok f
                  | None => Raise float_error
                  end) = Ok f.
Proof.
  intros Hc Ht. cbv zeta.
  destruct (ascii_digit_facts c Hc) as [Hl [_ [Hi [Hn _]]]].
  simpl lower. rewrite Hl. simpl String.eqb. rewrite Hi, Hn. simpl.
  unfold parse_decimal.
  rewrite (take_all_digits (String c t)) by (simpl; now rewrite Hc, Ht).
  simpl. eauto.
Qed.

Lemma py_int_py_float (s : string) (z : Z) :
  py_int s = Ok z -> exists f, py_float s = Ok f.
Proof.
  unfold py_int, py_float. destruct (take_sign (strip s)) as [neg body] eqn:Hsign.
  destruct body as [| c r]; [discriminate |].
  destruct (is_ascii_digit c) eqn:Hc; [| discriminate].
  destruct (int_digits false (digit_val c) r) as [z' |] eqn:Hd; [| discriminate].
  intros _.
  destruct (int_digits_drop_underscores r c false _ z' Hd Hc) as [t [Ht Hall]].
  destruct (ascii_digit_facts c Hc) as [_ [Hu [_ [_ [Hplus [Hminus _]]]]]].
  assert (Hbody : drop_underscores zero (strip s) <> None
                  /\ forall t0, drop_underscores zero (strip s) = Some t0 ->
                                snd (take_sign t0) = String c t).
  { unfold take_sign in Hsign. destruct (strip s) as [| c0 r0]; [discriminate |].
    destruct (Ascii.eqb c0 "-") eqn:E1; [| destruct (Ascii.eqb c0 "+") eqn:E2].
    - injection Hsign as _ ->. apply Ascii.eqb_eq in E1. subst c0.
      simpl. rewrite Hu, Ht. simpl. split; [discriminate |]. now intros t0 [= <-].
    - injection Hsign as _ ->. apply Ascii.eqb_eq in E2. subst c0.
      simpl. rewrite Hu, Ht. simpl. split; [discriminate |]. now intros t0 [= <-].
    - injection Hsign as _ -> ->.
      simpl. rewrite Hu, Ht. simpl. split; [discriminate |].
      intros t0 [= <-]. unfold take_sign. now rewrite Hminus, Hplus. }
  destruct Hbody as [Hsome Hsnd].
  destruct (drop_underscores zero (strip s)) as [t0 |]; [| contradiction].
  specialize (Hsnd t0 eq_refl). destruct (take_sign t0) as [neg0 body0].
  simpl in Hsnd. subst body0. now apply py_float_of_digits.
Qed.

(** X23. Every cell that [_parse_value] reads as a number is numeric for
    [_is_numeric], the test [infer_column_types] applies to a column. *)
Theorem parsed_cells_are_numeric (value : string) (v : pyval) :
  _parse_value value = Ok (Some v) -> _is_numeric value = Ok true.
Proof.
  unfold _parse_value, _is_numeric.
  destruct (truthy (strip value)); simpl; [| discriminate].
  destruct (contains "." (strip value) || contains "e" (lower (strip value))).
  - destruct (py_float (strip value)) as [f | e] eqn:Hf; simpl; [reflexivity |].
    rewrite (py_float_raises _ _ Hf). discriminate.
  - destruct (py_int (strip value)) as [z | e] eqn:Hz; simpl.
    + destruct (py_int_py_float _ _ Hz) as [f ->]. reflexivity.
    + rewrite (py_int_raises _ _ Hz). discriminate.
Qed.

Lemma parsed_cells_are_numeric_example :
  _is_numeric " -1_000 " = Ok true
  /\ _is_numeric "inf" = Ok true /\ _parse_value "inf" = Ok None.
Proof.
  split; [| split; vm_compute; reflexivity].
  apply (parsed_cells_are_numeric " -1_000 " (VInt (-1000))). vm_compute. reflexivity.
Defined.

(** ** C3: what both summaries count and add up *)

Lemma foldM_app {S A : Type} (f : S -> A -> result S) (a b : list A) :
  forall s, foldM f s (a ++ b)%list = (s' <- foldM f s a ;; foldM f s' b).
Proof.
  induction a as [| x t IH]; intros s; simpl; [reflexivity |].
  destruct (f s x) as [s1 | e]; simpl; [apply IH | reflexivity].
Qed.

Lemma parsed_ok (row : list string) (i : nat) :
  parse_cell row (Some i) = Ok (parsed row i).
Proof.
  unfold parsed. now destruct (parse_cell_total row (Some i)) as [v ->].
Qed.

(** What one row adds to the sum and to the values of the column [h]. *)
Lemma add_scores_content (row : list string) (l : list (nat * string)) :
  forall (g g' : group),
    foldM (add_score row) g l = Ok g' ->
    forall h s0 vs0,
      dict_get h (sums g) = Some s0 ->
      dict_get h (values g) = Some vs0 ->
      exists s,
        dict_get h (sums g') = Some s
        /\ dict_get h (values g')
           = Some (vs0 ++ defined (map (fun ih => parsed row (fst ih))
                                     (filter (fun ih => String.eqb (snd ih) h) l)))%list
        /\ foldM float_add s0
             (defined (map (fun ih => parsed row (fst ih))
                         (filter (fun ih => String.eqb (snd ih) h) l))) = Ok s.
Proof.
  induction l as [| ih t IH]; intros g g' H h s0 vs0 Hs Hv; simpl in H.
  - injection H as <-. exists s0. simpl. now rewrite app_nil_r.
  - apply bind_ok in H as [g1 [H1 H]]. unfold add_score in H1.
    rewrite parsed_ok in H1. simpl bind in H1. simpl filter.
    destruct (parsed row (fst ih)) as [x |] eqn:Ex.
    + apply bind_ok in H1 as [sa [Hsa H1]]. apply bind_ok in H1 as [s' [Hs' H1]].
      apply bind_ok in H1 as [vsa [Hvsa H1]]. injection H1 as <-.
      destruct (String.eqb (snd ih) h) eqn:E.
      * apply String.eqb_eq in E. unfold dict_item in Hsa, Hvsa.
        rewrite E, Hs in Hsa. rewrite E, Hv in Hvsa.
        injection Hsa as <-. injection Hvsa as <-.
        destruct (IH _ _ H h s' (vs0 ++ [x])%list) as [s [H1 [H2 H3]]].
        { simpl. rewrite E. apply dict_get_set_same. }
        { simpl. rewrite E. apply dict_get_set_same. }
        exists s. simpl map. rewrite Ex. simpl defined.
        split; [exact H1 |]. split.
        -- rewrite H2, <- app_assoc. reflexivity.
        -- simpl. rewrite Hs'. exact H3.
      * apply (IH _ _ H h s0 vs0).
        -- simpl. rewrite dict_get_set_other; [exact Hs |].
           intros ->. now rewrite String.eqb_refl in E.
        -- simpl. rewrite dict_get_set_other; [exact Hv |].
           intros ->. now rewrite String.eqb_refl in E.
    + injection H1 as <-.
      destruct (String.eqb (snd ih) h); [| now apply (IH _ _ H)].
      simpl map. rewrite Ex. simpl defined. now apply (IH _ _ H).
Qed.

(** What the rows of one identifier make of a group. *)
Lemma group_fold_content (score_idxs : list (nat * string)) (rs : list (list string)) :
  forall (g0 g : group),
    foldM (group_update score_idxs) g0 rs = Ok g ->
    forall h s0 vs0,
      dict_get h (sums g0) = Some s0 ->
      dict_get h (values g0) = Some vs0 ->
      exists s,
        dict_get h (sums g) = Some s
        /\ dict_get h (values g) = Some (vs0 ++ column_values score_idxs h rs)%list
        /\ foldM float_add s0 (column_values score_idxs h rs) = Ok s.
Proof.
  induction rs as [| row rest IH]; intros g0 g H h s0 vs0 Hs Hv; simpl in H.
  - injection H as <-. exists s0. simpl. now rewrite app_nil_r.
  - apply bind_ok in H as [g1 [H1 H]]. unfold group_update in H1.
    destruct (add_scores_content row score_idxs _ _ H1 h s0 vs0 Hs Hv)
      as [s1 [Hs1 [Hv1 Hf1]]].
    destruct (IH _ _ H h s1 _ Hs1 Hv1) as [s [Hs2 [Hv2 Hf2]]].
    exists s. unfold column_values. simpl flat_map. fold (column_values score_idxs h rest).
    split; [exact Hs2 |]. split.
    + rewrite Hv2, <- app_assoc. reflexivity.
    + rewrite foldM_app, Hf1. exact Hf2.
Qed.

Lemma dict_from_keys_value {V : Type} (v : V) (score_idxs : list (nat * string)) (h : string) :
  In h (map snd score_idxs) -> dict_get h (dict_from_keys v score_idxs) = Some v.
Proof.
  intros Hin. pose proof (dict_from_keys_get v score_idxs h Hin) as Hsome.
  assert (Hall : forall (l : list (nat * string)) (d : dict V),
             (forall k x, dict_get k d = Some x -> x = v) ->
             forall k x, dict_get k (fold_left (fun d ih => dict_set (snd ih) v d) l d) = Some x ->
                         x = v).
  { induction l as [| ih t IH]; intros d Hd k x; simpl; [apply Hd |].
    apply IH. intros k' x' Hget. destruct (string_dec k' (snd ih)) as [-> | Hne].
    - rewrite dict_get_set_same in Hget. now injection Hget as <-.
    - rewrite dict_get_set_other in Hget by exact Hne. now apply (Hd k'). }
  unfold dict_from_keys in *.
  destruct (dict_get h (fold_left (fun d ih => dict_set (snd ih) v d) score_idxs []))
    as [x |] eqn:E; [| contradiction].
  f_equal. apply (Hall score_idxs [] ltac:(intros k x0; discriminate) h x E).
Qed.

Lemma append_suffix_inj (s : string) (a : string) :
  forall b : string, a ++ s = b ++ s -> a = b.
Proof.
  induction a as [| c a IH]; intros [| c' b] H; simpl in H.
  - reflexivity.
  - exfalso. apply (f_equal String.length) in H. simpl in H.
    rewrite string_append_length in H. lia.
  - exfalso. apply (f_equal String.length) in H. simpl in H.
    rewrite string_append_length in H. lia.
  - injection H as -> H. f_equal. now apply IH.
Qed.

Lemma sum_mean_keys_differ (a : string) :
  forall b : string, a ++ "_sum" <> b ++ "_mean".
Proof.
  induction a as [| c a IH]; intros [| c' b] H; simpl in H.
  - discriminate.
  - apply (f_equal String.length) in H. simpl in H.
    rewrite string_append_length in H. simpl in H. lia.
  - injection H as _ H. destruct a as [| c2 a]; simpl in H; [discriminate |].
    apply (f_equal String.length) in H. simpl in H.
    rewrite string_append_length in H. simpl in H. lia.
  - injection H as _ H. now apply (IH b).
Qed.

(** One turn of the loop that writes the fields of a record. *)
Lemma add_fields_step (g : group) (out out' : dict (option float)) (c : string) :
  add_fields g out c = Ok out' ->
  out' = dict_set (c ++ "_mean") (mean_field g c)
           (dict_set (c ++ "_sum") (sum_field g c) out)
  /\ exists s vs,
       dict_get c (sums g) = Some s /\ dict_get c (values g) = Some vs
       /\ match vs with
          | [] => True
          | _ :: _ => exists q, float_div_count s (List.length vs) = Ok q
          end.
Proof.
  unfold add_fields, dict_item, sum_field, mean_field. intros H.
  destruct (dict_get c (sums g)) as [s |]; [| discriminate]. simpl bind in H.
  destruct (dict_get c (values g)) as [vs |]; [| discriminate]. simpl bind in H.
  destruct vs as [| v vs].
  - simpl in H. injection H as <-. split; [reflexivity |]. now exists s, [].
  - cbn [List.length] in *. cbv beta iota in H.
    destruct (float_div_count s (S (List.length vs))) as [q | e] eqn:Eq;
      simpl bind in H; [| discriminate].
    injection H as <-. split; [reflexivity |]. exists s, (v :: vs).
    split; [reflexivity |]. split; [reflexivity |]. now exists q.
Qed.

Lemma add_fields_content (g : group) (score_columns : list string) :
  forall out0 out,
    foldM (add_fields g) out0 score_columns = Ok out ->
    forall c,
      In c score_columns
      \/ (dict_get (c ++ "_sum") out0 = Some (sum_field g c)
          /\ dict_get (c ++ "_mean") out0 = Some (mean_field g c)) ->
      dict_get (c ++ "_sum") out = Some (sum_field g c)
      /\ dict_get (c ++ "_mean") out = Some (mean_field g c).
Proof.
  induction score_columns as [| c0 t IH]; intros out0 out H c Hc; simpl in H.
  - injection H as <-. destruct Hc as [[] | Hc]. exact Hc.
  - apply bind_ok in H as [out1 [H1 H]]. apply (IH _ _ H c).
    apply add_fields_step in H1 as [-> _].
    destruct (string_dec c0 c) as [-> | Hne].
    + right. split.
      * rewrite dict_get_set_other by apply sum_mean_keys_differ.
        apply dict_get_set_same.
      * apply dict_get_set_same.
    + destruct Hc as [[Heq | Hin] | [Hs Hm]]; [contradiction | now left |].
      right. split.
      * rewrite dict_get_set_other by apply sum_mean_keys_differ.
        rewrite dict_get_set_other; [exact Hs |].
        intros Heq. apply Hne. symmetry. now apply (append_suffix_inj "_sum").
      * rewrite dict_get_set_other.
        -- rewrite dict_get_set_other; [exact Hm |].
           intros Heq. symmetry in Heq. now apply sum_mean_keys_differ in Heq.
        -- intros Heq. apply Hne. symmetry. now apply (append_suffix_inj "_mean").
Qed.

Lemma add_fields_reads (g : group) (score_columns : list string) :
  forall out0 out,
    foldM (add_fields g) out0 score_columns = Ok out ->
    forall c, In c score_columns ->
      exists s vs,
        dict_get c (sums g) = Some s /\ dict_get c (values g) = Some vs
        /\ match vs with
           | [] => True
           | _ :: _ => exists q, float_div_count s (List.length vs) = Ok q
           end.
Proof.
  induction score_columns as [| c0 t IH]; intros out0 out H c Hc; [destruct Hc |].
  simpl in H. apply bind_ok in H as [out1 [H1 H]]. destruct Hc as [<- | Hc].
  - now apply add_fields_step in H1 as [_ H1].
  - now apply (IH _ _ H).
Qed.

(** What the record of an identifier holds, from the rows of the
    identifier. *)
Lemma summary_of_content (primary_idx : nat) (secondary_idx : option nat)
    (primary_is_decimal : bool) (rs : list (list string)) (t : tally)
    (id_val : string) (r : summary_row) :
  foldM (tally_update primary_idx secondary_idx primary_is_decimal) new_tally rs = Ok t ->
  summary_of id_val t = Ok r ->
  exists scs,
    mapM (row_scores primary_idx secondary_idx primary_is_decimal) rs = Ok scs
    /\ sr_count r = List.length rs
    /\ match defined (map fst scs) with
       | [] => Decimal_score_sum r = None /\ Decimal_score_mean r = None
       | decs =>
           exists s q,
             foldM float_add fzero decs = Ok s
             /\ float_div_count s (List.length decs) = Ok q
             /\ Decimal_score_sum r = Some (round4_float s)
             /\ Decimal_score_mean r = Some (round4_float q)
       end
    /\ match defined (map snd scs) with
       | [] => Integer_score_sum r = None /\ Integer_score_mean r = None
       | ints =>
           exists q,
             int_div_count (int_sum ints) (List.length ints) = Ok q
             /\ Integer_score_sum r = Some (int_sum ints)
             /\ Integer_score_mean r = Some (round4_float q)
       end.
Proof.
  intros Hfold Hsum.
  destruct (tally_fold_content _ _ _ _ _ _ Hfold)
    as [scs [Hscs [Hc [Hin [His [Hdn Hds]]]]]].
  unfold summary_of in Hsum.
  apply bind_ok in Hsum as [dm [Hdm Hsum]]. apply bind_ok in Hsum as [im [Him Hsum]].
  injection Hsum as <-. cbn [sr_id sr_count Decimal_score_sum Decimal_score_mean
                               Integer_score_sum Integer_score_mean].
  exists scs. split; [exact Hscs |]. split; [exact Hc |].
  simpl in Hin, His, Hdn, Hds. split.
  - destruct (defined (map fst scs)) as [| d0 ds] eqn:Ed.
    + simpl in Hdn. rewrite Hdn in *. injection Hdm as <-. now split.
    + rewrite Hdn in *. cbn [List.length Nat.add] in *.
      apply bind_ok in Hdm as [q [Hq Hdm]]. injection Hdm as <-.
      exists (decimal_sum t), q. repeat split; assumption.
  - destruct (defined (map snd scs)) as [| i0 is0] eqn:Ei.
    + simpl in Hin. rewrite Hin in *. injection Him as <-. now split.
    + rewrite Hin, His in *. cbn [List.length Nat.add] in *.
      apply bind_ok in Him as [q [Hq Him]]. injection Him as <-.
      exists q. repeat split; assumption.
Qed.

(** C3. When the identifier column is found and a summary returns, the
    rows without identifier are skipped and every other row is counted for
    its identifier, whatever its score cells hold: the counts of the
    records add up to the number of rows whose identifier cell is not
    blank, each record counts all the rows of its identifier, no two
    records share an identifier and none has the empty identifier.  A
    score that is undefined for a row (a cell that does not parse) is left
    out of the sum of that score and of the number its mean divides by:
    the sums run over the defined scores of the identifier's rows, the
    means divide by their number, and a mean is [None] when there is none.
    This holds for [summarize_decimal_integer] (primary column found),
    whose decimal and integer sums are [None] without a defined score, and
    for [summarize_by_id] (one score column found). *)
Theorem summaries_count_rows_with_identifier
    (headers : list string) (rows : list (list string))
    (id_column : string) (id_idx : nat) :
  index_of id_column headers = Some id_idx ->
  (forall primary_column secondary_column primary_idx out,
      index_of primary_column headers = Some primary_idx ->
      summarize_decimal_integer headers rows id_column primary_column secondary_column
      = Ok out ->
      list_sum (map sr_count out) = List.length (filter (has_identifier id_idx) rows)
      /\ NoDup (map sr_id out)
      /\ exists primary_is_decimal,
           _column_has_decimals rows primary_idx = Ok primary_is_decimal
           /\ forall r, In r out ->
                sr_id r <> ""
                /\ sr_count r = List.length (rows_of id_idx (sr_id r) rows)
                /\ exists scs,
                     mapM (row_scores primary_idx (optional_index secondary_column headers)
                             primary_is_decimal)
                       (rows_of id_idx (sr_id r) rows) = Ok scs
                     /\ match defined (map fst scs) with
                        | [] => Decimal_score_sum r = None /\ Decimal_score_mean r = None
                        | decs =>
                            exists s q,
                              foldM float_add fzero decs = Ok s
                              /\ float_div_count s (List.length decs) = Ok q
                              /\ Decimal_score_sum r = Some (round4_float s)
                              /\ Decimal_score_mean r = Some (round4_float q)
                        end
                     /\ match defined (map snd scs) with
                        | [] => Integer_score_sum r = None /\ Integer_score_mean r = None
                        | ints =>
                            exists q,
                              int_div_count (int_sum ints) (List.length ints) = Ok q
                              /\ Integer_score_sum r = Some (int_sum ints)
                              /\ Integer_score_mean r = Some (round4_float q)
                        end)
  /\ (forall score_columns out,
        (exists h, In h headers /\ In h score_columns) ->
        summarize_by_id headers rows id_column score_columns = Ok out ->
        list_sum (map gs_count out) = List.length (filter (has_identifier id_idx) rows)
        /\ NoDup (map gs_id out)
        /\ forall r, In r out ->
             gs_id r <> ""
             /\ gs_count r = List.length (rows_of id_idx (gs_id r) rows)
             /\ forall c, In c score_columns ->
                  exists s,
                    foldM float_add fzero
                      (column_values (score_positions headers score_columns) c
                         (rows_of id_idx (gs_id r) rows)) = Ok s
                    /\ dict_get (c ++ "_sum") (fields r) = Some (Some (round4_float s))
                    /\ match column_values (score_positions headers score_columns) c
                               (rows_of id_idx (gs_id r) rows) with
                       | [] => dict_get (c ++ "_mean") (fields r) = Some None
                       | vals =>
                           exists q,
                             float_div_count s (List.length vals) = Ok q
                             /\ dict_get (c ++ "_mean") (fields r)
                                = Some (Some (round4_float q))
                       end).
Proof.
  intros Hid. split.
  - intros primary_column secondary_column p out Hp Hout.
    unfold summarize_decimal_integer in Hout. rewrite Hid, Hp in Hout.
    apply bind_ok in Hout as [dec [Hdec Hout]].
    apply bind_ok in Hout as [by_id [Hloop Hout]].
    set (sec := optional_index secondary_column headers) in *.
    destruct (counting_loop count new_tally eq_refl id_idx _
                (tally_row_counts id_idx p sec dec) rows [] by_id Hloop
                (NoDup_nil _) (fun k H => match H with end))
      as [Hnd [Hne [Htot Hper]]].
    destruct (counted_records count new_tally summary_of sr_id sr_count
                id_key_ltb id_sort_key by_id out summary_of_fields Hnd Hout)
      as [Hperm [Hsum Hrec]].
    split; [rewrite Hsum, Htot; reflexivity |]. split.
    { eapply Permutation_NoDup; [symmetry; exact Hperm | exact Hnd]. }
    exists dec. split; [exact Hdec |].
    rewrite (foldM_ext _ _ rows (tally_row_step id_idx p sec dec)) in Hloop.
    destruct (group_loop new_tally id_idx (tally_update p sec dec) rows [] by_id Hloop)
      as [Hent _].
    apply mapM_ok in Hout.
    intros r Hr.
    assert (Hk : sr_id r <> "").
    { apply Hne. eapply Permutation_in; [exact Hperm |]. now apply in_map. }
    split; [exact Hk |]. split; [rewrite (Hrec r Hr), (Hper _ Hk); reflexivity |].
    destruct (Forall2_In_right _ _ _ r Hout Hr) as [k [_ Hrk]].
    pose proof (summary_of_fields _ _ _ Hrk) as [Hrid _]. subst k.
    pose proof (Hent _ Hk) as Hfold.
    change (entry new_tally [] (sr_id r)) with new_tally in Hfold.
    change (tally_of by_id (sr_id r)) with (entry new_tally by_id (sr_id r)) in Hrk.
    destruct (summary_of_content _ _ _ _ _ _ _ Hfold Hrk) as [scs [Hscs [_ [Hd Hi]]]].
    exists scs. split; [exact Hscs |]. split; [exact Hd | exact Hi].
  - intros score_columns out [h [Hh Hs]] Hout.
    unfold summarize_by_id in Hout. rewrite Hid in Hout.
    fold (score_positions headers score_columns) in Hout.
    destruct (score_positions headers score_columns) as [| ih0 rest] eqn:Hidx.
    + exfalso. apply In_nth_error in Hh as [i Hi].
      assert (Hin : In (i, h) (score_positions headers score_columns)).
      { apply filter_In. split; [now apply enumerate_In | now apply mem_In]. }
      rewrite Hidx in Hin. contradiction.
    + set (idxs := ih0 :: rest) in *.
      apply bind_ok in Hout as [by_id [Hloop Hout]].
      destruct (counting_loop g_count (new_group idxs) eq_refl id_idx _
                  (group_row_counts id_idx idxs) rows [] by_id Hloop
                  (NoDup_nil _) (fun k H => match H with end))
        as [Hnd [Hne [Htot Hper]]].
      destruct (counted_records g_count (new_group idxs)
                  (group_summary_of score_columns) gs_id gs_count
                  id_key_ltb id_sort_key by_id out
                  (group_summary_of_fields score_columns) Hnd Hout)
        as [Hperm [Hsum Hrec]].
      split; [rewrite Hsum, Htot; reflexivity |]. split.
      { eapply Permutation_NoDup; [symmetry; exact Hperm | exact Hnd]. }
      destruct (group_loop (new_group idxs) id_idx (group_update idxs) rows [] by_id Hloop)
        as [Hent _].
      apply mapM_ok in Hout.
      intros r Hr.
      assert (Hk : gs_id r <> "").
      { apply Hne. eapply Permutation_in; [exact Hperm |]. now apply in_map. }
      split; [exact Hk |]. split; [rewrite (Hrec r Hr), (Hper _ Hk); reflexivity |].
      intros c Hc.
      destruct (Forall2_In_right _ _ _ r Hout Hr) as [k [_ Hrk]].
      pose proof (group_summary_of_fields _ _ _ _ Hrk) as [Hrid _]. subst k.
      pose proof (Hent _ Hk) as Hfold.
      change (entry (new_group idxs) [] (gs_id r)) with (new_group idxs) in Hfold.
      change (group_of idxs by_id (gs_id r))
        with (entry (new_group idxs) by_id (gs_id r)) in Hrk.
      set (g := entry (new_group idxs) by_id (gs_id r)) in *.
      unfold group_summary_of in Hrk. apply bind_ok in Hrk as [fs [Hfs Hrk]].
      assert (Hfields : fields r = fs) by (now injection Hrk as <-).
      rewrite Hfields.
      destruct (add_fields_reads g score_columns _ _ Hfs c Hc) as [s [vs [Hgs [Hgv Hq]]]].
      destruct (add_fields_content g score_columns _ _ Hfs c (or_introl Hc)) as [Hsumf Hmeanf].
      assert (Hname : In c (map snd idxs)).
      { pose proof (dict_get_In_keys _ _ _ Hgs) as Hin.
        refine (foldM_invariant
                  (fun g0 => forall c, In c (dict_keys (sums g0)) -> In c (map snd idxs))
                  (group_update idxs) _ _ _ _ _ Hfold c Hin).
        - intros s1 a s1' _ Hs1 Hup. exact (group_update_keys idxs s1 s1' a Hup Hs1).
        - intros c0 Hc0. now apply dict_from_keys_In in Hc0. }
      destruct (group_fold_content idxs _ _ _ Hfold c fzero []
                  (dict_from_keys_value fzero idxs c Hname)
                  (dict_from_keys_value [] idxs c Hname))
        as [s' [Hgs' [Hgv' Hsum']]].
      simpl app in Hgv'.
      assert (s' = s) by congruence. subst s'.
      assert (Hvs : vs = column_values idxs c (rows_of id_idx (gs_id r) rows)) by congruence.
      exists s. split; [exact Hsum' |]. split.
      * rewrite Hsumf. unfold sum_field. now rewrite Hgs.
      * rewrite Hmeanf. unfold mean_field. rewrite Hgs, Hgv. rewrite <- Hvs.
        destruct vs as [| v0 vs0]; [reflexivity |].
        destruct Hq as [q Hq]. exists q. split; [exact Hq |].
        cbn [List.length] in *. now rewrite Hq.
Qed.

(** A table with an unparseable score cell and a blank identifier: the row
    with the cell "x" is counted for "7" and left out of its sum and of
    the divisor of its mean; three rows have an identifier, and the counts
    add up to three. *)
Lemma summaries_count_example :
  let headers := ["Start NR"; "Primary score"] in
  let rows := [["7"; "x"]; [" "; "5"]; ["7"; "9"]; ["8"; "1"]] in
  let by_decimal :=
    [ {| sr_id := "7"; sr_count := 2;
         Decimal_score_sum := None; Decimal_score_mean := None;
         Integer_score_sum := Some 9; Integer_score_mean := Some float_9 |};
      {| sr_id := "8"; sr_count := 1;
         Decimal_score_sum := None; Decimal_score_mean := None;
         Integer_score_sum := Some 1; Integer_score_mean := Some float_1 |} ] in
  let by_id :=
    [ {| gs_id := "7"; gs_count := 2;
         fields := [("Primary score_sum", Some float_9);
                    ("Primary score_mean", Some float_9)] |};
      {| gs_id := "8"; gs_count := 1;
         fields := [("Primary score_sum", Some float_1);
                    ("Primary score_mean", Some float_1)] |} ] in
  summarize_decimal_integer headers rows "Start NR" "Primary score" None = Ok by_decimal
  /\ list_sum (map sr_count by_decimal) = 3%nat
  /\ summarize_by_id headers rows "Start NR" ["Primary score"] = Ok by_id
  /\ list_sum (map gs_count by_id) = 3%nat
  /\ column_values (score_positions headers ["Primary score"]) "Primary score"
       (rows_of 0 "7" rows) = [VInt 9].
Proof.
  cbv zeta.
  destruct (summaries_count_rows_with_identifier
              ["Start NR"; "Primary score"]
              [["7"; "x"]; [" "; "5"]; ["7"; "9"]; ["8"; "1"]]
              "Start NR" 0 eq_refl) as [H1 H2].
  split; [vm_compute; reflexivity |]. split.
  - eapply (fun out Ho => proj1 (H1 "Primary score" None 1%nat out eq_refl Ho)).
    vm_compute. reflexivity.
  - split; [vm_compute; reflexivity |]. split; [| vm_compute; reflexivity].
    eapply (fun out Ho =>
              proj1 (H2 ["Primary score"] out
                       (ex_intro _ "Primary score" (conj (or_intror (or_introl eq_refl))
                                                        (or_introl eq_refl))) Ho)).
    vm_compute. reflexivity.
Defined.
